(** * choice-learn: the training and inference engine of [models/base_model.py]

    A shallow embedding of [ChoiceModel] and [BaseLatentClassModel].

    Conventions of the embedding:
    - a Python [float] / tensor entry is a real number ([R]); where the code
      tests for NaN the scalar type is abstracted by the class [Scalar], which
      has [R] (no NaN) and [xfloat] (reals extended with infinities and NaN)
      as instances; [Float32.range_scalar] is [xfloat] with the range of
      float32, for the results that overflow or underflow;
    - a Python exception is a value of [exn]; a method that may raise returns
      a [result];
    - [self] is an explicit record that is passed in and returned;
    - [print] appends a line to an output log;
    - collaborators that are not part of [base_model.py] (the dataset, the
      automatic differentiation, the optimizers, the quasi-Newton minimiser,
      the callbacks, the operations of [tf_ops], the concrete utility
      function and the class of the sub-models of a mixture) are the fields
      of the classes [CM.Substrate] and [LC.Substrate];
    - a trace of events records what [fit] does, in order. *)

From Stdlib Require Import String Ascii.
From Stdlib Require Import List Bool Arith ZArith Lia.
From Stdlib Require Import Reals Lra.
Import ListNotations.

Set Implicit Arguments.

(** ** Python values shared by all parts *)

(** The exceptions that the modelled code can raise. *)
Inductive exn : Type :=
| TypeError (msg : string)
| AttributeError (msg : string)
| IndexError (msg : string)
| ValueError (msg : string)
| NameError (msg : string).

(** A computation that returns or raises. *)
Inductive result (A : Type) : Type :=
| Ok (a : A)
| Raise (e : exn).
Arguments Ok {A} a.
Arguments Raise {A} e.

Definition is_ok {A} (r : result A) : bool :=
  match r with Ok _ => true | Raise _ => false end.

Definition bind {A B} (r : result A) (k : A -> result B) : result B :=
  match r with
  | Ok a => k a
  | Raise e => Raise e
  end.

Declare Scope result_scope.
Delimit Scope result_scope with result.
Notation "x <- c ;; k" := (bind c (fun x => k))
  (at level 61, c at next level, right associativity) : result_scope.

(** Binding the keyword arguments of a call to the parameters of a [def]
    that has no [**kwargs]: a keyword that names no parameter raises. *)
Definition bind_keywords (fname : string) (params keywords : list string)
  : result unit :=
  match find (fun k => negb (existsb (String.eqb k) params)) keywords with
  | Some k =>
      Raise (TypeError (fname ++ "() got an unexpected keyword argument '" ++ k ++ "'"))
  | None => Ok tt
  end.

Fixpoint map_result {A B : Type} (f : A -> result B) (l : list A) : result (list B) :=
  match l with
  | [] => Ok []
  | a :: rest =>
      (b <- f a ;; bs <- map_result f rest ;; Ok (b :: bs))%result
  end.

(** [l[i]] of a Python list or a NumPy axis. *)
Definition index {A : Type} (l : list A) (i : nat) : result A :=
  match nth_error l i with
  | Some a => Ok a
  | None => Raise (IndexError "index out of range")
  end.

(** The list [l] with [a] at position [i]. *)
Definition replace_at {A : Type} (i : nat) (a : A) (l : list A) : list A :=
  firstn i l ++ a :: skipn (S i) l.

(** ** [str.lower] *)

Module PyStr.

(** [str.lower] on one code point below 256: the ASCII capitals and the
    Latin-1 capitals (192..222 except the multiplication sign 215) move up
    by 32, every other code point is unchanged. *)
Definition lower_char (c : ascii) : ascii :=
  let n := nat_of_ascii c in
  if ((65 <=? n) && (n <=? 90))%nat then ascii_of_nat (n + 32)
  else if ((192 <=? n) && (n <=? 222) && negb (n =? 215))%nat
       then ascii_of_nat (n + 32)
  else c.

Fixpoint lower (s : string) : string :=
  match s with
  | EmptyString => EmptyString
  | String c s' => String (lower_char c) (lower s')
  end.

End PyStr.

(** ** [ChoiceModel.__init__]: the choice of the optimizer *)

Module Init.

Open Scope string_scope.

(** [tf.keras.optimizers.Adam(lr)], [SGD(lr)], [Adamax(lr)]. *)
Inductive optimizer : Type :=
| Adam (lr : R)
| SGD (lr : R)
| Adamax (lr : R).

(** Which method [self.fit] is bound to after the constructor. *)
Inductive fit_binding : Type :=
| FitGradient      (* the class's own [fit] *)
| FitLbfgs.        (* rebound to [self._fit_with_lbfgs] *)

(** The attributes that lines 66-78 set. [optimizer = None] stands for the
    attribute [self.optimizer] not being set at all (the L-BFGS branch). *)
Record init_state : Type := {
  optimizer_name : string;
  self_optimizer : option optimizer;
  self_fit : fit_binding;
  printed : list string
}.

Definition eqs (a b : string) : bool := String.eqb a b.

(** Lines 66-78 of [ChoiceModel.__init__]. The function is total: no branch
    raises. *)
Definition init_optimizer (optimizer : string) (lr : R) : init_state :=
  let low := PyStr.lower optimizer in
  if eqs low "adam" then
    {| optimizer_name := optimizer; self_optimizer := Some (Adam lr);
       self_fit := FitGradient; printed := [] |}
  else if eqs low "sgd" then
    {| optimizer_name := optimizer; self_optimizer := Some (SGD lr);
       self_fit := FitGradient; printed := [] |}
  else if eqs low "adamax" then
    {| optimizer_name := optimizer; self_optimizer := Some (Adamax lr);
       self_fit := FitGradient; printed := [] |}
  else if eqs low "lbfgs" || eqs low "l-bfgs" then
    {| optimizer_name := optimizer; self_optimizer := None;
       self_fit := FitLbfgs;
       printed := ["Using L-BFGS optimizer, setting up .fit() function"] |}
  else
    {| optimizer_name := optimizer; self_optimizer := Some (Adam lr);
       self_fit := FitGradient;
       printed := ["Optimizer " ++ optimizer
                     ++ " not implemnted, switching for default Adam"] |}.

(** The names that the constructor recognises. *)
Definition recognized (optimizer : string) : bool :=
  let low := PyStr.lower optimizer in
  eqs low "adam" || eqs low "sgd" || eqs low "adamax"
  || eqs low "lbfgs" || eqs low "l-bfgs".

End Init.

(** ** Tensors and the TensorFlow operations used by the L-BFGS adapter *)

Module Tf.

Section Ops.
Variable A : Type.

(** A tensor: its shape and its entries in row-major order. *)
Record tensor : Type := { shape : list nat; data : list A }.

(** [np.product(shape)]. *)
Definition numel (sh : list nat) : nat := fold_right Nat.mul 1 sh.

(** The invariant of a tensor value. *)
Definition well_shaped (t : tensor) : Prop := length (data t) = numel (shape t).

Definition shape_eqb (s1 s2 : list nat) : bool :=
  if list_eq_dec Nat.eq_dec s1 s2 then true else false.

(** [tf.reshape(xs, sh)] of a flat list: the number of entries must agree. *)
Definition reshape (xs : list A) (sh : list nat) : result tensor :=
  if length xs =? numel sh then Ok {| shape := sh; data := xs |}
  else Raise (ValueError "reshape: number of elements differs").

(** [tf.shape_n]. *)
Definition shape_n (ws : list tensor) : list (list nat) := map shape ws.

(** [tf.dynamic_partition(xs, part, n)]: output [i] collects, in order, the
    entries [xs[j]] with [part[j] = i]. [xs] and [part] must have one shape. *)
Definition dynamic_partition (xs : list A) (part : list nat) (n : nat)
  : result (list (list A)) :=
  if length xs =? length part then
    Ok (map (fun i => map fst (filter (fun p => snd p =? i) (combine xs part)))
            (seq 0 n))
  else Raise (ValueError "dynamic_partition: data and partitions differ in shape").

End Ops.

Arguments numel sh : clear implicits.
Arguments shape_eqb s1 s2 : clear implicits.

Section Stitch.
Variable A : Type.

(** The writes [merged[indices[m][i]] = data[m][i]] in the order in which
    [tf.dynamic_stitch] performs them. *)
Definition stitch_writes (indices : list (tensor nat)) (ts : list (tensor A))
  : list (nat * A) :=
  concat (map (fun p => combine (data (fst p)) (data (snd p))) (combine indices ts)).

(** [max(indices) + 1]. *)
Definition stitch_size (ws : list (nat * A)) : nat :=
  fold_right (fun p m => Nat.max (S (fst p)) m) 0 ws.

(** The last write at position [k], if any. *)
Fixpoint last_write (k : nat) (ws : list (nat * A)) : option A :=
  match ws with
  | [] => None
  | (i, a) :: rest =>
      match last_write k rest with
      | Some b => Some b
      | None => if i =? k then Some a else None
      end
  end.

(** [tf.dynamic_stitch(indices, ts)]: a flat tensor of [max(indices) + 1]
    entries; the entry at a position that no index names is [d]. *)
Definition dynamic_stitch (d : A) (indices : list (tensor nat)) (ts : list (tensor A))
  : list A :=
  let ws := stitch_writes indices ts in
  map (fun k => match last_write k ws with Some a => a | None => d end)
      (seq 0 (stitch_size ws)).

(** The loop of [_lbfgs_train_step] (lines 588-596) that prepares the stitch
    indices [idx] and the partition indices [part]; [i] is the position of
    the tensor and [count] the number of entries before it. *)
Fixpoint stitch_partition_indices (i count : nat) (shapes : list (list nat))
  : list (tensor nat) * list nat :=
  match shapes with
  | [] => ([], [])
  | sh :: rest =>
      let n := numel sh in
      let (idx, part) := stitch_partition_indices (S i) (count + n) rest in
      ({| shape := sh; data := seq count n |} :: idx, repeat i n ++ part)
  end.

(** [self.weights[i].assign(v)]: the variable must exist and have the shape
    of the value. *)
Definition assign_at (i : nat) (v : tensor A) (ws : list (tensor A))
  : result (list (tensor A)) :=
  match nth_error ws i with
  | None => Raise (IndexError "list index out of range")
  | Some old =>
      if shape_eqb (shape old) (shape v)
      then Ok (firstn i ws ++ v :: skipn (S i) ws)
      else Raise (ValueError "assign: shapes are incompatible")
  end.

(** The [for] loop of [assign_new_model_parameters] (lines 610-611) over
    [enumerate(zip(shapes, params))], from position [i]. *)
Fixpoint assign_all (i : nat) (sps : list (list nat * list A)) (ws : list (tensor A))
  : result (list (tensor A)) :=
  match sps with
  | [] => Ok ws
  | (sh, param) :: rest =>
      (v <- reshape param sh ;;
       ws' <- assign_at i v ws ;;
       assign_all (S i) rest ws')%result
  end.

(** What [_lbfgs_train_step] computes once from [self.weights] and what its
    closures capture. *)
Record adapter : Type := {
  shapes : list (list nat);
  n_tensors : nat;
  idx : list (tensor nat);
  part : list nat
}.

Definition make_adapter (weights : list (tensor A)) : adapter :=
  let shs := shape_n weights in
  let ip := stitch_partition_indices 0 0 shs in
  {| shapes := shs; n_tensors := length shs; idx := fst ip; part := snd ip |}.

(** [assign_new_model_parameters(params_1d)] (lines 600-611) on the weights
    [ws] of the model. *)
Definition assign_new_model_parameters (ad : adapter) (params_1d : list A)
    (ws : list (tensor A)) : result (list (tensor A)) :=
  (params <- dynamic_partition params_1d (part ad) (n_tensors ad) ;;
   assign_all 0 (combine (shapes ad) params) ws)%result.

(** *** Vocabulary for the statements about the adapter *)

(** The entries of all tensors, in the flatten order. *)
Definition flat (ts : list (tensor A)) : list A := concat (map (@data A) ts).

(** The partition indices for tensors of the sizes [ns], from tensor [i]. *)
Fixpoint parts (i : nat) (ns : list nat) : list nat :=
  match ns with
  | [] => []
  | n :: rest => repeat i n ++ parts (S i) rest
  end.

(** A flat list cut into pieces of the sizes [ns]. *)
Fixpoint split_chunks (ns : list nat) (v : list A) : list (list A) :=
  match ns with
  | [] => []
  | n :: rest => firstn n v :: split_chunks rest (skipn n v)
  end.

Definition total (ns : list nat) : nat := fold_right Nat.add 0 ns.

Definition sizes (ts : list (tensor A)) : list nat :=
  map numel (shape_n ts).

Definition mk_tensor (sp : list nat * list A) : tensor A :=
  {| shape := fst sp; data := snd sp |}.

(** The tensors of the shapes [shs] whose entries are, in the flatten order,
    those of [v]. *)
Definition unflatten (shs : list (list nat)) (v : list A) : list (tensor A) :=
  map mk_tensor (combine shs (split_chunks (map numel shs) v)).

End Stitch.

End Tf.

(** ** [ChoiceModel]: prediction, evaluation and the training loop *)

Module CM.

Open Scope R_scope.

Definition matrix : Type := list (list R).

(** [tf.reduce_sum] and [tf.reduce_mean] of a list of scalars. The mean of no
    value is the term [0 / 0] (TensorFlow returns NaN there). *)
Definition reduce_sum (xs : list R) : R := fold_right Rplus 0 xs.
Definition reduce_mean (xs : list R) : R := reduce_sum xs / INR (length xs).

(** [tf.ones(n)]. *)
Definition ones (n : nat) : list R := repeat 1 n.

(** [tf.multiply] of two vectors of one length. *)
Fixpoint multiply (xs ys : list R) : list R :=
  match xs, ys with
  | x :: xs', y :: ys' => x * y :: multiply xs' ys'
  | _, _ => []
  end.

(** [probabilities.shape[1]]. *)
Definition n_cols (m : matrix) : nat :=
  match m with [] => 0%nat | row :: _ => length row end.

(** [tf.one_hot(choices, depth)]. *)
Definition one_hot (choices : list nat) (depth : nat) : matrix :=
  map (fun c => map (fun j => if (j =? c)%nat then 1 else 0) (seq 0 depth)) choices.

(** The metrics handed to a callback: [{k: tf.reduce_mean(v)}]. *)
Definition logs : Type := list (string * R).

Inductive hook : Type :=
| on_train_begin
| on_epoch_begin (epoch : nat)
| on_train_batch_begin (batch_nb : nat)
| on_train_batch_end (batch_nb : nat) (l : logs)
| on_batch_begin (batch_nb : nat)
| on_test_batch_begin (batch_nb : nat)
| on_test_batch_end (batch_nb : nat) (l : logs)
| on_epoch_end (epoch : nat) (l : logs)
| on_train_end (l : logs).

(** [losses_history]: the key "test_loss" exists once a validation pass has
    run; before that its list is empty. *)
Record history : Type := { train_loss : list R; test_loss : list R }.

(** The two losses that [batch_predict] returns. *)
Record batch_loss : Type := { optimized_loss : R; NegativeLogLikelihood : R }.

(** The result tuple of [tfp.optimizer.lbfgs_minimize], as far as the code
    reads it. *)
Record lbfgs_results : Type := {
  converged : bool;
  num_iterations : nat;
  position : list R
}.

(** The quasi-Newton minimiser as a strategy: it either stops with its
    results or asks for the value and the gradient at a point and goes on
    from the answer. It reaches the model only through these questions. *)
Inductive minimizer : Type :=
| Done (r : lbfgs_results)
| Query (x : list R) (k : R * list R -> minimizer).

(** A minimiser that asks and reports only points of [n] coordinates. *)
Fixpoint sized (n : nat) (mz : minimizer) : Prop :=
  match mz with
  | Done r => length (position r) = n
  | Query x k => length x = n /\ forall answer, sized n (k answer)
  end.

Section Data.

(** The shared and items features of one choice. *)
Variable X : Type.
(** The slot variables of the optimizer. *)
Variable Slots : Type.
(** The state of the callbacks. *)
Variable C : Type.

(** One choice of the dataset. A batch is the list of its choices, so that
    [available_items_batch.shape[0]] is its length. *)
Record instance : Type := { feats : X; avail : list R; choice : nat }.
Definition batch : Type := list instance.
Definition dataset : Type := list instance.

(** The attributes of [self]. [optimizer = None] and [instantiated = None]
    stand for an attribute that is not set. *)
Record model : Type := {
  weights : list (Tf.tensor R);
  optimizer : option Init.optimizer;
  opt_state : Slots;
  normalize_non_buy : bool;
  label_smoothing : R;
  stop_training : bool;
  epochs : nat;
  batch_size : Z;
  tolerance : R;
  instantiated : option bool
}.

(** The model with new parameter tensors and optimizer slots. *)
Definition set_params (m : model) (ws : list (Tf.tensor R)) (o : Slots) : model :=
  {| weights := ws; optimizer := optimizer m; opt_state := o;
     normalize_non_buy := normalize_non_buy m;
     label_smoothing := label_smoothing m;
     stop_training := stop_training m; epochs := epochs m;
     batch_size := batch_size m; tolerance := tolerance m;
     instantiated := instantiated m |}.

(** What the callbacks can see and change: the model they were given with
    [set_model], their own state, the random generator behind the shuffle,
    and the lines printed so far. *)
Record world : Type := {
  self : model;
  cbs : C;
  rng : nat;
  out : list string
}.

Definition with_self (w : world) (m : model) : world :=
  {| self := m; cbs := cbs w; rng := rng w; out := out w |}.
Definition next_rng (w : world) : world :=
  {| self := self w; cbs := cbs w; rng := S (rng w); out := out w |}.
Definition print (w : world) (line : string) : world :=
  {| self := self w; cbs := cbs w; rng := rng w; out := out w ++ [line] |}.

End Data.

Arguments feats {X} i.
Arguments avail {X} i.
Arguments choice {X} i.
Arguments weights {Slots} m.
Arguments optimizer {Slots} m.
Arguments opt_state {Slots} m.
Arguments normalize_non_buy {Slots} m.
Arguments label_smoothing {Slots} m.
Arguments stop_training {Slots} m.
Arguments epochs {Slots} m.
Arguments batch_size {Slots} m.
Arguments tolerance {Slots} m.
Arguments instantiated {Slots} m.
Arguments self {Slots C} w.
Arguments cbs {Slots C} w.
Arguments rng {Slots C} w.
Arguments out {Slots C} w.

(** *** Collaborators *)

(** What [base_model.py] takes from outside: the abstract method of the
    class, the operations of [tf_ops], TensorFlow and TensorFlow Probability,
    the dataset and the callbacks. *)
Class Substrate (X Slots C : Type) : Type := {
  (** The abstract method of the class: the utilities of a batch, a function
      of the parameter tensors and of the batch. *)
  compute_batch_utility : list (Tf.tensor R) -> batch X -> matrix;
  (** [tf_ops.softmax_with_availabilities(utilities, availabilities,
      normalize_exit)]. *)
  softmax_with_availabilities : matrix -> matrix -> bool -> matrix;
  (** [tf_ops.CustomCategoricalCrossEntropy(label_smoothing=s)(y_pred,
      y_true, sample_weight)]. *)
  custom_cce : R -> matrix -> matrix -> option (list R) -> R;
  (** [tf.keras.losses.CategoricalCrossentropy()(y_pred, y_true,
      sample_weight)]. *)
  keras_cce : matrix -> matrix -> option (list R) -> R;
  (** [tape.gradient(loss, self.weights)]: the gradient of a loss, given as
      a function of the parameter tensors, at the present tensors. *)
  gradient :
    (list (Tf.tensor R) -> R) -> list (Tf.tensor R) -> list (Tf.tensor R);
  (** [optimizer.apply_gradients(zip(grads, weights))]: the new slots and
      the new parameter tensors. *)
  apply_gradients :
    Init.optimizer -> Slots -> list (Tf.tensor R * Tf.tensor R)
    -> Slots * list (Tf.tensor R);
  (** [choice_dataset.iter_batch(shuffle, batch_size)] and, with sample
      weights, [iter_batch(shuffle, sample_weight, batch_size)]; the last
      argument is the state of the random generator. *)
  iter_batch : dataset X -> bool -> Z -> nat -> list (batch X);
  iter_batch_weighted :
    dataset X -> bool -> list R -> Z -> nat -> list (batch X * list R);
  (** The callback list: each hook may change the world. *)
  callbacks : hook -> world Slots C -> world Slots C;
  (** [tfp.optimizer.lbfgs_minimize(initial_position, max_iterations,
      tolerance)]. *)
  lbfgs_minimize : list R -> nat -> R -> minimizer
}.

Section Engine.

Context {X Slots C : Type} {env : Substrate X Slots C}.

Local Abbreviation batch := (batch X).
Local Abbreviation dataset := (dataset X).
Local Abbreviation model := (model Slots).
Local Abbreviation world := (world Slots C).

(** *** Forward pass *)

(** Utilities, probabilities and the optimised loss of a batch, for given
    parameter tensors (lines 157-175 and 408-429). *)
Definition probabilities_of (m : model) (ws : list (Tf.tensor R)) (b : batch)
  : matrix :=
  let utilities := compute_batch_utility ws b in
  softmax_with_availabilities utilities (map avail b) (normalize_non_buy m).

Definition neg_loglikelihood_of (m : model) (ws : list (Tf.tensor R)) (b : batch)
    (sample_weight : option (list R)) : R :=
  let probabilities := probabilities_of m ws b in
  custom_cce (label_smoothing m) probabilities
    (one_hot (map choice b) (n_cols probabilities)) sample_weight.

(** [train_step] (lines 156-179): the loss of the batch, and the model after
    one optimizer step. *)
Definition train_step (b : batch) (sample_weight : option (list R)) (m : model)
  : result R * model :=
  let neg_loglikelihood := neg_loglikelihood_of m (weights m) b sample_weight in
  let grads :=
    gradient (fun ws => neg_loglikelihood_of m ws b sample_weight) (weights m) in
  match optimizer m with
  | None =>
      (Raise (AttributeError "object has no attribute 'optimizer'"), m)
  | Some opt =>
      let (o', ws') := apply_gradients opt (opt_state m) (combine grads (weights m)) in
      (Ok neg_loglikelihood, set_params m ws' o')
  end.

(** [batch_predict] (lines 407-436). It is a method of [self], so it returns
    the model as it leaves it. *)
Definition batch_predict (b : batch) (sample_weight : option (list R)) (m : model)
  : (batch_loss * matrix) * model :=
  let probabilities := probabilities_of m (weights m) b in
  let y_true := one_hot (map choice b) (n_cols probabilities) in
  (({| optimized_loss :=
         custom_cce (label_smoothing m) probabilities y_true sample_weight;
       NegativeLogLikelihood := keras_cce probabilities y_true sample_weight |},
    probabilities), m).

(** Lines 307-315 and 555-563: the loss of a pass from the losses of its
    batches; [last_batch] is the loop variable [available_items_batch], which
    is unbound before the first batch. *)
Definition pass_loss (batch_size : Z) (losses : list R) (last_batch : option batch)
    (n_data : nat) : result R :=
  if negb (batch_size =? -1)%Z then
    match last_batch with
    | None => Raise (NameError "local variable referenced before assignment")
    | Some lb =>
        let last_batch_size := length lb in
        match losses with
        | [] => Raise (ValueError "tf.ones: dimension -1 must be >= 0")
        | _ :: _ =>
            let coefficients :=
              map (fun o => o * IZR batch_size) (ones (length losses - 1))
                ++ [INR last_batch_size] in
            Ok (reduce_sum (multiply losses coefficients) / INR n_data)
        end
    end
  else Ok (reduce_mean losses).

(** *** Inference over a dataset *)

(** The [for] loop of [predict_probas] (lines 505-517). *)
Fixpoint predict_batches (bs : list batch) (stacked : list matrix) (m : model)
  : list matrix * model :=
  match bs with
  | [] => (stacked, m)
  | b :: rest =>
      let '((_, probabilities), m1) := batch_predict b None m in
      predict_batches rest (stacked ++ [probabilities]) m1
  end.

(** [predict_probas] (lines 504-519); [iter_batch] is called with its default
    [shuffle], taken to be off. [tf.concat] of no tensor raises. *)
Definition predict_probas (ds : dataset) (batch_size : Z) (w : world)
  : result matrix * world :=
  let (stacked, m') :=
    predict_batches (iter_batch ds false batch_size (rng w)) [] (self w) in
  match stacked with
  | [] => (Raise (ValueError "tf.concat: list of tensors is empty"), with_self w m')
  | _ :: _ => (Ok (concat stacked), with_self w m')
  end.

(** The [for] loop of [evaluate] (lines 538-554); [last] is the loop variable
    [available_items_by_choice]. *)
Fixpoint evaluate_batches (bs : list batch) (sample_weight : option (list R))
    (mode : string) (batch_losses : list R) (last : option batch) (m : model)
  : (list R * option batch) * model :=
  match bs with
  | [] => ((batch_losses, last), m)
  | b :: rest =>
      let '((loss, _), m1) := batch_predict b sample_weight m in
      let batch_losses' :=
        if Init.eqs mode "eval" then batch_losses ++ [NegativeLogLikelihood loss]
        else if Init.eqs mode "optim" then batch_losses ++ [optimized_loss loss]
        else batch_losses in
      evaluate_batches rest sample_weight mode batch_losses' (Some b) m1
  end.

(** [evaluate] (lines 537-564). *)
Definition evaluate (ds : dataset) (sample_weight : option (list R))
    (batch_size : Z) (mode : string) (w : world) : result R * world :=
  let '((batch_losses, last), m') :=
    evaluate_batches (iter_batch ds false batch_size (rng w)) sample_weight mode
                     [] None (self w) in
  (pass_loss batch_size batch_losses last (length ds), with_self w m').

(** *** The training loop *)

(** What [fit] does, in order: every callback, every call of [iter_batch] for
    the training batches of an epoch (with the number of batches that it
    yields), every training step (with the size of its batch and its loss),
    every validation prediction and every reading of [self.stop_training]. *)
Inductive event : Type :=
| EvHook (h : hook)
| EvIterBatch (epoch n_batches : nat)
| EvTrainStep (epoch batch_nb size : nat) (loss : R)
| EvBatchPredict (epoch batch_nb : nat)
| EvReadStop (epoch : nat) (flag : bool).

(** The state that the loops of [fit] thread: the world, the events so far
    and the loop variable [available_items_batch]. *)
Record fstate : Type := {
  fw : world;
  ftrace : list event;
  fvar : option batch
}.

(** The training batches of one epoch (lines 248-272 and 285-303), from batch
    number [batch_nb]; [train_logs] is [train_logs["train_loss"]], to which
    [epoch_losses] is equal throughout. *)
Fixpoint train_batches (epoch batch_nb : nat) (bs : list (batch * option (list R)))
    (train_logs : list R) (st : fstate) : result (list R) * fstate :=
  match bs with
  | [] => (Ok train_logs, st)
  | (b, weight_batch) :: rest =>
      let w1 := callbacks (on_train_batch_begin batch_nb) (fw st) in
      match train_step b weight_batch (self w1) with
      | (Raise e, m') =>
          (Raise e,
           {| fw := with_self w1 m';
              ftrace := ftrace st ++ [EvHook (on_train_batch_begin batch_nb)];
              fvar := Some b |})
      | (Ok neg_loglikelihood, m') =>
          let train_logs' := train_logs ++ [neg_loglikelihood] in
          let temps_logs := [("train_loss"%string, reduce_mean train_logs')] in
          let w2 := callbacks (on_train_batch_end batch_nb temps_logs)
                              (with_self w1 m') in
          train_batches epoch (S batch_nb) rest train_logs'
            {| fw := w2;
               ftrace := ftrace st ++
                 [EvHook (on_train_batch_begin batch_nb);
                  EvTrainStep epoch batch_nb (length b) neg_loglikelihood;
                  EvHook (on_train_batch_end batch_nb temps_logs)];
               fvar := Some b |}
      end
  end.

(** The validation batches of one epoch (lines 329-347); [test_losses] and
    [val_logs["val_loss"]] are equal throughout. *)
Fixpoint val_batches (epoch batch_nb : nat) (bs : list batch) (test_losses : list R)
    (st : fstate) : list R * fstate :=
  match bs with
  | [] => (test_losses, st)
  | b :: rest =>
      let w1 := callbacks (on_batch_begin batch_nb) (fw st) in
      let w2 := callbacks (on_test_batch_begin batch_nb) w1 in
      let '((loss, _), m') := batch_predict b None (self w2) in
      let test_losses' := test_losses ++ [optimized_loss loss] in
      let temps_logs := [("val_loss"%string, reduce_mean test_losses')] in
      let w3 := callbacks (on_test_batch_end batch_nb temps_logs) (with_self w2 m') in
      val_batches epoch (S batch_nb) rest test_losses'
        {| fw := w3;
           ftrace := ftrace st ++
             [EvHook (on_batch_begin batch_nb);
              EvHook (on_test_batch_begin batch_nb);
              EvBatchPredict epoch batch_nb;
              EvHook (on_test_batch_end batch_nb temps_logs)];
           fvar := Some b |}
  end.

(** [inner_range] (lines 233-246 and 276-284): the shuffled training batches
    of an epoch, each with its batch of sample weights if there are sample
    weights. *)
Definition inner_range (ds : dataset) (sample_weight : option (list R))
    (batch_size : Z) (g : nat) : list (batch * option (list R)) :=
  match sample_weight with
  | Some sw =>
      map (fun bw => (fst bw, Some (snd bw)))
          (iter_batch_weighted ds true sw batch_size g)
  | None =>
      map (fun b => (b, None)) (iter_batch ds true batch_size g)
  end.

(** One turn of the epoch loop, lines 227-359: up to and including
    [on_epoch_end]. It returns the history and the logs of the epoch. *)
Definition run_epoch (ds : dataset) (sample_weight : option (list R))
    (val_dataset : option dataset) (batch_size : Z) (epoch : nat)
    (losses_history : history) (st : fstate) : result (history * logs) * fstate :=
  let w1 := callbacks (on_epoch_begin epoch) (fw st) in
  let inner_range := inner_range ds sample_weight batch_size (rng w1) in
  let st1 := {| fw := next_rng w1;
                ftrace := ftrace st ++ [EvHook (on_epoch_begin epoch);
                                        EvIterBatch epoch (length inner_range)];
                fvar := fvar st |} in
  match train_batches epoch 0 inner_range [] st1 with
  | (Raise e, st2) => (Raise e, st2)
  | (Ok epoch_losses, st2) =>
      match pass_loss batch_size epoch_losses (fvar st2) (length ds) with
      | Raise e => (Raise e, st2)
      | Ok epoch_loss =>
          let hist1 := {| train_loss := train_loss losses_history ++ [epoch_loss];
                          test_loss := test_loss losses_history |} in
          let train_logs := [("train_loss"%string, reduce_mean epoch_losses)] in
          let '(hist2, temps_logs, st3) :=
            match val_dataset with
            | None => (hist1, train_logs, st2)
            | Some vds =>
                let (test_losses, st3) :=
                  val_batches epoch 0 (iter_batch vds false batch_size (rng (fw st2)))
                              [] st2 in
                ({| train_loss := train_loss hist1;
                    test_loss := test_loss hist1 ++ [reduce_mean test_losses] |},
                 train_logs ++ [("val_loss"%string, reduce_mean test_losses)],
                 st3)
            end in
          let w4 := callbacks (on_epoch_end epoch temps_logs) (fw st3) in
          (Ok (hist2, temps_logs),
           {| fw := w4;
              ftrace := ftrace st3 ++ [EvHook (on_epoch_end epoch temps_logs)];
              fvar := fvar st3 |})
      end
  end.

(** The epoch loop (lines 226-365) with [n] epochs left, [epoch] the number
    of the next one. [last_logs] is [train_logs] of the last epoch that ran,
    [None] while the variable is unbound. *)
Fixpoint epoch_loop (n epoch : nat) (ds : dataset) (sample_weight : option (list R))
    (val_dataset : option dataset) (batch_size : Z) (losses_history : history)
    (last_logs : option logs) (st : fstate)
  : result (history * option logs) * fstate :=
  match n with
  | 0%nat => (Ok (losses_history, last_logs), st)
  | S n' =>
      match run_epoch ds sample_weight val_dataset batch_size epoch losses_history st with
      | (Raise e, st1) => (Raise e, st1)
      | (Ok (hist1, temps_logs), st1) =>
          let flag := stop_training (self (fw st1)) in
          let st2 := {| fw := fw st1;
                        ftrace := ftrace st1 ++ [EvReadStop epoch flag];
                        fvar := fvar st1 |} in
          if flag then
            (Ok (hist1, Some temps_logs),
             {| fw := print (fw st2) "Early Stopping taking effect";
                ftrace := ftrace st2; fvar := fvar st2 |})
          else
            epoch_loop n' (S epoch) ds sample_weight val_dataset batch_size hist1
                       (Some temps_logs) st2
      end
  end.

(** [fit] (lines 212-369). The argument [verbose] only drives the progress
    bars and some extra printing, and is left out. *)
Definition fit (ds : dataset) (sample_weight : option (list R))
    (val_dataset : option dataset) (epochs_arg : option nat)
    (batch_size_arg : option Z) (w : world)
  : result history * world * list event :=
  match instantiated (self w) with
  | Some false =>
      (Raise (ValueError "Model not instantiated. Please call .instantiate() first."),
       w, [])
  | _ =>
      let epochs := match epochs_arg with Some e => e | None => epochs (self w) end in
      let batch_size :=
        match batch_size_arg with Some b => b | None => batch_size (self w) end in
      let st0 := {| fw := callbacks on_train_begin w;
                    ftrace := [EvHook on_train_begin];
                    fvar := None |} in
      match epoch_loop epochs 0 ds sample_weight val_dataset batch_size
                       {| train_loss := []; test_loss := [] |} None st0 with
      | (Raise e, st1) => (Raise e, fw st1, ftrace st1)
      | (Ok (hist, None), st1) =>
          (Raise (NameError "local variable 'train_logs' referenced before assignment"),
           fw st1, ftrace st1)
      | (Ok (hist, Some temps_logs), st1) =>
          (Ok hist, callbacks (on_train_end temps_logs) (fw st1),
           ftrace st1 ++ [EvHook (on_train_end temps_logs)])
      end
  end.

(** *** The L-BFGS adapter *)

(** The attributes [f.iter] and [f.history] of the closure [f]. *)
Record closure : Type := { f_iter : nat; f_history : list R }.

(** The full-dataset loss as a function of the parameter tensors: what the
    gradient tape differentiates in [f]. *)
Definition optim_loss_at (ds : dataset) (sample_weight : option (list R))
    (w : world) (ws : list (Tf.tensor R)) : result R :=
  fst (evaluate ds sample_weight (-1) "optim"
                (with_self w (set_params (self w) ws (opt_state (self w))))).

(** The closure [f(params_1d)] of [_lbfgs_train_step] (lines 633-651). *)
Definition lbfgs_f (ad : Tf.adapter) (ds : dataset) (sample_weight : option (list R))
    (params_1d : list R) (st : world * closure)
  : result (R * list R) * (world * closure) :=
  let (w, cl) := st in
  match Tf.assign_new_model_parameters ad params_1d (weights (self w)) with
  | Raise e => (Raise e, st)
  | Ok ws' =>
      let w1 := with_self w (set_params (self w) ws' (opt_state (self w))) in
      match evaluate ds sample_weight (-1) "optim" w1 with
      | (Raise e, w2) => (Raise e, (w2, cl))
      | (Ok loss_value, w2) =>
          let grads :=
            gradient (fun ws => match optim_loss_at ds sample_weight w1 ws with
                                | Ok l => l
                                | Raise _ => 0
                                end)
                     (weights (self w2)) in
          let grads := Tf.dynamic_stitch 0 (Tf.idx ad) grads in
          (Ok (loss_value, grads),
           (w2, {| f_iter := S (f_iter cl);
                   f_history := f_history cl ++ [loss_value] |}))
      end
  end.

(** The minimiser at work: each of its questions is a call of [f]. *)
Fixpoint run_minimizer (ad : Tf.adapter) (ds : dataset)
    (sample_weight : option (list R)) (mz : minimizer) (st : world * closure)
  : result lbfgs_results * (world * closure) :=
  match mz with
  | Done r => (Ok r, st)
  | Query x k =>
      match lbfgs_f ad ds sample_weight x st with
      | (Raise e, st') => (Raise e, st')
      | (Ok answer, st') => run_minimizer ad ds sample_weight (k answer) st'
      end
  end.

(** [_fit_with_lbfgs] (lines 687-712). It returns [func.history]; the
    results of the minimiser are returned besides, for the statements. The
    printing under [verbose] is left out. *)
Definition fit_with_lbfgs (ds : dataset) (epochs_arg : option nat)
    (sample_weight : option (list R)) (w : world)
  : result (list R * lbfgs_results) * world :=
  let epochs := match epochs_arg with Some e => e | None => epochs (self w) end in
  let func := Tf.make_adapter (weights (self w)) in
  let init_params := Tf.dynamic_stitch 0 (Tf.idx func) (weights (self w)) in
  match run_minimizer func ds sample_weight
          (lbfgs_minimize init_params epochs (tolerance (self w)))
          (w, {| f_iter := 0; f_history := [] |}) with
  | (Raise e, (w1, _)) => (Raise e, w1)
  | (Ok results, (w1, cl)) =>
      match Tf.assign_new_model_parameters func (position results)
                                            (weights (self w1)) with
      | Raise e => (Raise e, w1)
      | Ok ws' =>
          (Ok (f_history cl, results),
           with_self w1 (set_params (self w1) ws' (opt_state (self w1))))
      end
  end.

End Engine.

(** *** Vocabulary for the statements about [fit] *)

(** The training steps of epoch [e] in a trace: the size of the batch and the
    loss of each, in order. *)
Fixpoint steps_of (e : nat) (tr : list event) : list (nat * R) :=
  match tr with
  | [] => []
  | EvTrainStep e' _ size loss :: rest =>
      if (e' =? e)%nat then (size, loss) :: steps_of e rest else steps_of e rest
  | _ :: rest => steps_of e rest
  end.

(** The readings of [self.stop_training] in a trace. *)
Fixpoint stop_reads (tr : list event) : list (nat * bool) :=
  match tr with
  | [] => []
  | EvReadStop e flag :: rest => (e, flag) :: stop_reads rest
  | _ :: rest => stop_reads rest
  end.

(** The events of a whole epoch [e], short of the reading of the stop flag:
    [on_epoch_begin], the batch iterator with its [n] batches, a middle part
    with one training step for each of the [n] batches and without any reading
    of the stop flag, and [on_epoch_end] last. *)
Definition complete_epoch (e : nat) (body : list event) : Prop :=
  exists n mid l,
    body = EvHook (on_epoch_begin e) :: EvIterBatch e n :: mid
             ++ [EvHook (on_epoch_end e l)]
    /\ length (steps_of e mid) = n
    /\ stop_reads mid = [].

(** The events of consecutive epochs from epoch [e] on: the events of each
    epoch followed by the one reading of the stop flag. *)
Fixpoint epochs_trace (e : nat) (bodies : list (list event)) (flags : list bool)
  : list event :=
  match bodies, flags with
  | body :: bodies', flag :: flags' =>
      body ++ EvReadStop e flag :: epochs_trace (S e) bodies' flags'
  | _, _ => []
  end.

(** The loss of an epoch in the words of the specification, from the steps
    (batch size, batch loss) of the epoch: with the whole dataset as one
    batch ([batch_size = -1]) the plain mean of the batch losses; otherwise
    the sum of the batch losses, each but the last weighted by the requested
    [batch_size] and the last weighted by its true size, divided by the
    length of the dataset. *)
Definition claimed_epoch_loss (batch_size : Z) (steps : list (nat * R))
    (n_data : nat) : R :=
  if (batch_size =? -1)%Z then
    reduce_sum (map snd steps) / INR (length steps)
  else
    (reduce_sum (map (fun s => IZR batch_size * snd s) (removelast steps))
     + INR (fst (last steps (0%nat, 0))) * snd (last steps (0%nat, 0)))
    / INR n_data.

(** The claimed losses of the consecutive epochs from epoch [e] on. *)
Fixpoint claimed_losses (batch_size : Z) (n_data : nat) (e : nat)
    (bodies : list (list event)) : list R :=
  match bodies with
  | [] => []
  | body :: rest =>
      claimed_epoch_loss batch_size (steps_of e body) n_data
        :: claimed_losses batch_size n_data (S e) rest
  end.

(** The callbacks never unset the optimizer of the model. *)
Definition keeps_optimizer {X Slots C : Type} (env : Substrate X Slots C) : Prop :=
  forall (h : hook) (w : world Slots C),
    optimizer (self w) <> None -> optimizer (self (callbacks h w)) <> None.

(** The dataset yields at least one training batch per pass. *)
Definition yields_batches {X Slots C : Type} (env : Substrate X Slots C)
    (ds : dataset X) (sample_weight : option (list R)) (batch_size : Z) : Prop :=
  forall g : nat, inner_range ds sample_weight batch_size g <> [].

End CM.

(** ** Scalars with and without NaN *)

Module Num.

Open Scope R_scope.

(** The arithmetic that the latent-class code performs on array entries. *)
Class Scalar (F : Type) : Type := {
  of_R : R -> F;
  add : F -> F -> F;
  mul : F -> F -> F;
  div : F -> F -> F;
  exp : F -> F;
  log : F -> F;
  isnan : F -> bool
}.

(** Real arithmetic: no value is NaN. *)
#[global] Instance real_scalar : Scalar R := {|
  of_R := fun r => r;
  add := Rplus;
  mul := Rmult;
  div := Rdiv;
  exp := Rtrigo_def.exp;
  log := ln;
  isnan := fun _ => false
|}.

(** Floating-point values without rounding: a real number, an infinity or
    NaN, with the IEEE 754 rules for the special values (the sign of a zero is
    not kept: a division by zero takes its sign from the dividend). *)
Inductive xfloat : Type :=
| Fin (r : R)
| PInf
| NInf
| NaN.

Definition xneg (x : xfloat) : xfloat :=
  match x with
  | Fin r => Fin (- r)
  | PInf => NInf
  | NInf => PInf
  | NaN => NaN
  end.

(** The infinity of the sign of [r], NaN for [r = 0]. *)
Definition signed_inf (r : R) (pos : xfloat) : xfloat :=
  if Rlt_dec 0 r then pos else if Rlt_dec r 0 then xneg pos else NaN.

Definition xadd (x y : xfloat) : xfloat :=
  match x, y with
  | NaN, _ | _, NaN => NaN
  | Fin a, Fin b => Fin (a + b)
  | PInf, NInf | NInf, PInf => NaN
  | PInf, _ | _, PInf => PInf
  | NInf, _ | _, NInf => NInf
  end.

Definition xmul (x y : xfloat) : xfloat :=
  match x, y with
  | NaN, _ | _, NaN => NaN
  | Fin a, Fin b => Fin (a * b)
  | Fin a, PInf | PInf, Fin a => signed_inf a PInf
  | Fin a, NInf | NInf, Fin a => signed_inf a NInf
  | PInf, PInf | NInf, NInf => PInf
  | PInf, NInf | NInf, PInf => NInf
  end.

Definition xdiv (x y : xfloat) : xfloat :=
  match x, y with
  | NaN, _ | _, NaN => NaN
  | Fin a, Fin b => if Req_EM_T b 0 then signed_inf a PInf else Fin (a / b)
  | Fin _, PInf | Fin _, NInf => Fin 0
  | PInf, Fin b => if Rlt_dec b 0 then NInf else PInf
  | NInf, Fin b => if Rlt_dec b 0 then PInf else NInf
  | PInf, PInf | PInf, NInf | NInf, PInf | NInf, NInf => NaN
  end.

Definition xexp (x : xfloat) : xfloat :=
  match x with
  | Fin r => Fin (Rtrigo_def.exp r)
  | PInf => PInf
  | NInf => Fin 0
  | NaN => NaN
  end.

Definition xlog (x : xfloat) : xfloat :=
  match x with
  | Fin r => if Rlt_dec 0 r then Fin (ln r)
             else if Req_EM_T r 0 then NInf else NaN
  | PInf => PInf
  | NInf => NaN
  | NaN => NaN
  end.

Definition xisnan (x : xfloat) : bool :=
  match x with NaN => true | _ => false end.

#[global] Instance xfloat_scalar : Scalar xfloat := {|
  of_R := Fin;
  add := xadd;
  mul := xmul;
  div := xdiv;
  exp := xexp;
  log := xlog;
  isnan := xisnan
|}.

End Num.

(** ** The range of float32 *)

Module Float32.

Import Num.
Open Scope R_scope.

(** An exact result of at least this magnitude, (2 - 2^-24) * 2^127, is an
    infinity in float32: it lies half a unit in the last place or more above
    the largest finite value. *)
Definition overflow_threshold : R := (2 - / 2 ^ 24) * 2 ^ 127.

(** An exact result of at most this magnitude, 2^-150, is zero in float32:
    it is at most half the smallest positive value. *)
Definition underflow_threshold : R := / 2 ^ 150.

(** The float32 value of the exact result [r], as far as the range of
    float32 goes; the rounding of the mantissa is not modelled. *)
Definition to_range (r : R) : xfloat :=
  if Rle_dec overflow_threshold r then PInf
  else if Rle_dec r (- overflow_threshold) then NInf
  else if Rle_dec (Rabs r) underflow_threshold then Fin 0
  else Fin r.

Definition ranged (x : xfloat) : xfloat :=
  match x with
  | Fin r => to_range r
  | PInf | NInf | NaN => x
  end.

(** The arithmetic of [xfloat] on tensors of dtype float32, the default of
    [tf.constant(1.0)] and of the weights: every result that leaves the
    range of float32 becomes an infinity or zero. *)
Definition range_scalar : Scalar xfloat := {|
  of_R := to_range;
  add := fun x y => ranged (xadd x y);
  mul := fun x y => ranged (xmul x y);
  div := fun x y => ranged (xdiv x y);
  exp := fun x => ranged (xexp x);
  log := fun x => ranged (xlog x);
  isnan := xisnan
|}.

End Float32.

(** ** [BaseLatentClassModel] *)

Module LC.

Import Num.

Section Arrays.
Context {F : Type} {sc : Scalar F}.

Definition matrix : Type := list (list F).

(** [np.sum] of a vector. *)
Definition vsum (xs : list F) : F := fold_right add (of_R 0) xs.

(** Element-wise operation on two vectors of one length. *)
Fixpoint zip_with (f : F -> F -> F) (xs ys : list F) : list F :=
  match xs, ys with
  | x :: xs', y :: ys' => f x y :: zip_with f xs' ys'
  | _, _ => []
  end.

(** A matrix of shape (rows, classes) kept as the list of its columns, as
    [np.stack(columns, axis=1)] builds it: row [i] holds entry [i] of every
    column. *)
Definition row (i : nat) (columns : list (list F)) : list F :=
  map (fun col => nth i col (of_R 0)) columns.

(** [np.sum(columns, axis=1)]: one sum per row. *)
Definition row_sums (n_rows : nat) (columns : list (list F)) : list F :=
  map (fun i => vsum (row i columns)) (seq 0 n_rows).

(** [columns / sums] with [sums] of shape (rows, 1). *)
Definition divide_rows (columns : list (list F)) (sums : list F) : list (list F) :=
  map (fun col => zip_with div col sums) columns.

(** [tf.gather_nd(proba, stack([range(n), choices], axis=1))]: entry
    [proba[i, choices[i]]] for every row [i]. *)
Fixpoint gather_from (i : nat) (proba : matrix) (choices : list nat)
  : result (list F) :=
  match choices with
  | [] => Ok []
  | c :: rest =>
      match nth_error proba i with
      | None => Raise (IndexError "gather_nd: row index out of bounds")
      | Some r =>
          match nth_error r c with
          | None => Raise (IndexError "gather_nd: column index out of bounds")
          | Some x => (xs <- gather_from (S i) proba rest ;; Ok (x :: xs))%result
          end
      end
  end.

Definition gather_choices (proba : matrix) (n : nat) (choices : list nat)
  : result (list F) :=
  if (length choices =? n)%nat then gather_from 0 proba choices
  else Raise (ValueError "stack: shapes of range and choices differ").

(** The class-membership prior of [batch_predict] (lines 831-834): the
    constant 1 followed by the exponentials of the free logits, divided by
    their sum. *)
Definition prior_of (latent_logits : list F) : list F :=
  let latent_probabilities := of_R 1 :: map exp latent_logits in
  map (fun p => div p (vsum latent_probabilities)) latent_probabilities.

(** Element-wise sum of two tensors of rank 3 and of one shape. *)
Definition add3 (a b : list matrix) : list matrix :=
  map (fun p => map (fun q => zip_with add (fst q) (snd q)) (combine (fst p) (snd p)))
      (combine a b).

(** [tf.reduce_sum(ts, axis=0)] of a non-empty list of tensors of rank 3. *)
Definition reduce_sum3 (t : list matrix) (ts : list (list matrix)) : list matrix :=
  fold_left add3 ts t.

(** A tensor of rank 3 times a scalar. *)
Definition scale3 (t : list matrix) (x : F) : list matrix :=
  map (map (map (fun y => mul y x))) t.

(** [tf.one_hot(choices, depth)]. *)
Definition one_hot (choices : list nat) (depth : nat) : matrix :=
  map (fun c => map (fun j => if (j =? c)%nat then of_R 1 else of_R 0) (seq 0 depth))
      choices.

(** [np.sum(np.isnan(a)) > 0]. *)
Definition has_nan (xs : list F) : bool := existsb isnan xs.

End Arrays.

(** A batch as [batch_predict] receives it. *)
Record batch (X F : Type) : Type := {
  b_feats : X;
  b_avail : list (list F);
  b_choices : list nat
}.
Arguments b_feats {X F} b.
Arguments b_avail {X F} b.
Arguments b_choices {X F} b.

(** What the mixture takes from outside: the class of its sub-models
    ([model_class], with hyper-parameters [H] and instances [M]), the dataset
    [D], the operations of [tf_ops] and the random numbers. A method of a
    sub-model that changes the sub-model returns the changed sub-model. *)
Class Substrate (F X D H M : Type) : Type := {
  (** [model_class] called with the hyper-parameters of one class. *)
  construct : H -> M;
  (** [model.instantiate] with the keyword arguments of [instantiate]. *)
  m_instantiate : M -> M;
  (** [model.compute_batch_utility(...)]: shape (batch, items). *)
  m_compute_batch_utility : M -> batch X F -> list (list F);
  (** [model.predict_probas(dataset)]: shape (len(dataset), items). *)
  m_predict_probas : M -> D -> result (list (list F));
  (** [model.fit(dataset, sample_weight=w, verbose=verbose)]. *)
  m_fit : M -> D -> list F -> result M;
  (** [len(dataset)] and [dataset.choices]. *)
  ds_len : D -> nat;
  ds_choices : D -> list nat;
  (** [tf_ops.softmax_with_availabilities] on a tensor of rank 3 (classes,
      batch, items) with availabilities of rank 2. *)
  softmax_with_availabilities :
    list (list (list F)) -> list (list F) -> bool -> list (list (list F));
  (** [self.loss] (a [tf_ops.CustomCategoricalCrossEntropy] with
      [label_smoothing=0]) and [tf.keras.losses.CategoricalCrossentropy()] on
      predictions of rank 3 and a target of rank 2. *)
  custom_cce : list (list (list F)) -> list (list F) -> option (list F) -> result F;
  keras_cce : list (list (list F)) -> list (list F) -> option (list F) -> result F;
  (** The [i]-th value of [tf.random_normal_initializer(0.0, 0.02, seed=42)]. *)
  normal_sample : nat -> F;
  (** [np.random.rand(n)] in the generator state [g]. *)
  random_rand : nat -> nat -> list F
}.

Section Mixture.
Context {F X D H M : Type} {sc : Scalar F} {env : Substrate F X D H M}.

(** The attributes of [self]; an [option] is [None] while the attribute is
    not set. [rng] is the state of NumPy's random generator and [out] the
    lines printed so far. *)
Record lmodel : Type := {
  n_latent_classes : nat;
  model_parameters : list H;
  fit_method : string;
  epochs : nat;
  optimizer : option string;
  add_exit_choice : bool;
  instantiated : bool;
  latent_logits : option (list F);
  models : option (list M);
  weights : option (list (list F));
  minf : option F;
  normalize_non_buy : option bool;
  rng : nat;
  out : list string
}.

(** [__init__] (lines 753-774); [model_parameters] is the list of the
    hyper-parameters of the classes or one set for all classes. *)
Definition init (n : nat) (params : list H + H) (method : string) (n_epochs : nat)
    (opt : option string) (exit_choice : bool) : result lmodel :=
  let mk ps :=
    {| n_latent_classes := n; model_parameters := ps; fit_method := method;
       epochs := n_epochs; optimizer := opt; add_exit_choice := exit_choice;
       instantiated := false; latent_logits := None; models := None;
       weights := None; minf := None; normalize_non_buy := None;
       rng := 0; out := [] |} in
  match params with
  | inl ps =>
      if negb (length ps =? n)%nat
      then Raise (ValueError "the length of the list must be equal to the number of latent classes")
      else Ok (mk ps)
  | inr p => Ok (mk (repeat p n))
  end.

Definition set_latent_logits (s : lmodel) (v : list F) : lmodel :=
  {| n_latent_classes := n_latent_classes s; model_parameters := model_parameters s;
     fit_method := fit_method s; epochs := epochs s; optimizer := optimizer s;
     add_exit_choice := add_exit_choice s; instantiated := instantiated s;
     latent_logits := Some v; models := models s; weights := weights s;
     minf := minf s; normalize_non_buy := normalize_non_buy s;
     rng := rng s; out := out s |}.

Definition set_models (s : lmodel) (v : list M) : lmodel :=
  {| n_latent_classes := n_latent_classes s; model_parameters := model_parameters s;
     fit_method := fit_method s; epochs := epochs s; optimizer := optimizer s;
     add_exit_choice := add_exit_choice s; instantiated := instantiated s;
     latent_logits := latent_logits s; models := Some v; weights := weights s;
     minf := minf s; normalize_non_buy := normalize_non_buy s;
     rng := rng s; out := out s |}.

Definition set_weights (s : lmodel) (v : list (list F)) : lmodel :=
  {| n_latent_classes := n_latent_classes s; model_parameters := model_parameters s;
     fit_method := fit_method s; epochs := epochs s; optimizer := optimizer s;
     add_exit_choice := add_exit_choice s; instantiated := instantiated s;
     latent_logits := latent_logits s; models := models s; weights := Some v;
     minf := minf s; normalize_non_buy := normalize_non_buy s;
     rng := rng s; out := out s |}.

Definition set_minf (s : lmodel) (v : F) : lmodel :=
  {| n_latent_classes := n_latent_classes s; model_parameters := model_parameters s;
     fit_method := fit_method s; epochs := epochs s; optimizer := optimizer s;
     add_exit_choice := add_exit_choice s; instantiated := instantiated s;
     latent_logits := latent_logits s; models := models s; weights := weights s;
     minf := Some v; normalize_non_buy := normalize_non_buy s;
     rng := rng s; out := out s |}.

Definition set_rng_out (s : lmodel) (g : nat) (o : list string) : lmodel :=
  {| n_latent_classes := n_latent_classes s; model_parameters := model_parameters s;
     fit_method := fit_method s; epochs := epochs s; optimizer := optimizer s;
     add_exit_choice := add_exit_choice s; instantiated := instantiated s;
     latent_logits := latent_logits s; models := models s; weights := weights s;
     minf := minf s; normalize_non_buy := normalize_non_buy s;
     rng := g; out := o |}.

(** *** A method of [self]: it returns or raises, and leaves [self] changed *)

Definition method (A : Type) : Type := lmodel -> result A * lmodel.

Definition ret {A} (a : A) : method A := fun s => (Ok a, s).
Definition raise {A} (e : exn) : method A := fun s => (Raise e, s).
Definition lift {A} (r : result A) : method A := fun s => (r, s).
Definition mbind {A B} (m : method A) (k : A -> method B) : method B :=
  fun s => match m s with
           | (Ok a, s') => k a s'
           | (Raise e, s') => (Raise e, s')
           end.
(** Reading the attribute [name]. *)
Definition attr {A} (name : string) (proj : lmodel -> option A) : method A :=
  fun s => match proj s with
           | Some a => (Ok a, s)
           | None => (Raise (AttributeError name), s)
           end.
Definition update (f : lmodel -> lmodel) : method unit := fun s => (Ok tt, f s).
Definition print (line : string) : method unit :=
  update (fun s => set_rng_out s (rng s) (out s ++ [line])).

Declare Scope method_scope.
Delimit Scope method_scope with method.
Notation "x <- m ;; k" := (mbind m (fun x => k))
  (at level 61, m at next level, right associativity) : method_scope.
Notation "m ;;; k" := (mbind m (fun _ => k))
  (at level 61, right associativity) : method_scope.
Open Scope method_scope.

(** [instantiate] (lines 778-785). A shape of [-1] entries is refused. *)
Definition instantiate : method unit :=
  fun s =>
    match n_latent_classes s with
    | 0%nat => (Raise (ValueError "shape (-1,): dimension must be >= 0"), s)
    | S k =>
        let init_logit := map normal_sample (seq 0 k) in
        let s1 := set_latent_logits s init_logit in
        let ms := map construct (model_parameters s1) in
        (Ok tt, set_models s1 (map m_instantiate ms))
    end.

(** [compute_batch_utility] (lines 898-908). *)
Definition compute_batch_utility (b : batch X F) : method (list (list (list F))) :=
  ms <- attr "models" models ;;
  ret (map (fun m => m_compute_batch_utility m b) ms).

(** The [for] loop of [batch_predict] (lines 837-844) over
    [enumerate(utilities)], at position [i] with [rest] still to visit. The
    loop variable [class_utilities] is not used by the body: the softmax is
    given [utilities], the list of the utilities of all classes. *)
Fixpoint class_loop (i : nat) (rest utilities : list (list (list F)))
    (b : batch X F) (latent_probabilities : list F)
    (probabilities : list (list (list (list F))))
  : method (list (list (list (list F)))) :=
  match rest with
  | [] => ret probabilities
  | class_utilities :: rest' =>
      normalize_exit <- attr "normalize_non_buy" normalize_non_buy ;;
      let class_probabilities :=
        softmax_with_availabilities utilities (b_avail b) normalize_exit in
      p <- lift (index latent_probabilities i) ;;
      class_loop (S i) rest' utilities b latent_probabilities
                 (probabilities ++ [scale3 class_probabilities p])
  end.

(** [batch_predict] (lines 823-862): the two losses and the probabilities. *)
Definition batch_predict (b : batch X F) (sample_weight : option (list F))
  : method ((F * F) * list (list (list F))) :=
  utilities <- compute_batch_utility b ;;
  logits <- attr "latent_logits" latent_logits ;;
  let latent_probabilities := prior_of logits in
  probabilities <- class_loop 0 utilities utilities b latent_probabilities [] ;;
  match probabilities with
  | [] => raise (IndexError "shape[1] of a tensor of rank 0")
  | t :: ts =>
      let probabilities := reduce_sum3 t ts in
      let depth := match probabilities with [] => 0%nat | m :: _ => length m end in
      let y_true := one_hot (b_choices b) depth in
      optimized_loss <- lift (custom_cce probabilities y_true sample_weight) ;;
      nll <- lift (keras_cce probabilities y_true sample_weight) ;;
      ret ((optimized_loss, nll), probabilities)
  end.

(** [_expectation] (lines 1199-1216): the responsibilities, as the list of
    their columns (one per class), and the loss. *)
Definition expectation (ds : D) : method (list (list F) * F) :=
  ms <- attr "models" models ;;
  predicted_probas <- lift (map_result (fun m => m_predict_probas m ds) ms) ;;
  (if existsb (existsb has_nan) predicted_probas
   then print "Nan in probas" else ret tt) ;;;
  logits <- attr "latent_logits" latent_logits ;;
  predicted_probas <-
    lift (map_result
            (fun lp =>
               (chosen <- gather_choices (snd lp) (ds_len ds) (ds_choices ds) ;;
                Ok (map (fun x => mul (fst lp) x) chosen))%result)
            (combine logits predicted_probas)) ;;
  match predicted_probas with
  | [] => raise (ValueError "need at least one array to stack")
  | _ :: _ =>
      let predicted_probas :=
        map (map (fun x => add x (of_R (1 / 10 ^ 10)))) predicted_probas in
      let sums := row_sums (ds_len ds) predicted_probas in
      let loss := vsum (map log sums) in
      ret (divide_rows predicted_probas sums, loss)
  end.

(** The [for] loop of [_maximization] (lines 1235-1236) over the classes
    [qs]. *)
Fixpoint fit_classes (ds : D) (qs : list nat) : method unit :=
  match qs with
  | [] => ret tt
  | q :: rest =>
      ms <- attr "models" models ;;
      m <- lift (index ms q) ;;
      w <- attr "weights" weights ;;
      column <- lift (index w q) ;;
      m' <- lift (m_fit m ds column) ;;
      update (fun s => set_models s (replace_at q m' ms)) ;;;
      fit_classes ds rest
  end.

(** [_maximization] (lines 1233-1241): the new class probabilities. *)
Definition maximization (ds : D) : method (list F) :=
  update (fun s => set_models s (map construct (model_parameters s))) ;;;
  n <- (fun s => (Ok (n_latent_classes s), s)) ;;
  fit_classes ds (seq 0 n) ;;;
  w <- attr "weights" weights ;;
  let latent_probas := map vsum w in
  ret (map (fun x => div x (vsum latent_probas)) latent_probas).

(** The initialisation loop of [_em_fit] (lines 1264-1266) over the models
    [ms], from position [i]. *)
Fixpoint init_fit (ds : D) (i : nat) (ms : list M) : method unit :=
  match ms with
  | [] => ret tt
  | m :: rest =>
      g <- (fun s => (Ok (rng s), s)) ;;
      let sample_weight := random_rand g (ds_len ds) in
      update (fun s => set_rng_out s (S g) (out s)) ;;;
      m' <- lift (m_fit m ds sample_weight) ;;
      update (fun s =>
                match models s with
                | Some cur => set_models s (replace_at i m' cur)
                | None => s
                end) ;;;
      init_fit ds (S i) rest
  end.

(** The loop of [_em_fit] (lines 1267-1274) with [n] iterations left. *)
Fixpoint em_loop (ds : D) (n : nat) (hist_logits : list (list F)) (hist_loss : list F)
  : method (list (list F) * list F) :=
  match n with
  | 0%nat => ret (hist_logits, hist_loss)
  | S n' =>
      e <- expectation ds ;;
      update (fun s => set_weights s (fst e)) ;;;
      p <- maximization ds ;;
      update (fun s => set_latent_logits s p) ;;;
      let hist_logits := hist_logits ++ [p] in
      let hist_loss := hist_loss ++ [snd e] in
      if has_nan p then
        print "Nan in logits" ;;; ret (hist_logits, hist_loss)
      else em_loop ds n' hist_logits hist_loss
  end.

(** [_em_fit] (lines 1260-1275). *)
Definition em_fit (ds : D) : method (list (list F) * list F) :=
  ms <- attr "models" models ;;
  init_fit ds 0 ms ;;;
  n <- (fun s => (Ok (epochs s), s)) ;;
  em_loop ds n [] [].

(** The parameters of [def _em_fit(self, dataset, verbose=0)] after [self]. *)
Definition em_fit_parameters : list string := ["dataset"; "verbose"]%string.

(** What [fit] returns: the histories of [_em_fit], or what the joint
    maximum-likelihood method [_fit_with_lbfgs] returns, which is not part of
    this development. *)
Inductive fit_result : Type :=
| EmHistories (hist_logits : list (list F)) (hist_loss : list F)
| JointMle.

(** [fit] (lines 927-940). The call at line 930 passes the keywords
    [dataset], [sample_weight] and [verbose]. *)
Definition fit (ds : D) (sample_weight : option (list F)) : method fit_result :=
  method_name <- (fun s => (Ok (PyStr.lower (fit_method s)), s)) ;;
  if Init.eqs method_name "em" then
    update (fun s => set_minf s (log (of_R (1 / 1000)))) ;;;
    print "Expectation-Maximization estimation algorithm not well implemented yet." ;;;
    lift (bind_keywords "_em_fit" em_fit_parameters
            ["dataset"; "sample_weight"; "verbose"]%string) ;;;
    h <- em_fit ds ;;
    ret (EmHistories (fst h) (snd h))
  else if Init.eqs method_name "mle" then
    opt <- (fun s => (Ok (optimizer s), s)) ;;
    match opt with
    | None => raise (AttributeError "'NoneType' object has no attribute 'lower'")
    | Some o =>
        if Init.eqs (PyStr.lower o) "lbfgs" || Init.eqs (PyStr.lower o) "l-bfgs"
        then ret JointMle
        else raise (AttributeError "object has no attribute '_fit_normal'")
    end
  else
    s <- (fun s => (Ok (fit_method s), s)) ;;
    raise (ValueError ("Fit method not implemented: " ++ s)).

(** *** Vocabulary for the statements about the mixture *)

(** A method that leaves the free logits and the number of classes as they
    are, whether it returns or raises. *)
Definition keeps_logits {A : Type} (m : method A) : Prop :=
  forall s : lmodel,
    latent_logits (snd (m s)) = latent_logits s /\
    n_latent_classes (snd (m s)) = n_latent_classes s.

(** A method that does not change [self] at all. *)
Definition reads_only {A : Type} (m : method A) : Prop :=
  forall s : lmodel, snd (m s) = s.

End Mixture.

End LC.

(** ** A small substrate, to run the engine on *)

Module Example.

Import CM.
Open Scope R_scope.

(** Batches of [n] consecutive choices, the last one possibly shorter. *)
Fixpoint chunks (A : Type) (fuel n : nat) (l : list A) : list (list A) :=
  match fuel with
  | 0%nat => []
  | S fuel' =>
      match l with
      | [] => []
      | _ :: _ => firstn n l :: chunks fuel' n (skipn n l)
      end
  end.

Definition toy_iter_batch (ds : dataset unit) (shuffle : bool) (batch_size : Z)
    (g : nat) : list (batch unit) :=
  if (batch_size =? -1)%Z then [ds] else chunks (length ds) (Z.to_nat batch_size) ds.

Definition stop_model (m : model nat) : model nat :=
  {| weights := weights m; optimizer := optimizer m; opt_state := opt_state m;
     normalize_non_buy := normalize_non_buy m;
     label_smoothing := label_smoothing m;
     stop_training := true; epochs := epochs m;
     batch_size := batch_size m; tolerance := tolerance m;
     instantiated := instantiated m |}.

(** A callback that keeps the number of the running epoch and asks for the
    stop in the middle of epoch 1, at the end of its first training batch. *)
Definition early_stop (h : hook) (w : world nat nat) : world nat nat :=
  match h with
  | on_epoch_begin e => {| self := self w; cbs := e; rng := rng w; out := out w |}
  | on_train_batch_end 0 _ =>
      if (cbs w =? 1)%nat then with_self w (stop_model (self w)) else w
  | _ => w
  end.

#[global] Instance toy : Substrate unit nat nat := {|
  compute_batch_utility := fun _ b => map avail b;
  softmax_with_availabilities := fun u _ _ => u;
  custom_cce := fun _ _ _ _ => 1;
  keras_cce := fun _ _ _ => 1;
  gradient := fun _ ws => ws;
  apply_gradients := fun _ o gws => (S o, map snd gws);
  iter_batch := toy_iter_batch;
  iter_batch_weighted := fun ds shuffle sw batch_size g =>
    map (fun b => (b, map (fun _ => 1) b)) (toy_iter_batch ds shuffle batch_size g);
  callbacks := early_stop;
  lbfgs_minimize := fun init _ _ =>
    Query init (fun _ => Done {| converged := true; num_iterations := 1;
                                 position := init |})
|}.

Definition one_choice (c : nat) : instance unit :=
  {| feats := tt; avail := [1; 1]; choice := c |}.

Definition three_choices : dataset unit := [one_choice 0; one_choice 1; one_choice 0].

Definition toy_weights : list (Tf.tensor R) :=
  [ {| Tf.shape := [2%nat]; Tf.data := [1; 2] |};
    {| Tf.shape := [1%nat; 1%nat]; Tf.data := [3] |} ].

Definition toy_model : model nat :=
  {| weights := toy_weights; optimizer := Some (Init.Adam 1); opt_state := 0%nat;
     normalize_non_buy := false; label_smoothing := 0;
     stop_training := false; epochs := 3; batch_size := 2; tolerance := 0;
     instantiated := Some true |}.

Definition toy_world : world nat nat :=
  {| self := toy_model; cbs := 0%nat; rng := 0%nat; out := [] |}.

End Example.

(** ** The softmax of [tf_ops], and a small mixture to run the code on *)

Module Softmax.

Open Scope R_scope.

(** The largest utility among the available items of a row, if any. *)
Fixpoint available_max (us av : list R) : option R :=
  match us, av with
  | u :: us', a :: av' =>
      if Req_EM_T a 0 then available_max us' av'
      else match available_max us' av' with
           | Some m => Some (Rmax u m)
           | None => Some u
           end
  | _, _ => None
  end.

(** The exponentials of a row, after the subtraction of [m], zeroed where the
    item is not available. *)
Fixpoint masked_exp (m : R) (us av : list R) : list R :=
  match us, av with
  | u :: us', a :: av' => a * exp (u - m) :: masked_exp m us' av'
  | _, _ => []
  end.

(** Modelled from the spec: [tf_ops.softmax_with_availabilities] is not among
    the sources. Section 4.1: the probabilities are 0 where the availability
    is 0 and follow a softmax of the utilities among the available items;
    with [normalize_exit] an outside option of utility 0 takes part in the
    denominator; the row-wise maximum of the utilities, restricted to the
    available entries, is subtracted before exponentiating. One row: *)
Definition softmax_row (us av : list R) (normalize_exit : bool) : list R :=
  let m := match available_max us av with Some m => m | None => 0 end in
  let es := masked_exp m us av in
  let denominator :=
    fold_right Rplus 0 es + (if normalize_exit then exp (0 - m) else 0) in
  map (fun e => e / denominator) es.

(** Modelled from the spec: the softmax of a matrix of utilities (batch,
    items), row by row along the last axis. *)
Definition softmax_with_availabilities (utilities availabilities : list (list R))
    (normalize_exit : bool) : list (list R) :=
  map (fun ua => softmax_row (fst ua) (snd ua) normalize_exit)
      (combine utilities availabilities).

(** Modelled from the spec: on a tensor of rank 3 (classes, batch, items) the
    softmax still runs along the last axis, and the availabilities of rank 2
    are broadcast over the leading axis. *)
Definition softmax_with_availabilities3 (utilities : list (list (list R)))
    (availabilities : list (list R)) (normalize_exit : bool)
  : list (list (list R)) :=
  map (fun u => softmax_with_availabilities u availabilities normalize_exit) utilities.

(** The probabilities that the specification asks of the mixture: the
    prior-weighted sum over the classes of the softmax of the utilities of
    each class. *)
Fixpoint mixture (prior : list R) (utilities : list (list (list R)))
    (availabilities : list (list R)) (normalize_exit : bool) : list (list R) :=
  match prior, utilities with
  | p :: prior', u :: utilities' =>
      let this := map (map (fun x => x * p))
                      (softmax_with_availabilities u availabilities normalize_exit) in
      match prior', utilities' with
      | _ :: _, _ :: _ =>
          map (fun rs => LC.zip_with Rplus (fst rs) (snd rs))
              (combine this (mixture prior' utilities' availabilities normalize_exit))
      | _, _ => this
      end
  | _, _ => []
  end.

End Softmax.

Module LatentExample.

Import Num LC.

(** A sub-model that is a table: the utilities and the probabilities that it
    gives for the one batch and the one dataset of the example, and how many
    times it was fitted. Its hyper-parameters are the table itself. *)
Record table (F : Type) : Type := {
  utility : list (list F);
  probas : list (list F);
  n_fits : nat
}.
Arguments utility {F} t.
Arguments probas {F} t.
Arguments n_fits {F} t.

Definition fitted {F : Type} (t : table F) : table F :=
  {| utility := utility t; probas := probas t; n_fits := S (n_fits t) |}.

(** The substrate of the example: a dataset is the list of its choices. *)
Definition toy {F : Type} {sc : Scalar F}
    (softmax : list (list (list F)) -> list (list F) -> bool -> list (list (list F)))
  : Substrate F unit (list nat) (table F) (table F) :=
  {| construct := fun h => h;
     m_instantiate := fun m => m;
     m_compute_batch_utility := fun m _ => utility m;
     m_predict_probas := fun m _ => Ok (probas m);
     m_fit := fun m _ _ => Ok (fitted m);
     ds_len := fun ds => length ds;
     ds_choices := fun ds => ds;
     softmax_with_availabilities := softmax;
     custom_cce := fun _ _ _ => Ok (of_R 0);
     keras_cce := fun _ _ _ => Ok (of_R 0);
     normal_sample := fun _ => of_R (- (1 / 100));
     random_rand := fun _ n => repeat (of_R (1 / 2)) n |}.

#[global] Instance toy_real : Substrate R unit (list nat) (table R) (table R) :=
  toy Softmax.softmax_with_availabilities3.

#[global] Instance toy_xfloat
  : Substrate xfloat unit (list nat) (table xfloat) (table xfloat) :=
  toy (fun us _ _ => us).

(** A mixture of the two tables [t0] and [t1], as [__init__] and
    [instantiate] leave it. *)
Definition two_classes {F : Type} (t0 t1 : table F) (method : string)
    (n_epochs : nat) (logits : list F) : @lmodel F (table F) (table F) :=
  {| n_latent_classes := 2; model_parameters := [t0; t1]; fit_method := method;
     epochs := n_epochs; optimizer := None; add_exit_choice := false;
     instantiated := false; latent_logits := Some logits;
     models := Some [t0; t1]; weights := None; minf := None;
     normalize_non_buy := None; rng := 0; out := [] |}.

Open Scope R_scope.

Definition one_choice : list nat := [0%nat].

Definition one_batch {F : Type} {sc : Scalar F} : batch unit F :=
  {| b_feats := tt; b_avail := [[of_R 1; of_R 1]]; b_choices := [0%nat] |}.

(** Two tables over the reals: equal utilities for the two items, and a
    higher utility for the first item. *)
Definition flat_table : table R :=
  {| utility := [[0; 0]]; probas := [[1 / 2; 1 / 2]]; n_fits := 0 |}.
Definition steep_table : table R :=
  {| utility := [[1; 0]]; probas := [[3 / 4; 1 / 4]]; n_fits := 0 |}.

(** The mixture of the two, with the one free logit that [instantiate]
    draws. *)
Definition real_mixture (method : string) : @lmodel R (table R) (table R) :=
  two_classes flat_table steep_table method 3 [- (1 / 100)].

(** The same mixture with [self.normalize_non_buy] set from outside. *)
Definition real_mixture_with_exit_flag : @lmodel R (table R) (table R) :=
  {| n_latent_classes := 2; model_parameters := [flat_table; steep_table];
     fit_method := "MLE"; epochs := 3; optimizer := None; add_exit_choice := false;
     instantiated := false; latent_logits := Some [- (1 / 100)];
     models := Some [flat_table; steep_table]; weights := None; minf := None;
     normalize_non_buy := Some false; rng := 0; out := [] |}.

(** Tables over the floating-point values: one with finite probabilities and
    one whose probabilities are NaN (a sub-model whose parameters have
    diverged). *)
Definition finite_table : table xfloat :=
  {| utility := [[Fin 0; Fin 0]]; probas := [[Fin (1 / 2); Fin (1 / 2)]];
     n_fits := 0 |}.
Definition nan_table : table xfloat :=
  {| utility := [[Fin 0; Fin 0]]; probas := [[NaN; NaN]]; n_fits := 0 |}.

(** A mixture as [instantiate] leaves it: one free logit for two classes. *)
Definition fresh_mixture : @lmodel xfloat (table xfloat) (table xfloat) :=
  two_classes finite_table finite_table "EM" 3 [Fin (- (1 / 100))].

(** A mixture whose [latent_logits] holds one value per class and whose
    sub-models predict NaN. *)
Definition diverged_mixture : @lmodel xfloat (table xfloat) (table xfloat) :=
  two_classes nan_table nan_table "EM" 3 [Fin (1 / 2); Fin (1 / 2)].

End LatentExample.

(** ** Further vocabulary *)

Module Lbfgs.

Import CM.

Section Run.
Context {X Slots C : Type} {env : Substrate X Slots C}.

(** The points at which the minimiser asks for the value and the gradient,
    in order, when its questions are answered by the closure [f] of
    [_lbfgs_train_step]; the run ends with the first question that raises. *)
Fixpoint asked (ad : Tf.adapter) (ds : dataset X) (sample_weight : option (list R))
    (mz : minimizer) (st : world Slots C * closure) : list (list R) :=
  match mz with
  | Done _ => []
  | Query x k =>
      x :: match lbfgs_f ad ds sample_weight x st with
           | (Ok answer, st') => asked ad ds sample_weight (k answer) st'
           | (Raise _, _) => []
           end
  end.

End Run.

End Lbfgs.

Module Batching.

Import CM.

Section Rows.
Context {X Slots C : Type} {env : Substrate X Slots C}.

(** The forward pass of the model treats the choices of a batch one by one:
    the probabilities of two batches put together are the probabilities of
    the first followed by those of the second. *)
Definition rowwise (m : model Slots) : Prop :=
  forall b1 b2 : batch X,
    probabilities_of m (weights m) (b1 ++ b2)
    = probabilities_of m (weights m) b1 ++ probabilities_of m (weights m) b2.

End Rows.

End Batching.

Module LatentData.

Import Num LC.

Section Predict.
Context {F X D H M : Type} {sc : Scalar F} {env : Substrate F X D H M}.

(** [choice_dataset.iter_batch(batch_size=batch_size)]: the batches of a
    dataset, in the order in which it yields them. *)
Variable iter_batch : D -> Z -> list (batch X F).

(** The [for] loop of [BaseLatentClassModel.predict_probas] (lines
    1293-1305). *)
Fixpoint predict_batches (bs : list (batch X F))
    (stacked_probabilities : list (list (list (list F))))
  : method (list (list (list (list F)))) :=
  match bs with
  | [] => ret stacked_probabilities
  | b :: rest =>
      mbind (batch_predict b None)
            (fun r => predict_batches rest (stacked_probabilities ++ [snd r]))
  end.

(** [BaseLatentClassModel.predict_probas] (lines 1292-1307). [tf.concat] of
    no tensor raises. *)
Definition predict_probas (ds : D) (batch_size : Z)
  : method (list (list (list F))) :=
  mbind (predict_batches (iter_batch ds batch_size) [])
        (fun stacked_probabilities =>
           match stacked_probabilities with
           | [] => raise (ValueError "tf.concat: list of tensors is empty")
           | _ :: _ => ret (concat stacked_probabilities)
           end).

End Predict.

End LatentData.

(** ** The L-BFGS adapter of [BaseLatentClassModel] *)

Module LatentAdapter.

Section Adapter.
Variable A : Type.

(** The trainable variables of a mixture: the weights of every sub-model
    ([model.weights] for each model of [self.models]) and
    [self.latent_logits]. *)
Record variables : Type := {
  model_weights : list (list (Tf.tensor A));
  latent_logits : Tf.tensor A
}.

(** The three lists that lines 1004-1014 build side by side. *)
Record collected : Type := {
  c_weights : list (Tf.tensor A);
  c_to_model : list Z;
  c_to_model_indexes : list Z
}.

Definition append (c : collected) (w : Tf.tensor A) (i j : Z) : collected :=
  {| c_weights := c_weights c ++ [w];
     c_to_model := c_to_model c ++ [i];
     c_to_model_indexes := c_to_model_indexes c ++ [j] |}.

(** The inner loop, lines 1008-1011, over [enumerate(model.weights)] from
    position [j], for the model at position [i]. *)
Fixpoint collect_weights (i j : nat) (ws : list (Tf.tensor A)) (c : collected)
  : collected :=
  match ws with
  | [] => c
  | w :: rest =>
      collect_weights i (S j) rest (append c w (Z.of_nat i) (Z.of_nat j))
  end.

(** The outer loop, lines 1007-1011, over [enumerate(self.models)] from
    position [i]. *)
Fixpoint collect_models (i : nat) (models : list (list (Tf.tensor A)))
    (c : collected) : collected :=
  match models with
  | [] => c
  | ws :: rest => collect_models (S i) rest (collect_weights i 0 ws c)
  end.

(** Lines 1004-1014. *)
Definition collect (v : variables) : collected :=
  append
    (collect_models 0 (model_weights v)
       {| c_weights := []; c_to_model := []; c_to_model_indexes := [] |})
    (latent_logits v) (-1) (-1).

(** What [_lbfgs_train_step] computes once and what its closures capture. *)
Record adapter : Type := {
  w_to_model : list Z;
  w_to_model_indexes : list Z;
  shapes : list (list nat);
  n_tensors : nat;
  idx : list (Tf.tensor nat);
  part : list nat
}.

(** Lines 1004-1030. *)
Definition make_adapter (v : variables) : adapter :=
  let c := collect v in
  let shs := Tf.shape_n (c_weights c) in
  let ip := Tf.stitch_partition_indices 0 0 shs in
  {| w_to_model := c_to_model c;
     w_to_model_indexes := c_to_model_indexes c;
     shapes := shs; n_tensors := length shs; idx := fst ip; part := snd ip |}.

(** The position that the Python index [z] names in a list of [len]
    entries: a negative index counts from the end. *)
Definition py_pos (len : nat) (z : Z) : result nat :=
  let k := if (z <? 0)%Z then (Z.of_nat len + z)%Z else z in
  if ((0 <=? k) && (k <? Z.of_nat len))%Z then Ok (Z.to_nat k)
  else Raise (IndexError "list index out of range").

(** The [for] loop of [assign_new_model_parameters] (lines 1042-1048) over
    [enumerate(zip(shapes, params))], from position [i]. *)
Fixpoint assign_all (ad : adapter) (i : nat) (sps : list (list nat * list A))
    (v : variables) : result variables :=
  match sps with
  | [] => Ok v
  | (shape, param) :: rest =>
      (wm <- index (w_to_model ad) i ;;
       v' <- (if negb (wm =? -1)%Z then
                (a <- py_pos (length (model_weights v)) wm ;;
                 ws <- index (model_weights v) a ;;
                 wj <- index (w_to_model_indexes ad) i ;;
                 b <- py_pos (length ws) wj ;;
                 t <- Tf.reshape param shape ;;
                 ws' <- Tf.assign_at b t ws ;;
                 Ok {| model_weights := replace_at a ws' (model_weights v);
                       latent_logits := latent_logits v |})
              else
                (t <- Tf.reshape param shape ;;
                 if Tf.shape_eqb (Tf.shape (latent_logits v)) (Tf.shape t)
                 then Ok {| model_weights := model_weights v; latent_logits := t |}
                 else Raise (ValueError "assign: shapes are incompatible"))) ;;
       assign_all ad (S i) rest v')%result
  end.

(** [assign_new_model_parameters(params_1d)] (lines 1033-1048). *)
Definition assign_new_model_parameters (ad : adapter) (params_1d : list A)
    (v : variables) : result variables :=
  (params <- Tf.dynamic_partition params_1d (part ad) (n_tensors ad) ;;
   assign_all ad 0 (combine (shapes ad) params) v)%result.

(** The list [init] of [_fit_with_lbfgs] (lines 1128-1132): the weights of
    the sub-models one after the other, then the logits. *)
Definition init_list (v : variables) : list (Tf.tensor A) :=
  concat (model_weights v) ++ [latent_logits v].

(** [init_params] (line 1133). *)
Definition init_params (d : A) (ad : adapter) (v : variables) : list A :=
  Tf.dynamic_stitch d (idx ad) (init_list v).

End Adapter.

End LatentAdapter.

Module MoreExamples.

Import Num LC LatentExample.
Open Scope R_scope.

(** The mixture of the two example tables as the constructor returns it,
    before [instantiate]. *)
Definition constructed_mixture : @lmodel R (table R) (table R) :=
  {| n_latent_classes := 2; model_parameters := [flat_table; steep_table];
     fit_method := "EM"; epochs := 3; optimizer := None; add_exit_choice := false;
     instantiated := false; latent_logits := None; models := None;
     weights := None; minf := None; normalize_non_buy := None;
     rng := 0; out := [] |}.

(** The instantiated mixture of the two tables with one weight for each
    class in [latent_logits], as a completed EM iteration leaves it. *)
Definition weighted_mixture : @lmodel R (table R) (table R) :=
  two_classes flat_table steep_table "EM" 3 [1 / 2; 1 / 2].

(** The same mixture after an E-step that gave each of the two classes the
    responsibility 1/2 for the one choice of the dataset. *)
Definition responsible_mixture : @lmodel R (table R) (table R) :=
  set_weights weighted_mixture [[1 / 2]; [1 / 2]].

(** The variables of a mixture of two sub-models: the first has a weight
    of shape (2, 2) and one of shape (1,), the second one weight of shape
    (3,); [latent_logits] holds the one logit of the second class. *)
Definition mixture_variables : LatentAdapter.variables R :=
  {| LatentAdapter.model_weights :=
       [[{| Tf.shape := [2%nat; 2%nat]; Tf.data := [1; 2; 3; 4] |};
         {| Tf.shape := [1%nat]; Tf.data := [5] |}];
        [{| Tf.shape := [3%nat]; Tf.data := [6; 7; 8] |}]];
     LatentAdapter.latent_logits := {| Tf.shape := [1%nat]; Tf.data := [0] |} |}.

(** A point of the nine dimensions of [mixture_variables]. *)
Definition mixture_position : list R := [9; 8; 7; 6; 5; 4; 3; 2; 1].

End MoreExamples.

(** * Theorems *)

(** ** The optimizer named in the constructor *)

Section InitFacts.
Import Init.
Open Scope string_scope.

Lemma eqs_true (a b : string) : eqs a b = true <-> a = b.
Proof. unfold eqs. apply String.eqb_eq. Qed.

Lemma recognized_false (name : string) :
  recognized name = false ->
  eqs (PyStr.lower name) "adam" = false /\
  eqs (PyStr.lower name) "sgd" = false /\
  eqs (PyStr.lower name) "adamax" = false /\
  eqs (PyStr.lower name) "lbfgs" = false /\
  eqs (PyStr.lower name) "l-bfgs" = false.
Proof.
  unfold recognized. cbv zeta.
  repeat rewrite orb_false_iff. tauto.
Qed.

End InitFacts.

(** C3. The names "Adam", "SGD" and "Adamax", in any mix of upper and lower
    case, select the optimizer of that name with the given learning rate. A
    name that the constructor does not recognise (after lowering it is none
    of adam, sgd, adamax, lbfgs, l-bfgs) selects Adam with the given learning
    rate, keeps the gradient [fit], and prints one warning line; the
    constructor has no raising branch ([init_optimizer] is total). *)
Theorem init_optimizer_by_name (name : string) (lr : R) :
  let st := Init.init_optimizer name lr in
  (PyStr.lower name = "adam"%string ->
     Init.self_optimizer st = Some (Init.Adam lr) /\ Init.printed st = []) /\
  (PyStr.lower name = "sgd"%string ->
     Init.self_optimizer st = Some (Init.SGD lr) /\ Init.printed st = []) /\
  (PyStr.lower name = "adamax"%string ->
     Init.self_optimizer st = Some (Init.Adamax lr) /\ Init.printed st = []) /\
  (Init.recognized name = false ->
     Init.self_optimizer st = Some (Init.Adam lr) /\
     Init.self_fit st = Init.FitGradient /\
     Init.printed st =
       [("Optimizer " ++ name ++ " not implemnted, switching for default Adam")%string]).
Proof.
  cbv zeta. unfold Init.init_optimizer. cbv zeta.
  repeat split.
  - rewrite H. reflexivity.
  - rewrite H. reflexivity.
  - rewrite H. reflexivity.
  - rewrite H. reflexivity.
  - rewrite H. reflexivity.
  - rewrite H. reflexivity.
  - apply recognized_false in H as (H1 & H2 & H3 & H4 & H5).
    rewrite H1, H2, H3, H4, H5. reflexivity.
  - apply recognized_false in H as (H1 & H2 & H3 & H4 & H5).
    rewrite H1, H2, H3, H4, H5. reflexivity.
  - apply recognized_false in H as (H1 & H2 & H3 & H4 & H5).
    rewrite H1, H2, H3, H4, H5. reflexivity.
Qed.

(** The names used by the test-suite: "SGD", "Adam", "Adamax" and
    "xyz_not_implemented", and a mixed-case spelling. *)
Lemma init_optimizer_by_name_witness :
  Init.self_optimizer (Init.init_optimizer "aDaM" 1) = Some (Init.Adam 1) /\
  Init.self_optimizer (Init.init_optimizer "SGD" 1) = Some (Init.SGD 1) /\
  Init.self_optimizer (Init.init_optimizer "Adamax" 1) = Some (Init.Adamax 1) /\
  Init.self_optimizer (Init.init_optimizer "xyz_not_implemented" 1)
    = Some (Init.Adam 1) /\
  Init.printed (Init.init_optimizer "xyz_not_implemented" 1)
    = ["Optimizer xyz_not_implemented not implemnted, switching for default Adam"%string].
Proof.
  destruct (init_optimizer_by_name "aDaM" 1) as (Ha & _).
  destruct (init_optimizer_by_name "SGD" 1) as (_ & Hs & _).
  destruct (init_optimizer_by_name "Adamax" 1) as (_ & _ & Hx & _).
  destruct (init_optimizer_by_name "xyz_not_implemented" 1) as (_ & _ & _ & Hu).
  split; [apply Ha; reflexivity|].
  split; [apply Hs; reflexivity|].
  split; [apply Hx; reflexivity|].
  destruct (Hu eq_refl) as (H1 & _ & H3).
  split; [exact H1 | exact H3].
Defined.

(** ** Flattening and unflattening the parameter tensors *)

Section TfFacts.
Variable A : Type.

Lemma combine_app_eq (X Y : Type) (a b : list X) (c d : list Y) :
  length a = length c ->
  combine (a ++ b) (c ++ d) = combine a c ++ combine b d.
Proof.
  revert c. induction a as [|x a IH]; intros [|y c] H; simpl in *; try discriminate.
  - reflexivity.
  - f_equal. apply IH. congruence.
Qed.

Lemma parts_length (i : nat) (ns : list nat) : length (Tf.parts i ns) = Tf.total ns.
Proof.
  revert i. induction ns as [|n ns IH]; intros i; simpl.
  - reflexivity.
  - rewrite length_app, repeat_length, IH. reflexivity.
Qed.

Lemma parts_ge (i : nat) (ns : list nat) (k : nat) :
  In k (Tf.parts i ns) -> i <= k.
Proof.
  revert i. induction ns as [|n ns IH]; intros i; simpl.
  - intros [].
  - intros H. apply in_app_or in H as [H|H].
    + apply repeat_spec in H. lia.
    + apply IH in H. lia.
Qed.

Lemma flat_length (ts : list (Tf.tensor A)) :
  Forall (@Tf.well_shaped A) ts -> length (Tf.flat ts) = Tf.total (Tf.sizes ts).
Proof.
  induction 1 as [|t ts Ht _ IH]; simpl.
  - reflexivity.
  - unfold Tf.flat in *. simpl. rewrite length_app, IH. unfold Tf.well_shaped in Ht.
    rewrite Ht. reflexivity.
Qed.

(** The indices that the adapter prepares. *)
Lemma indices_spec (ts : list (Tf.tensor A)) (i count : nat) :
  Forall (@Tf.well_shaped A) ts ->
  Tf.stitch_writes (fst (Tf.stitch_partition_indices i count (Tf.shape_n ts))) ts
    = combine (seq count (length (Tf.flat ts))) (Tf.flat ts)
  /\ snd (Tf.stitch_partition_indices i count (Tf.shape_n ts)) = Tf.parts i (Tf.sizes ts).
Proof.
  intros H. revert i count. induction H as [|t ts Ht _ IH]; intros i count.
  - simpl. split; reflexivity.
  - simpl.
    destruct (Tf.stitch_partition_indices (S i) (count + Tf.numel (Tf.shape t))
                (Tf.shape_n ts)) as [idx part] eqn:E.
    specialize (IH (S i) (count + Tf.numel (Tf.shape t))). rewrite E in IH.
    destruct IH as [IH1 IH2]. simpl in *. split.
    + unfold Tf.stitch_writes in *. simpl. rewrite IH1.
      unfold Tf.flat. simpl. rewrite length_app, seq_app.
      unfold Tf.well_shaped in Ht.
      rewrite combine_app_eq by (rewrite length_seq; reflexivity).
      rewrite Ht. reflexivity.
    + rewrite IH2. reflexivity.
Qed.

Lemma last_write_below (k c n : nat) (xs : list A) :
  k < c -> Tf.last_write k (combine (seq c n) xs) = None.
Proof.
  revert c xs. induction n as [|n IH]; intros c xs Hk; simpl.
  - reflexivity.
  - destruct xs as [|x xs]; simpl; [reflexivity|].
    rewrite IH by lia.
    destruct (c =? k) eqn:E; [apply Nat.eqb_eq in E; lia | reflexivity].
Qed.

Lemma stitch_size_seq (c : nat) (xs : list A) :
  Tf.stitch_size (combine (seq c (length xs)) xs)
    = match xs with [] => 0 | _ :: _ => c + length xs end.
Proof.
  revert c. induction xs as [|x xs IH]; intros c; simpl.
  - reflexivity.
  - unfold Tf.stitch_size in *. simpl. rewrite IH.
    destruct xs; simpl; lia.
Qed.

Lemma stitch_seq (d : A) (c : nat) (xs : list A) :
  map (fun k => match Tf.last_write k (combine (seq c (length xs)) xs) with
                | Some a => a
                | None => d
                end) (seq c (length xs)) = xs.
Proof.
  revert c. induction xs as [|x xs IH]; intros c; simpl.
  - reflexivity.
  - rewrite last_write_below by lia. rewrite Nat.eqb_refl. f_equal.
    rewrite <- (IH (S c)) at 2.
    apply map_ext_in. intros k Hk. apply in_seq in Hk.
    destruct (Tf.last_write k (combine (seq (S c) (length xs)) xs)); [reflexivity|].
    destruct (c =? k) eqn:E; [apply Nat.eqb_eq in E; lia | reflexivity].
Qed.

(** Stitching well-shaped tensors with the adapter's indices lays their
    entries out one tensor after the other. *)
Lemma dynamic_stitch_flat (d : A) (ts : list (Tf.tensor A)) :
  Forall (@Tf.well_shaped A) ts ->
  Tf.dynamic_stitch d (Tf.idx (Tf.make_adapter ts)) ts = Tf.flat ts.
Proof.
  intros H. unfold Tf.dynamic_stitch, Tf.make_adapter. simpl.
  destruct (indices_spec 0 0 H) as [Hw _]. rewrite Hw.
  rewrite stitch_size_seq.
  destruct (Tf.flat ts) as [|x xs] eqn:E.
  - reflexivity.
  - rewrite <- E. simpl. apply stitch_seq.
Qed.

End TfFacts.

Section PartitionFacts.
Variable A : Type.

Lemma filter_combine_repeat_eq (i : nat) (xs : list A) :
  map fst (filter (fun p : A * nat => snd p =? i) (combine xs (repeat i (length xs))))
    = xs.
Proof.
  induction xs as [|x xs IH]; simpl.
  - reflexivity.
  - rewrite Nat.eqb_refl. simpl. f_equal. exact IH.
Qed.

Lemma filter_combine_repeat_neq (i j : nat) (xs : list A) (n : nat) :
  i <> j ->
  filter (fun p : A * nat => snd p =? i) (combine xs (repeat j n)) = [].
Proof.
  intros Hij. revert xs. induction n as [|n IH]; intros [|x xs]; simpl; try reflexivity.
  destruct (j =? i) eqn:E; [apply Nat.eqb_eq in E; congruence|]. apply IH.
Qed.

Lemma filter_combine_none (i : nat) (xs : list A) (ps : list nat) :
  (forall k, In k ps -> k <> i) ->
  filter (fun p : A * nat => snd p =? i) (combine xs ps) = [].
Proof.
  revert xs. induction ps as [|q ps IH]; intros [|x xs] H; simpl; try reflexivity.
  destruct (q =? i) eqn:E.
  - apply Nat.eqb_eq in E. exfalso. apply (H q); [left; reflexivity | exact E].
  - apply IH. intros k Hk. apply H. right. exact Hk.
Qed.

(** Partitioning a flat list by the adapter's partition indices cuts it into
    consecutive pieces of the sizes of the tensors. *)
Lemma partition_chunks (ns : list nat) (i0 : nat) (v : list A) :
  length v = Tf.total ns ->
  map (fun i => map fst (filter (fun p : A * nat => snd p =? i)
                           (combine v (Tf.parts i0 ns))))
      (seq i0 (length ns))
    = Tf.split_chunks ns v.
Proof.
  revert i0 v. induction ns as [|n ns IH]; intros i0 v Hv; simpl.
  - reflexivity.
  - simpl in Hv.
    assert (Hf : length (firstn n v) = n) by (rewrite length_firstn; lia).
    assert (Hs : length (skipn n v) = Tf.total ns) by (rewrite length_skipn; lia).
    pose proof (firstn_skipn n v) as Hcut.
    remember (firstn n v) as f eqn:Ef. remember (skipn n v) as s eqn:Es.
    clear Ef Es. subst v.
    rewrite combine_app_eq by (rewrite repeat_length; exact Hf).
    f_equal.
    + rewrite filter_app, map_app.
      rewrite <- Hf at 1. rewrite filter_combine_repeat_eq.
      rewrite filter_combine_none.
      * simpl. apply app_nil_r.
      * intros k Hk. apply parts_ge in Hk. lia.
    + rewrite <- (IH (S i0) s Hs).
      apply map_ext_in. intros i Hi. apply in_seq in Hi.
      rewrite filter_app, map_app.
      rewrite filter_combine_repeat_neq by lia. reflexivity.
Qed.

Lemma concat_split_chunks (ns : list nat) (v : list A) :
  length v = Tf.total ns -> concat (Tf.split_chunks ns v) = v.
Proof.
  revert v. induction ns as [|n ns IH]; intros v Hv; simpl in *.
  - destruct v; [reflexivity | discriminate].
  - rewrite IH by (rewrite length_skipn; lia). apply firstn_skipn.
Qed.

Lemma split_chunks_lengths (ns : list nat) (v : list A) :
  length v = Tf.total ns -> map (@length A) (Tf.split_chunks ns v) = ns.
Proof.
  revert v. induction ns as [|n ns IH]; intros v Hv; simpl in *.
  - reflexivity.
  - rewrite IH by (rewrite length_skipn; lia).
    rewrite length_firstn. f_equal. lia.
Qed.

Lemma split_chunks_flat (ts : list (Tf.tensor A)) :
  Forall (@Tf.well_shaped A) ts ->
  Tf.split_chunks (Tf.sizes ts) (Tf.flat ts) = map (@Tf.data A) ts.
Proof.
  induction 1 as [|t ts Ht _ IH]; simpl.
  - reflexivity.
  - unfold Tf.flat in *. simpl. unfold Tf.well_shaped in Ht. rewrite <- Ht.
    rewrite firstn_app, Nat.sub_diag, firstn_all. simpl. rewrite app_nil_r.
    rewrite skipn_app, Nat.sub_diag, skipn_all. simpl.
    f_equal. exact IH.
Qed.

Lemma firstn_len_app (X : Type) (pre l : list X) :
  firstn (length pre) (pre ++ l) = pre.
Proof. induction pre as [|x pre IH]; simpl; [destruct l|]; congruence. Qed.

Lemma skipn_S_len_app (X : Type) (pre : list X) (o : X) (l : list X) :
  skipn (S (length pre)) (pre ++ o :: l) = l.
Proof. induction pre as [|x pre IH]; simpl in *; [reflexivity | exact IH]. Qed.

Lemma assign_at_app (pre : list (Tf.tensor A)) (o v : Tf.tensor A)
    (olds : list (Tf.tensor A)) :
  Tf.shape o = Tf.shape v ->
  Tf.assign_at (length pre) v (pre ++ o :: olds) = Ok (pre ++ v :: olds).
Proof.
  intros Hs. unfold Tf.assign_at.
  rewrite nth_error_app2 by lia. rewrite Nat.sub_diag.
  cbn [nth_error]. unfold Tf.shape_eqb.
  destruct (list_eq_dec Nat.eq_dec (Tf.shape o) (Tf.shape v)) as [_|n];
    [|congruence].
  rewrite firstn_len_app, skipn_S_len_app. reflexivity.
Qed.

(** The assignment loop writes the reshaped pieces over the variables it
    finds at their positions. *)
Lemma assign_all_spec (sps : list (list nat * list A)) (pre olds : list (Tf.tensor A)) :
  map (@Tf.shape A) olds = map fst sps ->
  Forall (fun sp => length (snd sp) = Tf.numel (fst sp)) sps ->
  Tf.assign_all (length pre) sps (pre ++ olds)
    = Ok (pre ++ map (@Tf.mk_tensor A) sps).
Proof.
  revert pre olds. induction sps as [|[sh param] sps IH]; intros pre olds Hsh Hsz.
  - destruct olds; [reflexivity | discriminate].
  - destruct olds as [|o olds]; [discriminate|].
    simpl in Hsh. injection Hsh as Ho Hsh.
    inversion Hsz as [|? ? Hp Hsz']; subst. simpl in Hp.
    cbn [Tf.assign_all]. unfold Tf.reshape. rewrite Hp, Nat.eqb_refl.
    cbn [bind].
    rewrite assign_at_app by reflexivity. cbn [bind].
    specialize (IH (pre ++ [{| Tf.shape := Tf.shape o; Tf.data := param |}]) olds Hsh Hsz').
    rewrite length_app in IH. simpl in IH. rewrite Nat.add_1_r in IH.
    rewrite <- app_assoc in IH. simpl in IH. rewrite IH.
    rewrite <- app_assoc. reflexivity.
Qed.

End PartitionFacts.

Section AdapterFacts.
Variable A : Type.

Lemma indices_part (shs : list (list nat)) (i count : nat) :
  snd (Tf.stitch_partition_indices i count shs) = Tf.parts i (map Tf.numel shs).
Proof.
  revert i count. induction shs as [|sh shs IH]; intros i count; simpl.
  - reflexivity.
  - specialize (IH (S i) (count + Tf.numel sh)).
    destruct (Tf.stitch_partition_indices (S i) (count + Tf.numel sh) shs).
    simpl in *. rewrite IH. reflexivity.
Qed.

Lemma rebuild_spec (shs : list (list nat)) (chunks : list (list A)) :
  map (@length A) chunks = map Tf.numel shs ->
  map fst (combine shs chunks) = shs /\
  map snd (combine shs chunks) = chunks /\
  Forall (fun sp : list nat * list A => length (snd sp) = Tf.numel (fst sp))
         (combine shs chunks).
Proof.
  revert chunks. induction shs as [|sh shs IH]; intros [|c chunks] H;
    simpl in *; try discriminate.
  - repeat split; constructor.
  - injection H as Hc H. destruct (IH chunks H) as (H1 & H2 & H3).
    repeat split; try (f_equal; assumption).
    constructor; [exact Hc | exact H3].
Qed.

Lemma unflatten_spec (shs : list (list nat)) (v : list A) :
  length v = Tf.total (map Tf.numel shs) ->
  Tf.shape_n (Tf.unflatten shs v) = shs /\
  Forall (@Tf.well_shaped A) (Tf.unflatten shs v) /\
  Tf.flat (Tf.unflatten shs v) = v.
Proof.
  intros Hv. unfold Tf.unflatten.
  pose proof (split_chunks_lengths (map Tf.numel shs) v Hv) as Hl.
  destruct (rebuild_spec shs _ Hl) as (H1 & H2 & H3).
  split; [|split].
  - unfold Tf.shape_n. rewrite map_map. exact H1.
  - apply Forall_map. revert H3. apply Forall_impl. intros sp Hsp. exact Hsp.
  - unfold Tf.flat. rewrite map_map. simpl.
    change (map (fun x : list nat * list A => snd x)
                (combine shs (Tf.split_chunks (map Tf.numel shs) v)))
      with (map snd (combine shs (Tf.split_chunks (map Tf.numel shs) v))).
    rewrite H2. apply concat_split_chunks. exact Hv.
Qed.

Lemma assign_spec (ts olds : list (Tf.tensor A)) (v : list A) :
  Tf.shape_n olds = Tf.shape_n ts ->
  length v = Tf.total (Tf.sizes ts) ->
  Tf.assign_new_model_parameters (Tf.make_adapter ts) v olds
    = Ok (Tf.unflatten (Tf.shape_n ts) v).
Proof.
  intros Hsh Hv. unfold Tf.assign_new_model_parameters, Tf.make_adapter. simpl.
  rewrite indices_part. unfold Tf.dynamic_partition.
  rewrite parts_length. fold (Tf.sizes ts). rewrite Hv, Nat.eqb_refl.
  cbn [bind].
  replace (length (Tf.shape_n ts)) with (length (Tf.sizes ts))
    by (unfold Tf.sizes; apply length_map).
  rewrite partition_chunks by exact Hv.
  pose proof (split_chunks_lengths (Tf.sizes ts) v Hv) as Hl.
  destruct (rebuild_spec (Tf.shape_n ts) _ Hl) as (H1 & _ & H3).
  apply (@assign_all_spec A _ (@nil (Tf.tensor A)) olds).
  - rewrite H1. exact Hsh.
  - exact H3.
Qed.

Lemma unflatten_flat (ts : list (Tf.tensor A)) :
  Forall (@Tf.well_shaped A) ts ->
  Tf.unflatten (Tf.shape_n ts) (Tf.flat ts) = ts.
Proof.
  intros H. unfold Tf.unflatten. fold (Tf.sizes ts). rewrite split_chunks_flat by exact H.
  clear H. induction ts as [|[sh d] ts IH]; simpl.
  - reflexivity.
  - f_equal. exact IH.
Qed.

End AdapterFacts.

(** ** Inference does not write the parameters *)

Section FrameFacts.
Context {X Slots C : Type} {env : CM.Substrate X Slots C}.

Lemma with_self_self (w : CM.world Slots C) : CM.with_self w (CM.self w) = w.
Proof. destruct w. reflexivity. Qed.

Lemma set_params_same (m : CM.model Slots) :
  CM.set_params m (CM.weights m) (CM.opt_state m) = m.
Proof. destruct m. reflexivity. Qed.

Lemma predict_batches_frame (bs : list (CM.batch X)) (acc : list CM.matrix)
    (m : CM.model Slots) :
  snd (CM.predict_batches bs acc m) = m.
Proof.
  revert acc. induction bs as [|b bs IH]; intros acc; simpl.
  - reflexivity.
  - apply IH.
Qed.

Lemma evaluate_batches_frame (bs : list (CM.batch X)) (sw : option (list R))
    (mode : string) (acc : list R) (last : option (CM.batch X)) (m : CM.model Slots) :
  snd (CM.evaluate_batches bs sw mode acc last m) = m.
Proof.
  revert acc last. induction bs as [|b bs IH]; intros acc last; simpl.
  - reflexivity.
  - apply IH.
Qed.

Lemma evaluate_frame (ds : CM.dataset X) (sw : option (list R)) (bsz : Z)
    (mode : string) (w : CM.world Slots C) :
  snd (CM.evaluate ds sw bsz mode w) = w.
Proof.
  unfold CM.evaluate.
  pose proof (evaluate_batches_frame (CM.iter_batch ds false bsz (CM.rng w)) sw mode
                [] None (CM.self w)) as H.
  destruct (CM.evaluate_batches _ _ _ _ _ _) as [[losses last] m']. simpl in *.
  subst m'. apply with_self_self.
Qed.

Lemma predict_probas_frame (ds : CM.dataset X) (bsz : Z) (w : CM.world Slots C) :
  snd (CM.predict_probas ds bsz w) = w.
Proof.
  unfold CM.predict_probas.
  pose proof (predict_batches_frame (CM.iter_batch ds false bsz (CM.rng w)) []
                (CM.self w)) as H.
  destruct (CM.predict_batches _ _ _) as [stacked m']. simpl in *. subst m'.
  destruct stacked; simpl; apply with_self_self.
Qed.

End FrameFacts.

(** C10. [batch_predict], [evaluate] and [predict_probas] return the model
    (for the two dataset operations: the whole world, that is the model, the
    callbacks' state, the random generator and the output) exactly as they
    found it, so the parameter tensors and the optimizer slots are unchanged.
    [train_step], when it does not raise, replaces the parameter tensors and
    the optimizer slots by what [apply_gradients] returns and leaves every
    other attribute as it was; the L-BFGS adapter writes the parameter
    tensors through [assign_new_model_parameters] (see [lbfgs_f]). *)
Theorem inference_leaves_parameters
    (X Slots C : Type) (env : CM.Substrate X Slots C) :
  (forall (b : CM.batch X) sw (m : CM.model Slots),
      snd (CM.batch_predict b sw m) = m) /\
  (forall (ds : CM.dataset X) sw bsz mode (w : CM.world Slots C),
      snd (CM.evaluate ds sw bsz mode w) = w /\
      CM.weights (CM.self (snd (CM.evaluate ds sw bsz mode w)))
        = CM.weights (CM.self w) /\
      CM.opt_state (CM.self (snd (CM.evaluate ds sw bsz mode w)))
        = CM.opt_state (CM.self w)) /\
  (forall (ds : CM.dataset X) bsz (w : CM.world Slots C),
      snd (CM.predict_probas ds bsz w) = w /\
      CM.weights (CM.self (snd (CM.predict_probas ds bsz w)))
        = CM.weights (CM.self w) /\
      CM.opt_state (CM.self (snd (CM.predict_probas ds bsz w)))
        = CM.opt_state (CM.self w)) /\
  (forall (b : CM.batch X) sw (m : CM.model Slots) loss,
      fst (CM.train_step b sw m) = Ok loss ->
      exists opt,
        CM.optimizer m = Some opt /\
        snd (CM.train_step b sw m)
          = CM.set_params m
              (snd (CM.apply_gradients opt (CM.opt_state m)
                      (combine (CM.gradient
                                  (fun ws => CM.neg_loglikelihood_of m ws b sw)
                                  (CM.weights m))
                               (CM.weights m))))
              (fst (CM.apply_gradients opt (CM.opt_state m)
                      (combine (CM.gradient
                                  (fun ws => CM.neg_loglikelihood_of m ws b sw)
                                  (CM.weights m))
                               (CM.weights m))))).
Proof.
  split; [|split; [|split]].
  - intros b sw m. reflexivity.
  - intros ds sw bsz mode w. rewrite evaluate_frame. repeat split.
  - intros ds bsz w. rewrite predict_probas_frame. repeat split.
  - intros b sw m loss. unfold CM.train_step.
    destruct (CM.optimizer m) as [opt|]; [|discriminate].
    intros _. exists opt. split; [reflexivity|].
    destruct (CM.apply_gradients opt (CM.opt_state m) _) as [o' ws']. reflexivity.
Qed.

(** One training step of the example model on the three example choices. *)
Lemma inference_leaves_parameters_witness :
  snd (CM.evaluate Example.three_choices None 2 "eval" Example.toy_world)
    = Example.toy_world /\
  exists opt,
    CM.optimizer Example.toy_model = Some opt /\
    CM.opt_state (snd (CM.train_step Example.three_choices None Example.toy_model))
      = 1%nat.
Proof.
  destruct (inference_leaves_parameters Example.toy) as (_ & He & _ & Ht).
  split; [apply He|].
  destruct (Ht Example.three_choices None Example.toy_model 1%R) as (opt & Ho & Hs).
  - vm_compute. reflexivity.
  - exists opt. split; [exact Ho|]. rewrite Hs.
    injection Ho as <-. reflexivity.
Defined.

(** ** The L-BFGS adapter *)

Section LbfgsFacts.
Context {X Slots C : Type} {env : CM.Substrate X Slots C}.

Lemma make_adapter_shapes (A : Type) (ts ts' : list (Tf.tensor A)) :
  Tf.shape_n ts = Tf.shape_n ts' -> Tf.make_adapter ts = Tf.make_adapter ts'.
Proof. intros H. unfold Tf.make_adapter. rewrite H. reflexivity. Qed.

Lemma evaluate_whole (ds : CM.dataset X) (sw : option (list R)) (mode : string)
    (w : CM.world Slots C) :
  exists l, CM.evaluate ds sw (-1) mode w = (Ok l, w).
Proof.
  pose proof (evaluate_frame ds sw (-1) mode w) as Hf.
  unfold CM.evaluate in *.
  destruct (CM.evaluate_batches _ _ _ _ _ _) as [[losses last] m'].
  simpl in *. eexists. rewrite Hf. reflexivity.
Qed.

Lemma lbfgs_f_ok (ts : list (Tf.tensor R)) (ds : CM.dataset X)
    (sw : option (list R)) (x : list R) (w : CM.world Slots C) (cl : CM.closure) :
  Tf.shape_n (CM.weights (CM.self w)) = Tf.shape_n ts ->
  length x = Tf.total (Tf.sizes ts) ->
  exists answer cl',
    CM.lbfgs_f (Tf.make_adapter ts) ds sw x (w, cl)
      = (Ok answer,
         (CM.with_self w (CM.set_params (CM.self w) (Tf.unflatten (Tf.shape_n ts) x)
                                         (CM.opt_state (CM.self w))),
          cl')).
Proof.
  intros Hsh Hx. unfold CM.lbfgs_f.
  rewrite (assign_spec ts (CM.weights (CM.self w)) x Hsh Hx).
  destruct (evaluate_whole ds sw "optim"
              (CM.with_self w (CM.set_params (CM.self w)
                                 (Tf.unflatten (Tf.shape_n ts) x)
                                 (CM.opt_state (CM.self w))))) as [l Hl].
  rewrite Hl. eexists. eexists. reflexivity.
Qed.

Lemma run_minimizer_ok (ts : list (Tf.tensor R)) (ds : CM.dataset X)
    (sw : option (list R)) (mz : CM.minimizer) :
  forall (w : CM.world Slots C) (cl : CM.closure),
  Tf.shape_n (CM.weights (CM.self w)) = Tf.shape_n ts ->
  CM.sized (Tf.total (Tf.sizes ts)) mz ->
  exists results w1 cl1,
    CM.run_minimizer (Tf.make_adapter ts) ds sw mz (w, cl) = (Ok results, (w1, cl1))
    /\ Tf.shape_n (CM.weights (CM.self w1)) = Tf.shape_n ts
    /\ length (CM.position results) = Tf.total (Tf.sizes ts).
Proof.
  induction mz as [r | x k IH]; intros w cl Hsh Hsz.
  - simpl in *. exists r, w, cl. repeat split; assumption.
  - simpl in Hsz. destruct Hsz as [Hx Hk].
    destruct (lbfgs_f_ok ts ds sw x w cl Hsh Hx) as (answer & cl' & Hf).
    cbn [CM.run_minimizer]. rewrite Hf.
    apply IH.
    + simpl. apply (unflatten_spec (Tf.shape_n ts) x). exact Hx.
    + apply Hk.
Qed.

End LbfgsFacts.

(** C5. (1) Flattening well-shaped parameter tensors with the adapter's
    stitch indices and assigning the flat vector back through the adapter's
    partition indices gives back exactly the same tensors (for entries of any
    type, so whatever the bits of a value are). (2) When the minimiser asks
    and reports points of the size of the flattened parameters,
    [_fit_with_lbfgs] returns, and the world it leaves is the world that the
    minimiser left with its reported position assigned once more: flattening
    the model's parameters then gives the reported position. *)
Theorem lbfgs_flatten_round_trip_and_final_position :
  (forall (A : Type) (d : A) (ts olds : list (Tf.tensor A)),
      Forall (@Tf.well_shaped A) ts ->
      Tf.shape_n olds = Tf.shape_n ts ->
      Tf.assign_new_model_parameters (Tf.make_adapter ts)
        (Tf.dynamic_stitch d (Tf.idx (Tf.make_adapter ts)) ts) olds = Ok ts) /\
  (forall (X Slots C : Type) (env : CM.Substrate X Slots C)
          (ds : CM.dataset X) (epochs_arg : option nat) (sw : option (list R))
          (w : CM.world Slots C),
      let ws := CM.weights (CM.self w) in
      let func := Tf.make_adapter ws in
      let mz :=
        CM.lbfgs_minimize (Tf.dynamic_stitch 0%R (Tf.idx func) ws)
          (match epochs_arg with Some e => e | None => CM.epochs (CM.self w) end)
          (CM.tolerance (CM.self w)) in
      CM.sized (Tf.total (Tf.sizes ws)) mz ->
      exists results w1 cl,
        CM.run_minimizer func ds sw mz (w, {| CM.f_iter := 0; CM.f_history := [] |})
          = (Ok results, (w1, cl)) /\
        CM.fit_with_lbfgs ds epochs_arg sw w
          = (Ok (CM.f_history cl, results),
             CM.with_self w1
               (CM.set_params (CM.self w1)
                  (Tf.unflatten (Tf.shape_n ws) (CM.position results))
                  (CM.opt_state (CM.self w1)))) /\
        Tf.dynamic_stitch 0%R (Tf.idx func)
          (CM.weights (CM.self (snd (CM.fit_with_lbfgs ds epochs_arg sw w))))
          = CM.position results).
Proof.
  split.
  - intros A d ts olds Hws Hsh.
    rewrite dynamic_stitch_flat by exact Hws.
    rewrite assign_spec.
    + rewrite unflatten_flat by exact Hws. reflexivity.
    + exact Hsh.
    + apply flat_length. exact Hws.
  - intros X Slots C env ds epochs_arg sw w ws func mz Hsz.
    destruct (run_minimizer_ok ws ds sw mz w {| CM.f_iter := 0; CM.f_history := [] |}
                eq_refl Hsz) as (results & w1 & cl & Hrun & Hsh & Hlen).
    exists results, w1, cl.
    assert (Hfit : CM.fit_with_lbfgs ds epochs_arg sw w
                   = (Ok (CM.f_history cl, results),
                      CM.with_self w1
                        (CM.set_params (CM.self w1)
                           (Tf.unflatten (Tf.shape_n ws) (CM.position results))
                           (CM.opt_state (CM.self w1))))).
    { unfold CM.fit_with_lbfgs. unfold mz, func, ws in Hrun. rewrite Hrun.
      unfold ws in Hsh, Hlen. rewrite (assign_spec _ _ _ Hsh Hlen). reflexivity. }
    split; [exact Hrun|]. split; [exact Hfit|].
    rewrite Hfit.
    cbn [snd CM.with_self CM.self CM.set_params CM.weights].
    destruct (unflatten_spec (Tf.shape_n ws) (CM.position results) Hlen)
      as (Hs & Hw & Hf).
    unfold func.
    rewrite (make_adapter_shapes ws (Tf.unflatten (Tf.shape_n ws) (CM.position results)))
      by (symmetry; exact Hs).
    rewrite dynamic_stitch_flat by exact Hw. exact Hf.
Qed.

Lemma toy_weights_well_shaped : Forall (@Tf.well_shaped R) Example.toy_weights.
Proof. repeat constructor. Qed.

(** The example model: two tensors of the shapes (2) and (1, 1); the example
    minimiser asks for one evaluation and reports the initial position. *)
Lemma lbfgs_flatten_round_trip_and_final_position_witness :
  Tf.assign_new_model_parameters (Tf.make_adapter Example.toy_weights)
    (Tf.dynamic_stitch 0%R (Tf.idx (Tf.make_adapter Example.toy_weights))
       Example.toy_weights)
    Example.toy_weights = Ok Example.toy_weights /\
  exists results w1 cl,
    CM.run_minimizer (Tf.make_adapter Example.toy_weights) Example.three_choices None
      (CM.lbfgs_minimize
         (Tf.dynamic_stitch 0%R (Tf.idx (Tf.make_adapter Example.toy_weights))
            Example.toy_weights) 3 0%R)
      (Example.toy_world, {| CM.f_iter := 0; CM.f_history := [] |})
      = (Ok results, (w1, cl)) /\
    CM.fit_with_lbfgs Example.three_choices None None Example.toy_world
      = (Ok (CM.f_history cl, results),
         CM.with_self w1
           (CM.set_params (CM.self w1)
              (Tf.unflatten (Tf.shape_n Example.toy_weights) (CM.position results))
              (CM.opt_state (CM.self w1)))) /\
    Tf.dynamic_stitch 0%R (Tf.idx (Tf.make_adapter Example.toy_weights))
      (CM.weights (CM.self (snd (CM.fit_with_lbfgs Example.three_choices None None
                                   Example.toy_world))))
      = CM.position results.
Proof.
  destruct lbfgs_flatten_round_trip_and_final_position as [H1 H2].
  split.
  - apply H1; [exact toy_weights_well_shaped | reflexivity].
  - apply (H2 unit nat nat Example.toy Example.three_choices None None
              Example.toy_world).
    simpl. split; [reflexivity | intros answer; reflexivity].
Defined.

(** ** The training loop *)

Section TraceFacts.

Lemma steps_of_app (e : nat) (a b : list CM.event) :
  CM.steps_of e (a ++ b) = CM.steps_of e a ++ CM.steps_of e b.
Proof.
  induction a as [|ev a IH]; simpl; [reflexivity|].
  destruct ev; try exact IH.
  destruct (epoch =? e); simpl; rewrite IH; reflexivity.
Qed.

Lemma stop_reads_app (a b : list CM.event) :
  CM.stop_reads (a ++ b) = CM.stop_reads a ++ CM.stop_reads b.
Proof.
  induction a as [|ev a IH]; simpl; [reflexivity|].
  destruct ev; try exact IH. simpl. rewrite IH. reflexivity.
Qed.

End TraceFacts.

Section FitFacts.
Context {X Slots C : Type} {env : CM.Substrate X Slots C}.

Lemma train_batches_trace (e : nat) (bs : list (CM.batch X * option (list R))) :
  forall (b0 : nat) (logs : list R) (st : CM.fstate) r st',
  CM.train_batches e b0 bs logs st = (r, st') ->
  exists seg,
    CM.ftrace st' = CM.ftrace st ++ seg /\
    CM.stop_reads seg = [] /\
    (forall e', e' <> e -> CM.steps_of e' seg = []) /\
    (forall logs', r = Ok logs' ->
       logs' = logs ++ map snd (CM.steps_of e seg) /\
       length (CM.steps_of e seg) = length bs /\
       (bs = [] -> CM.fvar st' = CM.fvar st) /\
       (bs <> [] -> exists lb, CM.fvar st' = Some lb /\
                     length lb = fst (last (CM.steps_of e seg) (0, 0%R)))).
Proof.
  induction bs as [|[b wb] bs IH]; intros b0 logs st r st' H.
  - simpl in H. injection H as <- <-. exists []. rewrite app_nil_r.
    repeat split; try reflexivity.
    + injection H as <-. simpl. rewrite app_nil_r. reflexivity.
    + intros Hne. congruence.
  - cbn [CM.train_batches] in H.
    destruct (CM.train_step b wb _) as [[nll|ex] m'] eqn:Ets.
    + apply IH in H. destruct H as (seg & Htr & Hrd & Hoth & Hok).
      cbn [CM.ftrace CM.fvar] in *.
      exists ([CM.EvHook (CM.on_train_batch_begin b0);
               CM.EvTrainStep e b0 (length b) nll;
               CM.EvHook (CM.on_train_batch_end b0
                            [("train_loss"%string, CM.reduce_mean (logs ++ [nll]))])]
                ++ seg).
      split; [rewrite Htr, <- app_assoc; reflexivity|].
      split; [simpl; exact Hrd|].
      split.
      * intros e' He'. simpl.
        destruct (e =? e') eqn:E; [apply Nat.eqb_eq in E; congruence|].
        apply Hoth. exact He'.
      * intros logs' Hr. destruct (Hok logs' Hr) as (Hl & Hn & Hnil & Hcons).
        simpl. rewrite Nat.eqb_refl. simpl.
        split; [rewrite Hl, <- app_assoc; reflexivity|].
        split; [rewrite Hn; reflexivity|].
        split; [discriminate|].
        intros _. destruct bs as [|p bs].
        -- exists b. rewrite (Hnil eq_refl).
           destruct (CM.steps_of e seg); [|discriminate].
           split; reflexivity.
        -- destruct Hcons as (lb & Hlb & Hlen); [discriminate|].
           exists lb. split; [exact Hlb|].
           destruct (CM.steps_of e seg) as [|s ss]; [discriminate|].
           exact Hlen.
    + injection H as <- <-. cbn [CM.ftrace].
      exists [CM.EvHook (CM.on_train_batch_begin b0)].
      repeat split; try reflexivity; discriminate.
Qed.

Lemma val_batches_trace (e : nat) (bs : list (CM.batch X)) :
  forall (b0 : nat) (tl : list R) (st : CM.fstate) tl' st',
  CM.val_batches e b0 bs tl st = (tl', st') ->
  exists seg,
    CM.ftrace st' = CM.ftrace st ++ seg /\
    CM.stop_reads seg = [] /\
    (forall e', CM.steps_of e' seg = []).
Proof.
  induction bs as [|b bs IH]; intros b0 tl st tl' st' H.
  - simpl in H. injection H as <- <-. exists []. rewrite app_nil_r.
    repeat split.
  - cbn [CM.val_batches CM.batch_predict] in H.
    apply IH in H. destruct H as (seg & Htr & Hrd & Hst).
    cbn [CM.ftrace] in Htr.
    eexists (_ :: _ :: _ :: _ :: seg).
    split; [rewrite Htr, <- app_assoc; reflexivity|].
    split; [simpl; exact Hrd|].
    intros e'. simpl. apply Hst.
Qed.

Lemma removelast_map (A B : Type) (f : A -> B) (l : list A) :
  removelast (map f l) = map f (removelast l).
Proof.
  induction l as [|a l IH]; simpl; [reflexivity|].
  destruct l as [|b l]; simpl in *; [reflexivity|]. rewrite IH. reflexivity.
Qed.

Lemma last_map (A B : Type) (f : A -> B) (l : list A) (d : A) :
  last (map f l) (f d) = f (last l d).
Proof.
  induction l as [|a l IH]; simpl; [reflexivity|].
  destruct l as [|b l]; simpl in *; [reflexivity|]. exact IH.
Qed.

Lemma Ok_inj (A : Type) (a b : A) : Ok a = Ok b -> a = b.
Proof. intros H. injection H as H. exact H. Qed.

Lemma reduce_sum_cons (x : R) (xs : list R) :
  CM.reduce_sum (x :: xs) = (x + CM.reduce_sum xs)%R.
Proof. reflexivity. Qed.

Lemma multiply_coefficients_cons (c d : R) (losses : list R) :
  forall l0 : R,
  CM.reduce_sum
    (CM.multiply (l0 :: losses)
       (map (fun o => (o * c)%R) (CM.ones (length losses)) ++ [d]))
  = (CM.reduce_sum (map (fun l => (c * l)%R) (removelast (l0 :: losses)))
     + d * last (l0 :: losses) 0)%R.
Proof.
  induction losses as [|l1 losses IH]; intros l0.
  - simpl. lra.
  - change (CM.ones (length (l1 :: losses)))
      with (1%R :: CM.ones (length losses)).
    change (removelast (l0 :: l1 :: losses)) with (l0 :: removelast (l1 :: losses)).
    change (last (l0 :: l1 :: losses) 0%R) with (last (l1 :: losses) 0%R).
    cbn [map app].
    change (CM.multiply (l0 :: l1 :: losses)
              ((1 * c)%R :: map (fun o => (o * c)%R) (CM.ones (length losses)) ++ [d]))
      with ((l0 * (1 * c))%R
              :: CM.multiply (l1 :: losses)
                   (map (fun o => (o * c)%R) (CM.ones (length losses)) ++ [d])).
    rewrite !reduce_sum_cons, IH. lra.
Qed.

Lemma multiply_coefficients (c d : R) (losses : list R) :
  losses <> [] ->
  CM.reduce_sum
    (CM.multiply losses
       (map (fun o => (o * c)%R) (CM.ones (length losses - 1)) ++ [d]))
  = (CM.reduce_sum (map (fun l => (c * l)%R) (removelast losses))
     + d * last losses 0)%R.
Proof.
  destruct losses as [|l0 losses]; intros Hne; [congruence|].
  replace (length (l0 :: losses) - 1) with (length losses) by (simpl; lia).
  apply multiply_coefficients_cons.
Qed.

(** Lines 307-315 compute the loss that the specification describes. *)
Lemma pass_loss_claimed (bsz : Z) (steps : list (nat * R))
    (fv : option (CM.batch X)) (n : nat) (x : R) :
  CM.pass_loss bsz (map snd steps) fv n = Ok x ->
  (steps <> [] ->
   exists lb, fv = Some lb /\ length lb = fst (last steps (0, 0%R))) ->
  x = CM.claimed_epoch_loss bsz steps n.
Proof.
  unfold CM.pass_loss, CM.claimed_epoch_loss. intros H Hlast.
  destruct (bsz =? -1)%Z; cbn [negb] in H; cbv iota in H.
  - injection H as <-. unfold CM.reduce_mean. rewrite length_map. reflexivity.
  - destruct fv as [lb|]; [|discriminate].
    destruct steps as [|s steps]; [discriminate|].
    destruct Hlast as (lb' & Hlb & Hlen); [discriminate|].
    injection Hlb as <-.
    remember (map snd (s :: steps)) as losses eqn:El.
    destruct losses as [|r l]; [discriminate El|].
    apply Ok_inj in H. subst x. rewrite El.
    rewrite multiply_coefficients by discriminate.
    rewrite removelast_map, map_map.
    change 0%R with (snd (0%nat, 0%R)) at 1. rewrite last_map.
    rewrite Hlen. reflexivity.
Qed.

Lemma run_epoch_trace (ds : CM.dataset X) (sw : option (list R))
    (val : option (CM.dataset X)) (bsz : Z) (e : nat) (hist : CM.history)
    (st : CM.fstate) h1 logs st1 :
  CM.run_epoch ds sw val bsz e hist st = (Ok (h1, logs), st1) ->
  exists body,
    CM.ftrace st1 = CM.ftrace st ++ body /\
    CM.complete_epoch e body /\
    (forall e', e' <> e -> CM.steps_of e' body = []) /\
    CM.train_loss h1
      = CM.train_loss hist
          ++ [CM.claimed_epoch_loss bsz (CM.steps_of e body) (length ds)].
Proof.
  unfold CM.run_epoch. cbv zeta.
  set (w1 := CM.callbacks (CM.on_epoch_begin e) (CM.fw st)).
  set (ir := CM.inner_range ds sw bsz (CM.rng w1)).
  destruct (CM.train_batches e 0 ir [] _) as [[epoch_losses|ex] st2] eqn:Etb;
    [|discriminate].
  apply train_batches_trace in Etb.
  destruct Etb as (seg & Htr & Hrd & Hoth & Hok).
  destruct (Hok epoch_losses eq_refl) as (Hl & Hn & Hnil & Hcons).
  cbn [CM.ftrace CM.fvar] in *. simpl in Hl. subst epoch_losses.
  destruct (CM.pass_loss bsz _ (CM.fvar st2) (length ds)) as [epoch_loss|ex] eqn:Epl;
    [|discriminate].
  apply pass_loss_claimed in Epl.
  2:{ intros Hne. apply Hcons. intros Hir. rewrite Hir in Hn.
      destruct (CM.steps_of e seg); [congruence | discriminate]. }
  destruct val as [vds|].
  - destruct (CM.val_batches e 0 _ [] st2) as [test_losses st3] eqn:Evb.
    apply val_batches_trace in Evb. destruct Evb as (vseg & Hvtr & Hvrd & Hvst).
    intros H. injection H as <- <- <-. cbn [CM.ftrace CM.train_loss].
    eexists (_ :: _ :: (seg ++ vseg) ++ [_]).
    split; [rewrite Hvtr, Htr; repeat rewrite <- app_assoc; reflexivity|].
    split; [|split].
    + eexists _, (seg ++ vseg), _. split; [reflexivity|]. split.
      * rewrite steps_of_app, Hvst, app_nil_r. exact Hn.
      * rewrite stop_reads_app, Hrd, Hvrd. reflexivity.
    + intros e' He'. simpl. rewrite !steps_of_app, Hvst, Hoth by exact He'.
      reflexivity.
    + simpl. rewrite !steps_of_app, Hvst. simpl. rewrite !app_nil_r.
      rewrite Epl. reflexivity.
  - intros H. injection H as <- <- <-. cbn [CM.ftrace CM.train_loss].
    eexists (_ :: _ :: seg ++ [_]).
    split; [rewrite Htr; repeat rewrite <- app_assoc; reflexivity|].
    split; [|split].
    + eexists _, seg, _. split; [reflexivity|]. split; [exact Hn | exact Hrd].
    + intros e' He'. simpl. rewrite steps_of_app, Hoth by exact He'.
      reflexivity.
    + simpl. rewrite steps_of_app. simpl. rewrite app_nil_r.
      rewrite Epl. reflexivity.
Qed.

Lemma epoch_loop_trace (ds : CM.dataset X) (sw : option (list R))
    (val : option (CM.dataset X)) (bsz : Z) (n : nat) :
  forall (e : nat) (hist : CM.history) (last_logs : option CM.logs)
         (st : CM.fstate) h' last' st',
  CM.epoch_loop n e ds sw val bsz hist last_logs st = (Ok (h', last'), st') ->
  exists bodies flags,
    length bodies = length flags /\
    length flags <= n /\
    CM.ftrace st' = CM.ftrace st ++ CM.epochs_trace e bodies flags /\
    (forall i body, nth_error bodies i = Some body ->
       CM.complete_epoch (e + i) body /\
       forall e', e' <> e + i -> CM.steps_of e' body = []) /\
    (forall i, S i < length flags -> nth_error flags i = Some false) /\
    (length flags = n \/ nth_error flags (length flags - 1) = Some true) /\
    CM.train_loss h'
      = CM.train_loss hist ++ CM.claimed_losses bsz (length ds) e bodies /\
    (flags = [] -> last' = last_logs) /\
    (flags <> [] -> last' <> None).
Proof.
  induction n as [|n IH]; intros e hist last_logs st h' last' st' H.
  - simpl in H. injection H as <- <- <-. exists [], [].
    simpl. rewrite !app_nil_r.
    split; [reflexivity|]. split; [lia|]. split; [reflexivity|].
    split; [intros i body Hi; destruct i; discriminate|].
    split; [intros i Hi; lia|].
    split; [left; reflexivity|].
    split; [reflexivity|].
    split; [reflexivity | congruence].
  - cbn [CM.epoch_loop] in H.
    destruct (CM.run_epoch ds sw val bsz e hist st) as [[[h1 logs]|ex] st1] eqn:Er;
      [|discriminate].
    apply run_epoch_trace in Er.
    destruct Er as (body & Htr & Hce & Hoth & Hloss).
    destruct (CM.stop_training (CM.self (CM.fw st1))) eqn:Eflag.
    + injection H as <- <- <-. cbn [CM.ftrace CM.fw CM.print].
      exists [body], [true]. simpl.
      split; [reflexivity|]. split; [lia|].
      split; [rewrite Htr, <- app_assoc; reflexivity|].
      split.
      { intros [|i] b Hb; simpl in Hb.
        - injection Hb as <-. rewrite Nat.add_0_r. split; assumption.
        - destruct i; discriminate. }
      split; [intros i Hi; lia|].
      split; [right; reflexivity|].
      split; [exact Hloss|].
      split; [discriminate | discriminate].
    + apply IH in H.
      destruct H as (bodies & flags & Hlen & Hle & Htr' & Hbodies & Hfalse & Hend
                     & Hloss' & Hlast0 & Hlast1).
      cbn [CM.ftrace] in Htr'.
      exists (body :: bodies), (false :: flags). simpl.
      split; [rewrite Hlen; reflexivity|]. split; [lia|].
      split; [rewrite Htr', Htr; repeat rewrite <- app_assoc; reflexivity|].
      split.
      { intros [|i] b Hb; simpl in Hb.
        - injection Hb as <-. rewrite Nat.add_0_r. split; assumption.
        - replace (e + S i) with (S e + i) by lia. apply Hbodies. exact Hb. }
      split.
      { intros [|i] Hi; simpl; [reflexivity|]. apply Hfalse. lia. }
      split.
      { destruct Hend as [Hend|Hend]; [left; lia|]. right.
        destruct flags as [|f flags]; [destruct (0 - 1); discriminate|].
        simpl in *. rewrite Nat.sub_0_r in *. exact Hend. }
      split; [rewrite Hloss', Hloss, <- app_assoc; reflexivity|].
      split; [discriminate|].
      intros _. destruct flags as [|f flags].
      * rewrite (Hlast0 eq_refl). discriminate.
      * apply Hlast1. discriminate.
Qed.

Lemma complete_epoch_no_read (e : nat) (body : list CM.event) :
  CM.complete_epoch e body -> CM.stop_reads body = [].
Proof.
  intros (n & mid & l & -> & _ & Hmid). simpl.
  rewrite stop_reads_app, Hmid. reflexivity.
Qed.

Lemma epochs_trace_reads (bodies : list (list CM.event)) :
  forall (e : nat) (flags : list bool),
  length bodies = length flags ->
  (forall i body, nth_error bodies i = Some body -> CM.stop_reads body = []) ->
  CM.stop_reads (CM.epochs_trace e bodies flags) = combine (seq e (length flags)) flags.
Proof.
  induction bodies as [|body bodies IH]; intros e [|f flags] Hlen Hb;
    simpl in *; try discriminate; [reflexivity|].
  rewrite stop_reads_app, (Hb 0 body eq_refl). simpl. f_equal.
  apply IH; [congruence|]. intros i b Hi. apply (Hb (S i)). exact Hi.
Qed.





(** *** [fit] returns *)

Lemma train_step_ok (b : CM.batch X) (wb : option (list R)) (m : CM.model Slots) :
  CM.optimizer m <> None ->
  exists l m', CM.train_step b wb m = (Ok l, m') /\ CM.optimizer m' = CM.optimizer m.
Proof.
  intros Ho. unfold CM.train_step.
  destruct (CM.optimizer m) as [opt|] eqn:E; [|congruence].
  destruct (CM.apply_gradients opt (CM.opt_state m) _) as [o' ws'].
  eexists. eexists. split; [reflexivity|]. simpl. exact E.
Qed.

Lemma train_batches_ok (e : nat) (bs : list (CM.batch X * option (list R))) :
  CM.keeps_optimizer env ->
  forall (b0 : nat) (logs : list R) (st : CM.fstate),
  CM.optimizer (CM.self (CM.fw st)) <> None ->
  exists logs' st',
    CM.train_batches e b0 bs logs st = (Ok logs', st') /\
    CM.optimizer (CM.self (CM.fw st')) <> None.
Proof.
  intros Hk. induction bs as [|[b wb] bs IH]; intros b0 logs st Ho.
  - simpl. eexists. eexists. split; [reflexivity | exact Ho].
  - cbn [CM.train_batches].
    destruct (train_step_ok b wb
                (CM.self (CM.callbacks (CM.on_train_batch_begin b0) (CM.fw st))))
      as (l & m' & Hts & Hopt).
    { apply Hk. exact Ho. }
    rewrite Hts. apply IH. cbn [CM.fw]. apply Hk.
    cbn [CM.with_self CM.self]. rewrite Hopt. apply Hk. exact Ho.
Qed.

Lemma val_batches_ok (e : nat) (bs : list (CM.batch X)) :
  CM.keeps_optimizer env ->
  forall (b0 : nat) (tl : list R) (st : CM.fstate),
  CM.optimizer (CM.self (CM.fw st)) <> None ->
  CM.optimizer (CM.self (CM.fw (snd (CM.val_batches e b0 bs tl st)))) <> None.
Proof.
  intros Hk. induction bs as [|b bs IH]; intros b0 tl st Ho.
  - simpl. exact Ho.
  - cbn [CM.val_batches CM.batch_predict]. apply IH. cbn [CM.fw].
    apply Hk. rewrite with_self_self. apply Hk. apply Hk. exact Ho.
Qed.

Lemma pass_loss_ok (bsz : Z) (losses : list R) (fv : option (CM.batch X)) (n : nat) :
  bsz = (-1)%Z \/ (losses <> [] /\ fv <> None) ->
  exists x, CM.pass_loss bsz losses fv n = Ok x.
Proof.
  unfold CM.pass_loss. intros [->|[Hl Hf]].
  - simpl. eexists. reflexivity.
  - destruct (negb (bsz =? -1)%Z); [|eexists; reflexivity].
    destruct fv as [lb|]; [|congruence].
    destruct losses; [congruence|]. eexists. reflexivity.
Qed.

Lemma run_epoch_ok (ds : CM.dataset X) (sw : option (list R))
    (val : option (CM.dataset X)) (bsz : Z) (e : nat) (hist : CM.history)
    (st : CM.fstate) :
  CM.keeps_optimizer env ->
  bsz = (-1)%Z \/ CM.yields_batches env ds sw bsz ->
  CM.optimizer (CM.self (CM.fw st)) <> None ->
  exists h1 logs st1,
    CM.run_epoch ds sw val bsz e hist st = (Ok (h1, logs), st1) /\
    CM.optimizer (CM.self (CM.fw st1)) <> None.
Proof.
  intros Hk Hy Ho. unfold CM.run_epoch. cbv zeta.
  set (w1 := CM.callbacks (CM.on_epoch_begin e) (CM.fw st)).
  set (ir := CM.inner_range ds sw bsz (CM.rng w1)).
  set (st1 := {| CM.fw := CM.next_rng w1; CM.ftrace := _; CM.fvar := CM.fvar st |}).
  assert (Ho1 : CM.optimizer (CM.self (CM.fw st1)) <> None).
  { unfold st1, w1. cbn [CM.fw CM.next_rng CM.self]. apply Hk. exact Ho. }
  destruct (train_batches_ok e ir Hk 0 [] st1 Ho1) as (losses & st2 & Htb & Ho2).
  rewrite Htb.
  destruct (train_batches_trace e ir 0 [] st1 Htb) as (seg & _ & _ & _ & Hok).
  destruct (Hok losses eq_refl) as (Hl & Hn & _ & Hcons).
  destruct (@pass_loss_ok bsz losses (CM.fvar st2) (length ds)) as [x Hx].
  { destruct Hy as [Hy|Hy]; [left; exact Hy | right].
    assert (Hir : ir <> []) by apply Hy.
    split.
    - rewrite Hl. simpl. intros Hnil. apply map_eq_nil in Hnil.
      rewrite Hnil in Hn. destruct ir; [congruence | discriminate].
    - destruct (Hcons Hir) as (lb & Hlb & _). congruence. }
  rewrite Hx.
  destruct val as [vds|].
  - pose proof (val_batches_ok e (CM.iter_batch vds false bsz (CM.rng (CM.fw st2)))
                  Hk 0 [] st2 Ho2) as Hv.
    destruct (CM.val_batches e 0 _ [] st2) as [tl st3]. simpl in Hv.
    eexists. eexists. eexists. split; [reflexivity|].
    cbn [CM.fw]. apply Hk. exact Hv.
  - eexists. eexists. eexists. split; [reflexivity|].
    cbn [CM.fw]. apply Hk. exact Ho2.
Qed.

Lemma epoch_loop_ok (ds : CM.dataset X) (sw : option (list R))
    (val : option (CM.dataset X)) (bsz : Z) (n : nat) :
  CM.keeps_optimizer env ->
  bsz = (-1)%Z \/ CM.yields_batches env ds sw bsz ->
  forall (e : nat) (hist : CM.history) (last_logs : option CM.logs) (st : CM.fstate),
  CM.optimizer (CM.self (CM.fw st)) <> None ->
  exists h' last' st',
    CM.epoch_loop n e ds sw val bsz hist last_logs st = (Ok (h', last'), st').
Proof.
  intros Hk Hy. induction n as [|n IH]; intros e hist last_logs st Ho.
  - simpl. eexists. eexists. eexists. reflexivity.
  - cbn [CM.epoch_loop].
    destruct (@run_epoch_ok ds sw val bsz e hist st Hk Hy Ho) as (h1 & logs & st1 & Hr & Ho1).
    rewrite Hr.
    destruct (CM.stop_training (CM.self (CM.fw st1))).
    + eexists. eexists. eexists. reflexivity.
    + apply IH. cbn [CM.fw]. exact Ho1.
Qed.

(** *** The whole of [fit] *)

Lemma fit_trace (ds : CM.dataset X) (sw : option (list R))
    (val : option (CM.dataset X)) (ea : option nat) (ba : option Z)
    (w : CM.world Slots C) hist w' tr :
  CM.fit ds sw val ea ba w = (Ok hist, w', tr) ->
  exists bodies flags logs,
    tr = CM.EvHook CM.on_train_begin
           :: CM.epochs_trace 0 bodies flags ++ [CM.EvHook (CM.on_train_end logs)] /\
    length bodies = length flags /\
    1 <= length flags /\
    length flags <= match ea with Some e => e | None => CM.epochs (CM.self w) end /\
    (forall i body, nth_error bodies i = Some body ->
       CM.complete_epoch i body /\
       forall e', e' <> i -> CM.steps_of e' body = []) /\
    (forall i, S i < length flags -> nth_error flags i = Some false) /\
    (length flags = match ea with Some e => e | None => CM.epochs (CM.self w) end
     \/ nth_error flags (length flags - 1) = Some true) /\
    CM.train_loss hist
      = CM.claimed_losses
          (match ba with Some b => b | None => CM.batch_size (CM.self w) end)
          (length ds) 0 bodies.
Proof.
  unfold CM.fit. intros H.
  assert (Hrun :
    match CM.epoch_loop
            (match ea with Some e => e | None => CM.epochs (CM.self w) end) 0 ds sw val
            (match ba with Some b => b | None => CM.batch_size (CM.self w) end)
            {| CM.train_loss := []; CM.test_loss := [] |} None
            {| CM.fw := CM.callbacks CM.on_train_begin w;
               CM.ftrace := [CM.EvHook CM.on_train_begin];
               CM.fvar := None |} with
    | (Raise e, st1) => (Raise e, CM.fw st1, CM.ftrace st1)
    | (Ok (_, None), st1) =>
        (Raise (NameError "local variable 'train_logs' referenced before assignment"),
         CM.fw st1, CM.ftrace st1)
    | (Ok (hist, Some temps_logs), st1) =>
        (Ok hist, CM.callbacks (CM.on_train_end temps_logs) (CM.fw st1),
         CM.ftrace st1 ++ [CM.EvHook (CM.on_train_end temps_logs)])
    end = (Ok hist, w', tr)).
  { destruct (CM.instantiated (CM.self w)) as [[|]|]; try exact H. discriminate. }
  clear H.
  destruct (CM.epoch_loop _ 0 ds sw val _ _ None _) as [[[h' [logs|]]|ex] st1] eqn:El;
    try discriminate.
  injection Hrun as <- <- <-.
  apply epoch_loop_trace in El.
  destruct El as (bodies & flags & Hlen & Hle & Htr & Hbodies & Hfalse & Hend
                  & Hloss & Hlast0 & _).
  cbn [CM.ftrace CM.train_loss] in *.
  exists bodies, flags, logs.
  split; [rewrite Htr; reflexivity|].
  split; [exact Hlen|].
  split.
  { destruct flags; [|simpl; lia]. specialize (Hlast0 eq_refl). discriminate. }
  split; [exact Hle|].
  split; [exact Hbodies|].
  split; [exact Hfalse|].
  split; [exact Hend|].
  exact Hloss.
Qed.

Lemma fit_ok (ds : CM.dataset X) (sw : option (list R))
    (val : option (CM.dataset X)) (ea : option nat) (ba : option Z)
    (w : CM.world Slots C) :
  CM.instantiated (CM.self w) <> Some false ->
  0 < match ea with Some e => e | None => CM.epochs (CM.self w) end ->
  CM.optimizer (CM.self w) <> None ->
  CM.keeps_optimizer env ->
  match ba with Some b => b | None => CM.batch_size (CM.self w) end = (-1)%Z
  \/ CM.yields_batches env ds sw
       (match ba with Some b => b | None => CM.batch_size (CM.self w) end) ->
  exists hist w' tr, CM.fit ds sw val ea ba w = (Ok hist, w', tr).
Proof.
  intros Hi He Ho Hk Hy. unfold CM.fit.
  set (n := match ea with Some e => e | None => CM.epochs (CM.self w) end) in *.
  set (bsz := match ba with Some b => b | None => CM.batch_size (CM.self w) end) in *.
  set (st0 := {| CM.fw := CM.callbacks CM.on_train_begin w;
                 CM.ftrace := [CM.EvHook CM.on_train_begin];
                 CM.fvar := None |}).
  assert (Ho0 : CM.optimizer (CM.self (CM.fw st0)) <> None).
  { unfold st0. cbn [CM.fw]. apply Hk. exact Ho. }
  destruct (@epoch_loop_ok ds sw val bsz n Hk Hy 0
              {| CM.train_loss := []; CM.test_loss := [] |} None st0 Ho0)
    as (h' & last' & st' & Hl).
  assert (Hres : exists hist w' tr,
    match CM.epoch_loop n 0 ds sw val bsz
            {| CM.train_loss := []; CM.test_loss := [] |} None st0 with
    | (Raise e, st1) => (Raise e, CM.fw st1, CM.ftrace st1)
    | (Ok (_, None), st1) =>
        (Raise (NameError "local variable 'train_logs' referenced before assignment"),
         CM.fw st1, CM.ftrace st1)
    | (Ok (hist, Some temps_logs), st1) =>
        (Ok hist, CM.callbacks (CM.on_train_end temps_logs) (CM.fw st1),
         CM.ftrace st1 ++ [CM.EvHook (CM.on_train_end temps_logs)])
    end = (Ok hist, w', tr)).
  { rewrite Hl. destruct last' as [logs|].
    - eexists. eexists. eexists. reflexivity.
    - exfalso. apply epoch_loop_trace in Hl.
      destruct Hl as (bodies & flags & _ & _ & _ & _ & _ & Hend & _ & _ & Hlast1).
      destruct flags as [|f flags].
      + destruct Hend as [Hend|Hend]; simpl in Hend; [lia | discriminate].
      + apply Hlast1; [discriminate | reflexivity]. }
  destruct (CM.instantiated (CM.self w)) as [[|]|]; try exact Hres. congruence.
Qed.

End FitFacts.





(** C9. Whenever [fit] returns, its trace is [on_train_begin], then for
    each epoch that ran the events of the whole epoch (every batch that the
    iterator yields gets its training step, whatever the callbacks do to the
    stop flag meanwhile) followed by exactly one reading of
    [self.stop_training], which comes right after [on_epoch_end]; then
    [on_train_end]. Every reading but the last found the flag unset, and the
    loop ended either with the last epoch asked for or with a reading that
    found the flag set, after which no further epoch starts. And [fit] does
    return under the conditions stated for the epoch loss. *)
Theorem fit_reads_stop_flag_once_per_epoch
    (X Slots C : Type) (env : CM.Substrate X Slots C)
    (ds : CM.dataset X) (sw : option (list R)) (val : option (CM.dataset X))
    (ea : option nat) (ba : option Z) (w : CM.world Slots C) :
  let n_epochs := match ea with Some e => e | None => CM.epochs (CM.self w) end in
  let bsz := match ba with Some b => b | None => CM.batch_size (CM.self w) end in
  (forall hist w' tr,
      CM.fit ds sw val ea ba w = (Ok hist, w', tr) ->
      exists bodies flags logs,
        tr = CM.EvHook CM.on_train_begin
               :: CM.epochs_trace 0 bodies flags
               ++ [CM.EvHook (CM.on_train_end logs)] /\
        length bodies = length flags /\
        1 <= length flags <= n_epochs /\
        (forall e body, nth_error bodies e = Some body -> CM.complete_epoch e body) /\
        (forall e, S e < length flags -> nth_error flags e = Some false) /\
        (length flags = n_epochs \/ nth_error flags (length flags - 1) = Some true) /\
        CM.stop_reads tr = combine (seq 0 (length flags)) flags) /\
  (CM.instantiated (CM.self w) <> Some false ->
   0 < n_epochs ->
   CM.optimizer (CM.self w) <> None ->
   CM.keeps_optimizer env ->
   bsz = (-1)%Z \/ CM.yields_batches env ds sw bsz ->
   exists hist w' tr, CM.fit ds sw val ea ba w = (Ok hist, w', tr)).
Proof.
  intros n_epochs bsz. split.
  - intros hist w' tr H. apply fit_trace in H.
    destruct H as (bodies & flags & logs & -> & Hlen & H1 & Hle & Hbodies & Hfalse
                   & Hend & _).
    exists bodies, flags, logs.
    split; [reflexivity|]. split; [exact Hlen|]. split; [split; assumption|].
    split; [intros e body He; apply Hbodies; exact He|].
    split; [exact Hfalse|]. split; [exact Hend|].
    simpl. rewrite stop_reads_app, epochs_trace_reads.
    + simpl. apply app_nil_r.
    + exact Hlen.
    + intros i body Hi. apply (complete_epoch_no_read (e:=i)). apply Hbodies. exact Hi.
  - intros Hi He Ho Hk Hy. apply fit_ok; assumption.
Qed.

(** The same run: the stop is requested at the end of the first batch of
    epoch 1; epoch 1 still trains on its second batch, the flag is read after
    each of the two epochs, and the third epoch does not start. *)
Lemma fit_reads_stop_flag_once_per_epoch_witness :
  exists hist w' tr,
    CM.fit Example.three_choices None None None None Example.toy_world
      = (Ok hist, w', tr) /\
    CM.stop_reads tr = [(0, false); (1, true)] /\
    length (CM.steps_of 1 tr) = 2 /\
    exists bodies flags logs,
      tr = CM.EvHook CM.on_train_begin
             :: CM.epochs_trace 0 bodies flags
             ++ [CM.EvHook (CM.on_train_end logs)] /\
      length bodies = length flags /\
      1 <= length flags <= 3 /\
      (forall e body, nth_error bodies e = Some body -> CM.complete_epoch e body) /\
      (forall e, S e < length flags -> nth_error flags e = Some false) /\
      (length flags = 3 \/ nth_error flags (length flags - 1) = Some true) /\
      CM.stop_reads tr = combine (seq 0 (length flags)) flags.
Proof.
  destruct (fit_reads_stop_flag_once_per_epoch Example.toy Example.three_choices
              None None None None Example.toy_world) as [HA _].
  eexists. eexists. eexists.
  split; [vm_compute; reflexivity|].
  split; [vm_compute; reflexivity|].
  split; [vm_compute; reflexivity|].
  eapply HA. vm_compute. reflexivity.
Defined.

(** ** The latent-class mixture *)

(** C2. With [fit_method] "EM" in any mix of cases, [fit] sets [self.minf],
    prints its warning and then raises [TypeError]: it calls [_em_fit] with
    the keyword [sample_weight], which [_em_fit(self, dataset, verbose=0)]
    does not accept. No model is fitted, no E-step or M-step runs and no
    history is returned. *)
Theorem fit_em_raises_type_error
    (F X D H M : Type) (sc : Num.Scalar F) (env : LC.Substrate F X D H M)
    (ds : D) (sample_weight : option (list F)) (s : @LC.lmodel F H M) :
  PyStr.lower (LC.fit_method s) = "em"%string ->
  LC.fit ds sample_weight s
    = (Raise (TypeError "_em_fit() got an unexpected keyword argument 'sample_weight'"),
       LC.set_rng_out (LC.set_minf s (Num.log (Num.of_R (1 / 1000))))
         (LC.rng s)
         (LC.out s ++
            ["Expectation-Maximization estimation algorithm not well implemented yet."%string])).
Proof.
  intros Hm. unfold LC.fit, LC.mbind. rewrite Hm. reflexivity.
Qed.

Lemma fit_em_raises_type_error_witness :
  fst (LC.fit LatentExample.one_choice None (LatentExample.real_mixture "eM"))
    = Raise (TypeError "_em_fit() got an unexpected keyword argument 'sample_weight'").
Proof.
  rewrite (@fit_em_raises_type_error _ _ _ _ _ _ LatentExample.toy_real);
    reflexivity.
Defined.

(** C7 as stated fails: the model is not left in its state before the NaN.
    For the mixture whose sub-models predict NaN, the first iteration
    computes a prior of NaN, [_em_fit] stores it in [self.latent_logits]
    before it tests it, and the model keeps it. *)
Lemma em_fit_keeps_the_nan_prior :
  let run := LC.em_fit (env := LatentExample.toy_xfloat) LatentExample.one_choice
               LatentExample.diverged_mixture in
  fst run = Ok ([[Num.NaN; Num.NaN]], [Num.NaN]) /\
  LC.latent_logits (snd run) = Some [Num.NaN; Num.NaN] /\
  LC.latent_logits (snd run) <> LC.latent_logits LatentExample.diverged_mixture /\
  LC.out (snd run) = ["Nan in probas"; "Nan in logits"]%string.
Proof.
  vm_compute. repeat split; try reflexivity. discriminate.
Qed.

(** C7, amended. In an iteration of the EM loop whose E-step and M-step
    return and whose new prior contains a NaN, [_em_fit] stores that prior in
    [self.latent_logits], appends it and the loss to the histories, prints
    "Nan in logits" and returns the histories at once, whatever the number of
    iterations left: the model keeps the prior with the NaN and the
    sub-models that the M-step refitted. *)
Theorem em_loop_stops_on_nan_prior
    (F X D H M : Type) (sc : Num.Scalar F) (env : LC.Substrate F X D H M)
    (ds : D) (n : nat) (hist_logits : list (list F)) (hist_loss : list F)
    (s s1 s2 : @LC.lmodel F H M) (e : list (list F) * F) (p : list F) :
  LC.expectation ds s = (Ok e, s1) ->
  LC.maximization ds (LC.set_weights s1 (fst e)) = (Ok p, s2) ->
  LC.has_nan p = true ->
  LC.em_loop ds (S n) hist_logits hist_loss s
    = (Ok (hist_logits ++ [p], hist_loss ++ [snd e]),
       LC.set_rng_out (LC.set_latent_logits s2 p) (LC.rng s2)
         (LC.out s2 ++ ["Nan in logits"%string])) /\
  LC.latent_logits (snd (LC.em_loop ds (S n) hist_logits hist_loss s)) = Some p.
Proof.
  intros He Hm Hn.
  assert (Hrun : LC.em_loop ds (S n) hist_logits hist_loss s
    = (Ok (hist_logits ++ [p], hist_loss ++ [snd e]),
       LC.set_rng_out (LC.set_latent_logits s2 p) (LC.rng s2)
         (LC.out s2 ++ ["Nan in logits"%string]))).
  { cbn [LC.em_loop]. unfold LC.mbind at 1. rewrite He.
    unfold LC.mbind at 1. unfold LC.update at 1.
    unfold LC.mbind at 1. rewrite Hm.
    unfold LC.mbind at 1. unfold LC.update at 1.
    rewrite Hn. reflexivity. }
  split; [exact Hrun|]. rewrite Hrun. reflexivity.
Qed.

Lemma em_loop_stops_on_nan_prior_witness :
  LC.latent_logits
    (snd (LC.em_loop (env := LatentExample.toy_xfloat) LatentExample.one_choice 3 [] []
            LatentExample.diverged_mixture))
    = Some [Num.NaN; Num.NaN].
Proof.
  eapply (@em_loop_stops_on_nan_prior _ _ _ _ _ _ LatentExample.toy_xfloat).
  - vm_compute. reflexivity.
  - vm_compute. reflexivity.
  - reflexivity.
Defined.

Section FloatFacts.
Open Scope R_scope.

Lemma xdiv_fin (a b : R) :
  b <> 0 -> Num.xdiv (Num.Fin a) (Num.Fin b) = Num.Fin (a / b).
Proof.
  intros Hb. unfold Num.xdiv. destruct (Req_EM_T b 0); [contradiction | reflexivity].
Qed.

Lemma xlog_negative (r : R) : r < 0 -> Num.xlog (Num.Fin r) = Num.NaN.
Proof.
  intros Hr. unfold Num.xlog.
  destruct (Rlt_dec 0 r); [lra|]. destruct (Req_EM_T r 0); [lra | reflexivity].
Qed.

Lemma epsilon_small : 1 / 10 ^ 10 < 1 / 1000.
Proof. simpl. lra. Qed.

End FloatFacts.

(** C6 fails on the code at the first E-step of a freshly instantiated
    mixture of two classes. [__init__] and [instantiate] give one free logit
    (here -0.01) for the two classes; [_expectation] multiplies the predicted
    probabilities by the entries of [self.latent_logits] themselves, and [zip]
    stops after the one logit: the responsibilities have one column for two
    classes (every entry is 1), the class weight is the negative logit and
    not a prior, and the log-likelihood is the logarithm of a negative number,
    NaN. *)
Theorem expectation_of_fresh_mixture_uses_logits :
  (s0 <- LC.init (M := LatentExample.table Num.xfloat) 2
           (inl [LatentExample.finite_table; LatentExample.finite_table])
           "EM" 3 None false ;;
   Ok (snd (LC.instantiate s0)))%result = Ok LatentExample.fresh_mixture /\
  LC.n_latent_classes LatentExample.fresh_mixture = 2 /\
  LC.expectation (env := LatentExample.toy_xfloat) LatentExample.one_choice
    LatentExample.fresh_mixture
    = (Ok ([[Num.Fin 1]], Num.NaN), LatentExample.fresh_mixture).
Proof.
  split; [reflexivity|]. split; [reflexivity|].
  cbn -[Num.xlog Num.xdiv Rdiv pow Rplus Rmult Ropp].
  pose proof epsilon_small as Ht.
  rewrite xdiv_fin by lra. rewrite xlog_negative by lra.
  cbn [Num.xadd]. unfold LC.ret. repeat f_equal. field; lra.
Qed.

Section MixtureFacts.
Open Scope R_scope.

Lemma combine_map_same (A B1 B2 : Type) (f : A -> B1) (g : A -> B2) (l : list A) :
  combine (map f l) (map g l) = map (fun x => (f x, g x)) l.
Proof. induction l as [|a l IH]; simpl; [|rewrite IH]; reflexivity. Qed.

Lemma zip_with_map_same (A : Type) (f g : A -> R) (l : list A) :
  LC.zip_with Rplus (map f l) (map g l) = map (fun x => f x + g x) l.
Proof. induction l as [|a l IH]; simpl; [|rewrite IH]; reflexivity. Qed.

(** Scaling one tensor by [p] and by [q] and adding gives the tensor scaled
    by [p + q]. *)
Lemma add3_scale3 (t : list (list (list R))) (p q : R) :
  LC.add3 (LC.scale3 t p) (LC.scale3 t q) = LC.scale3 t (p + q).
Proof.
  unfold LC.add3, LC.scale3. rewrite combine_map_same, map_map.
  apply map_ext. intros m. cbn [fst snd].
  rewrite combine_map_same, map_map. apply map_ext. intros r. cbn [fst snd].
  rewrite zip_with_map_same. apply map_ext. intros x. simpl. ring.
Qed.

Lemma scale3_one (t : list (list (list R))) : LC.scale3 t 1 = t.
Proof.
  unfold LC.scale3.
  rewrite <- (map_id t) at 2. apply map_ext. intros m.
  rewrite <- (map_id m) at 2. apply map_ext. intros r.
  rewrite <- (map_id r) at 2. apply map_ext. intros x. simpl. ring.
Qed.

Lemma softmax_row_flat :
  Softmax.softmax_row [0; 0] [1; 1] false = [1 / 2; 1 / 2].
Proof.
  unfold Softmax.softmax_row. cbn [Softmax.available_max].
  destruct (Req_EM_T 1 0) as [H|_]; [lra|].
  cbn [Softmax.masked_exp map fold_right].
  replace (Rmax 0 0) with 0 by (symmetry; apply Rmax_left; lra).
  replace (0 - 0) with 0 by lra. rewrite exp_0.
  f_equal; [field|]. f_equal. field.
Qed.

Lemma softmax_row_steep :
  Softmax.softmax_row [1; 0] [1; 1] false
    = [1 / (1 + exp (-1)); exp (-1) / (1 + exp (-1))].
Proof.
  unfold Softmax.softmax_row. cbn [Softmax.available_max].
  destruct (Req_EM_T 1 0) as [H|_]; [lra|].
  cbn [Softmax.masked_exp map fold_right].
  replace (Rmax 1 0) with 1 by (symmetry; apply Rmax_left; lra).
  replace (1 - 1) with 0 by lra. replace (0 - 1) with (-1) by lra.
  rewrite exp_0. pose proof (exp_pos (-1)).
  f_equal; [field; lra|]. f_equal. field; lra.
Qed.

Lemma exp_minus_one_lt_one : exp (-1) < 1.
Proof. rewrite <- exp_0. apply exp_increasing. lra. Qed.

End MixtureFacts.

(** C1 fails on the code. (1) [BaseLatentClassModel.__init__] never sets
    [self.normalize_non_buy], which [batch_predict] reads: on the mixture as
    constructed and instantiated, [batch_predict] raises [AttributeError].
    (2) With the attribute set from outside, the loop passes [utilities], the
    list of the utilities of all classes, to the softmax instead of the
    utilities of the class at hand: the result is the tensor of rank 3 of the
    softmax of every class, in which the prior has cancelled, and none of its
    slices is the prior-weighted sum over the classes that the claim
    describes. *)
Theorem latent_batch_predict_is_not_the_mixture :
  let utilities := [[[0; 0]]; [[1; 0]]]%R in
  let availabilities := [[1; 1]]%R in
  fst (LC.batch_predict (env := LatentExample.toy_real) LatentExample.one_batch None
         (LatentExample.real_mixture "MLE"))
    = Raise (AttributeError "normalize_non_buy") /\
  fst (LC.batch_predict (env := LatentExample.toy_real) LatentExample.one_batch None
         LatentExample.real_mixture_with_exit_flag)
    = Ok ((0%R, 0%R),
          Softmax.softmax_with_availabilities3 utilities availabilities false) /\
  forall slice,
    In slice (Softmax.softmax_with_availabilities3 utilities availabilities false) ->
    slice <> Softmax.mixture (LC.prior_of [(- (1 / 100))%R]) utilities availabilities
               false.
Proof.
  intros utilities availabilities. split; [reflexivity|]. split.
  - cbn -[Softmax.softmax_with_availabilities3 LC.add3 LC.scale3 exp Rdiv Rplus
          Rmult Ropp].
    rewrite add3_scale3.
    replace (1 / (1 + (exp (- (1 / 100)) + 0))
             + exp (- (1 / 100)) / (1 + (exp (- (1 / 100)) + 0)))%R with 1%R.
    + rewrite scale3_one. reflexivity.
    + pose proof (exp_pos (- (1 / 100))). field. lra.
  - intros slice Hin. unfold utilities, availabilities in *.
    cbn [Softmax.softmax_with_availabilities3 Softmax.softmax_with_availabilities
         map combine fst snd] in Hin.
    unfold LC.prior_of.
    cbn [Softmax.mixture Softmax.softmax_with_availabilities map combine fst snd
         LC.zip_with].
    rewrite softmax_row_flat, softmax_row_steep in *.
    cbn -[exp Rdiv Rplus Rmult Ropp].
    pose proof (exp_pos (- (1 / 100))) as He.
    pose proof (exp_pos (-1)) as He1.
    pose proof exp_minus_one_lt_one as Hlt.
    set (e := exp (- (1 / 100))) in *. set (e1 := exp (-1)) in *.
    assert (Ha : (1 / 2 < 1 / (1 + e1))%R).
    { apply Rmult_lt_reg_r with (1 + e1)%R; [lra|]. field_simplify; lra. }
    assert (Hp1 : (0 < e / (1 + (e + 0)))%R) by (apply Rdiv_lt_0_compat; lra).
    assert (Hp0 : (0 < 1 / (1 + (e + 0)))%R) by (apply Rdiv_lt_0_compat; lra).
    assert (Hsum : (1 / (1 + (e + 0)) + e / (1 + (e + 0)) = 1)%R) by (field; lra).
    set (p0 := (1 / (1 + (e + 0)))%R) in *. set (p1 := (e / (1 + (e + 0)))%R) in *.
    set (a := (1 / (1 + e1))%R) in *.
    destruct Hin as [<-|[<-|[]]]; intros Heq; injection Heq as H0 _; nra.
Qed.

(** ** The class-membership prior *)

Section PriorFacts.
Open Scope R_scope.

Lemma vsum_cons (x : R) (l : list R) : LC.vsum (x :: l) = x + LC.vsum l.
Proof. reflexivity. Qed.

Lemma vsum_nil : LC.vsum (@nil R) = 0.
Proof. reflexivity. Qed.

Lemma vsum_div (l : list R) (d : R) :
  LC.vsum (map (fun p => p / d) l) = LC.vsum l / d.
Proof.
  induction l as [|x l IH]; cbn [map].
  - rewrite vsum_nil. unfold Rdiv. ring.
  - rewrite !vsum_cons, IH. unfold Rdiv. ring.
Qed.

Lemma vsum_exp_nonneg (l : list R) : 0 <= LC.vsum (map exp l).
Proof.
  induction l as [|x l IH]; cbn [map].
  - rewrite vsum_nil. lra.
  - rewrite vsum_cons. pose proof (exp_pos x). lra.
Qed.

Lemma prior_of_spec (logits : list R) :
  length (LC.prior_of logits) = S (length logits) /\
  LC.vsum (LC.prior_of logits) = 1 /\
  Forall (fun p => 0 < p) (LC.prior_of logits).
Proof.
  unfold LC.prior_of. cbv zeta.
  set (l := Num.of_R 1 :: map Num.exp logits).
  assert (Hpos : 0 < LC.vsum l).
  { unfold l. pose proof (vsum_exp_nonneg logits) as H.
    rewrite vsum_cons. change (Num.of_R 1) with 1. change (@Num.exp R _) with exp.
    lra. }
  split; [|split].
  - rewrite length_map. unfold l. simpl. rewrite length_map. reflexivity.
  - change (fun p : R => Num.div p (LC.vsum l)) with (fun p : R => p / LC.vsum l).
    rewrite vsum_div. field. lra.
  - apply Forall_map. unfold l. constructor.
    + cbn [Num.div Num.real_scalar Num.of_R].
      apply Rdiv_lt_0_compat; [lra | exact Hpos].
    + apply Forall_map. apply Forall_forall. intros x _.
      cbn [Num.div Num.real_scalar Num.exp].
      apply Rdiv_lt_0_compat; [apply exp_pos | exact Hpos].
Qed.

End PriorFacts.

Section MethodFacts.
Context {F X D H M : Type} {sc : Num.Scalar F} {env : LC.Substrate F X D H M}.

Lemma keeps_ret (A : Type) (a : A) :
  LC.keeps_logits (F:=F) (H:=H) (M:=M) (LC.ret a).
Proof. intros s. split; reflexivity. Qed.

Lemma keeps_raise (A : Type) (e : exn) :
  LC.keeps_logits (F:=F) (H:=H) (M:=M) (LC.raise (A:=A) e).
Proof. intros s. split; reflexivity. Qed.

Lemma keeps_lift (A : Type) (r : result A) :
  LC.keeps_logits (F:=F) (H:=H) (M:=M) (LC.lift r).
Proof. intros s. split; reflexivity. Qed.

Lemma keeps_attr (A : Type) (name : string) (proj : @LC.lmodel F H M -> option A) :
  LC.keeps_logits (LC.attr name proj).
Proof. intros s. unfold LC.attr. destruct (proj s); split; reflexivity. Qed.

Lemma keeps_read (A : Type) (f : @LC.lmodel F H M -> A) :
  LC.keeps_logits (fun s => (Ok (f s), s)).
Proof. intros s. split; reflexivity. Qed.

Lemma keeps_update (f : @LC.lmodel F H M -> @LC.lmodel F H M) :
  (forall s, LC.latent_logits (f s) = LC.latent_logits s /\
             LC.n_latent_classes (f s) = LC.n_latent_classes s) ->
  LC.keeps_logits (LC.update f).
Proof. intros Hf s. apply Hf. Qed.

Lemma keeps_print (line : string) : LC.keeps_logits (LC.print (F:=F) (H:=H) (M:=M) line).
Proof. intros s. split; reflexivity. Qed.

Lemma keeps_bind (A B : Type) (m : LC.method (F:=F) (H:=H) (M:=M) A)
    (k : A -> LC.method (F:=F) (H:=H) (M:=M) B) :
  LC.keeps_logits m -> (forall a, LC.keeps_logits (k a)) -> LC.keeps_logits (LC.mbind m k).
Proof.
  intros Hm Hk s. unfold LC.mbind. specialize (Hm s).
  destruct (m s) as [[a|e] s']; simpl in *.
  - destruct (Hk a s') as [H1 H2]. destruct Hm as [H3 H4].
    split; congruence.
  - exact Hm.
Qed.

Lemma map_result_length (A B : Type) (f : A -> result B) (l : list A) (bs : list B) :
  map_result f l = Ok bs -> length bs = length l.
Proof.
  revert bs. induction l as [|a l IH]; intros bs Hm; simpl in Hm.
  - injection Hm as <-. reflexivity.
  - destruct (f a) as [b|e]; simpl in Hm; [|discriminate].
    destruct (map_result f l) as [bs'|e]; simpl in Hm; [|discriminate].
    injection Hm as <-. simpl. rewrite (IH bs' eq_refl). reflexivity.
Qed.

Ltac keeps :=
  repeat first
    [ apply keeps_bind; [|intros ?]
    | apply keeps_ret
    | apply keeps_raise
    | apply keeps_lift
    | apply keeps_attr
    | apply keeps_read
    | apply keeps_print
    | apply keeps_update; intros ?; split; reflexivity ].

Lemma expectation_keeps (ds : D) : LC.keeps_logits (LC.expectation ds).
Proof.
  unfold LC.expectation. keeps.
  - destruct (existsb _ _); keeps.
  - destruct a3; keeps.
Qed.

Lemma fit_classes_keeps (ds : D) (qs : list nat) :
  LC.keeps_logits (LC.fit_classes ds qs).
Proof. induction qs as [|q qs IH]; cbn [LC.fit_classes]; keeps. exact IH. Qed.

Lemma maximization_keeps (ds : D) : LC.keeps_logits (LC.maximization ds).
Proof. unfold LC.maximization. keeps. apply fit_classes_keeps. Qed.

Lemma init_fit_keeps (ds : D) (ms : list M) :
  forall i, LC.keeps_logits (LC.init_fit ds i ms).
Proof.
  induction ms as [|m ms IH]; intros i; cbn [LC.init_fit]; keeps.
  - apply keeps_update. intros s. destruct (LC.models s); split; reflexivity.
  - apply IH.
Qed.

(** The E-step returns at most as many columns as [self.latent_logits] has
    entries. *)
Lemma expectation_columns (ds : D) (s s1 : @LC.lmodel F H M)
    (e : list (list F) * F) (logits : list F) :
  LC.latent_logits s = Some logits ->
  LC.expectation ds s = (Ok e, s1) ->
  length (fst e) <= length logits.
Proof.
  intros Hl. unfold LC.expectation, LC.mbind, LC.attr, LC.lift.
  destruct (LC.models s) as [ms|]; [|discriminate].
  destruct (map_result _ ms) as [pp|ex]; [|discriminate].
  assert (Hprint : forall (c : bool),
            LC.latent_logits
              (snd ((if c then LC.print "Nan in probas" else LC.ret tt) s))
            = Some logits /\
            exists s', (if c then LC.print "Nan in probas" else LC.ret tt) s
                       = (Ok tt, s')).
  { intros [|]; (split; [exact Hl | eexists; reflexivity]). }
  destruct (Hprint (existsb (existsb LC.has_nan) pp)) as [Hl' [s' Hs']].
  rewrite Hs' in *. simpl in Hl'. rewrite Hl'.
  match goal with
  | |- context [map_result ?f (combine logits pp)] =>
      destruct (map_result f (combine logits pp)) as [weighted|ex] eqn:Ew
  end; [|discriminate].
  apply map_result_length in Ew.
  destruct weighted as [|c weighted]; [discriminate|].
  unfold LC.ret. intros Hr.
  apply (f_equal fst) in Hr. cbn [fst] in Hr. apply Ok_inj in Hr. subst e.
  cbn [fst]. unfold LC.divide_rows. rewrite !length_map, Ew, length_combine. lia.
Qed.

Lemma fit_classes_raises (ds : D) (qs : list nat) :
  forall (s : @LC.lmodel F H M) (w : list (list F)),
  LC.weights s = Some w ->
  (exists q, In q qs /\ length w <= q) ->
  exists e s', LC.fit_classes ds qs s = (Raise e, s').
Proof.
  induction qs as [|q qs IH]; intros s w Hw (q0 & Hin & Hq0).
  - destruct Hin.
  - cbn [LC.fit_classes]. unfold LC.mbind, LC.attr, LC.lift, index.
    destruct (LC.models s) as [ms|]; [|eexists; eexists; reflexivity].
    destruct (nth_error ms q) as [m|]; [|eexists; eexists; reflexivity].
    rewrite Hw.
    destruct (nth_error w q) as [col|] eqn:Ecol; [|eexists; eexists; reflexivity].
    destruct (LC.m_fit m ds col) as [m'|ex]; [|eexists; eexists; reflexivity].
    unfold LC.update.
    apply (IH _ w); [exact Hw|].
    exists q0. split; [|exact Hq0].
    destruct Hin as [<-|Hin]; [|exact Hin].
    exfalso. assert (q < length w) by (apply nth_error_Some; congruence). lia.
Qed.

Lemma maximization_raises (ds : D) (s : @LC.lmodel F H M) (w : list (list F)) :
  LC.weights s = Some w ->
  length w < LC.n_latent_classes s ->
  exists e s', LC.maximization ds s = (Raise e, s').
Proof.
  intros Hw Hlt. unfold LC.maximization.
  unfold LC.mbind at 1. unfold LC.update at 1.
  unfold LC.mbind at 1.
  cbn [LC.n_latent_classes LC.set_models].
  unfold LC.mbind at 1.
  destruct (fit_classes_raises ds (seq 0 (LC.n_latent_classes s))
              (LC.set_models s (map LC.construct (LC.model_parameters s))) Hw)
    as (e & s' & Hf).
  { exists (length w). split; [apply in_seq; lia | lia]. }
  rewrite Hf. eexists. eexists. reflexivity.
Qed.

(** From a state with fewer free logits than classes, the EM loop never
    reaches the assignment of [self.latent_logits]: either no iteration is
    asked for, or the first iteration raises. *)
Lemma em_loop_keeps_fresh_logits (ds : D) (n : nat) (hl : list (list F))
    (hs : list F) (s : @LC.lmodel F H M) (logits : list F) :
  LC.latent_logits s = Some logits ->
  length logits < LC.n_latent_classes s ->
  exists r s',
    LC.em_loop ds n hl hs s = (r, s') /\
    (0 < n -> is_ok r = false) /\
    LC.latent_logits s' = Some logits /\
    LC.n_latent_classes s' = LC.n_latent_classes s.
Proof.
  intros Hl Hn. destruct n as [|n].
  - simpl. eexists. eexists. split; [reflexivity|].
    split; [lia|]. split; [exact Hl | reflexivity].
  - cbn [LC.em_loop]. unfold LC.mbind at 1.
    destruct (expectation_keeps ds s) as [Hk1 Hk2].
    destruct (LC.expectation ds s) as [[e|ex] s1] eqn:Ee; simpl in Hk1, Hk2.
    + unfold LC.mbind at 1. unfold LC.update at 1.
      pose proof (@expectation_columns ds s s1 e logits Hl Ee) as Hc.
      destruct (@maximization_raises ds (LC.set_weights s1 (fst e)) (fst e) eq_refl)
        as (ex & s2 & Hm).
      { cbn [LC.n_latent_classes LC.set_weights]. rewrite Hk2. lia. }
      unfold LC.mbind at 1.
      destruct (maximization_keeps ds (LC.set_weights s1 (fst e))) as [Hm1 Hm2].
      rewrite Hm in *. simpl in Hm1, Hm2.
      eexists. eexists. split; [reflexivity|].
      split; [reflexivity|]. split; congruence.
    + eexists. eexists. split; [reflexivity|].
      split; [reflexivity|]. split; congruence.
Qed.

Lemma em_fit_keeps_fresh_logits (ds : D) (s : @LC.lmodel F H M) (logits : list F) :
  LC.latent_logits s = Some logits ->
  length logits < LC.n_latent_classes s ->
  exists r s',
    LC.em_fit ds s = (r, s') /\
    LC.latent_logits s' = Some logits /\
    LC.n_latent_classes s' = LC.n_latent_classes s.
Proof.
  intros Hl Hn. unfold LC.em_fit. unfold LC.mbind at 1. unfold LC.attr.
  destruct (LC.models s) as [ms|];
    [|eexists; eexists; split; [reflexivity|]; split; [exact Hl | reflexivity]].
  unfold LC.mbind at 1.
  destruct (init_fit_keeps ds ms 0 s) as [Hi1 Hi2].
  destruct (LC.init_fit ds 0 ms s) as [[[]|ex] s1]; simpl in Hi1, Hi2.
  - unfold LC.mbind at 1.
    destruct (@em_loop_keeps_fresh_logits ds (LC.epochs s1) [] [] s1 logits)
      as (r & s' & Hrun & _ & H1 & H2); [congruence | lia |].
    rewrite Hrun. eexists. eexists. split; [reflexivity|]. split; congruence.
  - eexists. eexists. split; [reflexivity|]. split; congruence.
Qed.

End MethodFacts.

Section ReadOnlyFacts.
Context {F X D H M : Type} {sc : Num.Scalar F} {env : LC.Substrate F X D H M}.

Lemma reads_bind (A B : Type) (m : LC.method (F:=F) (H:=H) (M:=M) A)
    (k : A -> LC.method (F:=F) (H:=H) (M:=M) B) :
  LC.reads_only m -> (forall a, LC.reads_only (k a)) -> LC.reads_only (LC.mbind m k).
Proof.
  intros Hm Hk s. unfold LC.mbind. specialize (Hm s).
  destruct (m s) as [[a|e] s']; simpl in *; subst s'; [apply Hk | reflexivity].
Qed.

Lemma reads_attr (A : Type) (name : string) (proj : @LC.lmodel F H M -> option A) :
  LC.reads_only (LC.attr name proj).
Proof. intros s. unfold LC.attr. destruct (proj s); reflexivity. Qed.

Lemma class_loop_reads (rest utilities : list (list (list F))) (b : LC.batch X F)
    (prior : list F) :
  forall i acc, LC.reads_only (LC.class_loop i rest utilities b prior acc).
Proof.
  induction rest as [|u rest IH]; intros i acc; cbn [LC.class_loop].
  - intros s. reflexivity.
  - apply reads_bind; [apply reads_attr|]. intros ne.
    apply reads_bind; [intros s; reflexivity|]. intros p. apply IH.
Qed.

Lemma batch_predict_reads (b : LC.batch X F) (sw : option (list F)) :
  LC.reads_only (LC.batch_predict b sw).
Proof.
  unfold LC.batch_predict, LC.compute_batch_utility.
  apply reads_bind.
  { apply reads_bind; [apply reads_attr|]. intros ms s. reflexivity. }
  intros utilities. apply reads_bind; [apply reads_attr|]. intros logits.
  apply reads_bind; [apply class_loop_reads|]. intros [|t ts].
  - intros s. reflexivity.
  - apply reads_bind; [intros s; reflexivity|]. intros l1.
    apply reads_bind; [intros s; reflexivity|]. intros l2 s. reflexivity.
Qed.

End ReadOnlyFacts.

(** ** The class-membership prior in float32 *)

Section RangeFacts.
Open Scope R_scope.

Lemma exp_times (x : R) (n : nat) : exp (INR n * x) = exp x ^ n.
Proof.
  induction n as [|n IH].
  - cbn [INR pow]. rewrite Rmult_0_l. apply exp_0.
  - rewrite S_INR, Rmult_plus_distr_r, Rmult_1_l, exp_plus, IH.
    cbn [pow]. ring.
Qed.

Lemma overflow_threshold_bounds :
  1 < Float32.overflow_threshold /\ Float32.overflow_threshold <= 2 ^ 128.
Proof.
  unfold Float32.overflow_threshold.
  assert (Hp : 1 <= 2 ^ 127) by (apply pow_R1_Rle; lra).
  assert (Hq : 0 < / 2 ^ 24 <= 1).
  { assert (H : 1 <= 2 ^ 24) by (apply pow_R1_Rle; lra).
    split; [apply Rinv_0_lt_compat; lra|].
    rewrite <- Rinv_1. apply Rinv_le_contravar; lra. }
  replace (2 ^ 128) with (2 * 2 ^ 127) by reflexivity.
  split; nra.
Qed.

Lemma underflow_threshold_bounds :
  0 < Float32.underflow_threshold < 1.
Proof.
  unfold Float32.underflow_threshold.
  assert (H : 2 <= 2 ^ 150).
  { replace (2 ^ 150) with (2 * 2 ^ 149) by reflexivity.
    assert (1 <= 2 ^ 149) by (apply pow_R1_Rle; lra). lra. }
  split; [apply Rinv_0_lt_compat; lra|].
  rewrite <- Rinv_1. apply Rinv_lt_contravar; lra.
Qed.

(** A result well inside the range is kept. *)
Lemma to_range_kept (r : R) :
  Float32.underflow_threshold < Rabs r -> Rabs r <= 1 -> Float32.to_range r = Num.Fin r.
Proof.
  intros Hlo Hhi. destruct overflow_threshold_bounds as [Ho _].
  assert (Hr : - 1 <= r <= 1)
    by (revert Hhi; unfold Rabs; destruct (Rcase_abs r); lra).
  unfold Float32.to_range.
  destruct (Rle_dec Float32.overflow_threshold r); [lra|].
  destruct (Rle_dec r (- Float32.overflow_threshold)); [lra|].
  destruct (Rle_dec (Rabs r) Float32.underflow_threshold); [lra|].
  reflexivity.
Qed.

(** A result too small for float32 is zero. *)
Lemma to_range_zero (r : R) :
  Rabs r <= Float32.underflow_threshold -> Float32.to_range r = Num.Fin 0.
Proof.
  intros Hlo. destruct overflow_threshold_bounds as [Ho _].
  destruct underflow_threshold_bounds as [_ Hu].
  assert (Hr : - 1 <= r <= 1)
    by (revert Hlo; unfold Rabs; destruct (Rcase_abs r); lra).
  unfold Float32.to_range.
  destruct (Rle_dec Float32.overflow_threshold r); [lra|].
  destruct (Rle_dec r (- Float32.overflow_threshold)); [lra|].
  destruct (Rle_dec (Rabs r) Float32.underflow_threshold); [reflexivity|].
  contradiction.
Qed.

(** The exponential of 100 is beyond the range of float32. *)
Lemma exp_100_overflows : Float32.to_range (exp 100) = Num.PInf.
Proof.
  assert (H : 2 ^ 128 <= exp 100).
  { replace 100 with (INR 800 * (1 / 8))
      by (rewrite INR_IZR_INZ; cbn [Z.of_nat Pos.of_succ_nat Pos.succ]; lra).
    rewrite exp_times.
    transitivity ((9 / 8) ^ 800).
    - change 800%nat with (25 * 32)%nat. change 128%nat with (4 * 32)%nat.
      rewrite !pow_mult. apply pow_incr. split; [apply pow_le; lra|].
      cbn [pow]. lra.
    - apply pow_incr. split; [lra|]. pose proof (exp_ineq1_le (1 / 8)). lra. }
  destruct overflow_threshold_bounds as [_ Ho].
  unfold Float32.to_range.
  destruct (Rle_dec Float32.overflow_threshold (exp 100)); [reflexivity|lra].
Qed.

(** The exponential of -200 is below the range of float32. *)
Lemma exp_minus_200_underflows : Float32.to_range (exp (- 200)) = Num.Fin 0.
Proof.
  apply to_range_zero.
  rewrite Rabs_pos_eq by (left; apply exp_pos).
  assert (E : exp (- 200) = / exp 200)
    by (rewrite <- exp_Ropp; f_equal; lra).
  rewrite E. unfold Float32.underflow_threshold.
  apply Rinv_le_contravar; [apply pow_lt; lra|].
  replace 200 with (INR 200 * 1)
    by (rewrite INR_IZR_INZ; cbn [Z.of_nat Pos.of_succ_nat Pos.succ]; lra).
  rewrite exp_times.
  transitivity (2 ^ 200).
  - apply Rle_pow; [lra | apply Nat.leb_le; reflexivity].
  - apply pow_incr. split; [lra|]. pose proof (exp_ineq1_le 1). lra.
Qed.

Lemma to_range_0 : Float32.to_range 0 = Num.Fin 0.
Proof.
  apply to_range_zero. rewrite Rabs_R0.
  destruct underflow_threshold_bounds as [H _]. lra.
Qed.

Lemma to_range_1 : Float32.to_range 1 = Num.Fin 1.
Proof.
  apply to_range_kept; rewrite Rabs_R1; [|lra].
  destruct underflow_threshold_bounds as [_ H]. exact H.
Qed.

End RangeFacts.

(** C8 as stated fails in float32, the arithmetic of lines 831-834. With the
    one free logit 100 the exponential overflows to an infinity, so does the
    sum, and the prior is (0, NaN): it does not sum to 1 and is not
    positive. With the one free logit -200 the exponential underflows to
    zero and the prior is (1, 0): its second entry is not strictly
    positive. *)
Lemma latent_prior_leaves_the_simplex_in_float32 :
  let prior_of := LC.prior_of (sc := Float32.range_scalar) in
  prior_of [Num.Fin 100] = [Num.Fin 0; Num.NaN] /\
  LC.vsum (sc := Float32.range_scalar) (prior_of [Num.Fin 100]) = Num.NaN /\
  prior_of [Num.Fin (- 200)] = [Num.Fin 1; Num.Fin 0].
Proof.
  cbv zeta. unfold LC.prior_of, LC.vsum.
  cbn [map fold_right Num.of_R Num.add Num.exp Num.div Float32.range_scalar
       Float32.ranged Num.xexp].
  rewrite exp_100_overflows, exp_minus_200_underflows, to_range_1, to_range_0.
  cbn [Num.xadd Num.xdiv Float32.ranged].
  replace (0 + 0)%R with 0%R by lra. rewrite to_range_0.
  cbn [Num.xadd Float32.ranged].
  replace (1 + 0)%R with 1%R by lra. rewrite to_range_1.
  destruct (Req_dec_T 1 0) as [H|_]; [lra|].
  replace (1 / 1)%R with 1%R by lra. replace (0 / 1)%R with 0%R by lra.
  cbn [Float32.ranged]. rewrite to_range_0, to_range_1.
  split; [reflexivity|]. split; reflexivity.
Qed.

(** C8, amended. (1) Computed in exact real arithmetic, the prior that
    [batch_predict] derives from [k] free logits (the constant 1 and the
    exponentials of the logits, divided by their sum) has [k + 1] entries,
    sums to 1 and has only strictly positive entries. (2) [instantiate]
    stores [n_latent_classes - 1] free logits, so that the prior has
    [n_latent_classes] entries. (3) [batch_predict] does not change the
    model. *)
Theorem latent_prior_is_a_probability_vector
    (X D H M : Type) (env : LC.Substrate R X D H M) :
  (forall logits : list R,
      length (LC.prior_of logits) = S (length logits) /\
      LC.vsum (LC.prior_of logits) = 1%R /\
      Forall (fun p => (0 < p)%R) (LC.prior_of logits)) /\
  (forall (s : @LC.lmodel R H M) (k : nat),
      LC.n_latent_classes s = S k ->
      exists logits,
        LC.latent_logits (snd (LC.instantiate s)) = Some logits /\
        length logits = k /\
        length (LC.prior_of logits) = LC.n_latent_classes (snd (LC.instantiate s))) /\
  (forall (b : LC.batch X R) sw (s : @LC.lmodel R H M),
      snd (LC.batch_predict b sw s) = s).
Proof.
  split; [exact prior_of_spec|]. split.
  - intros s k Hn. unfold LC.instantiate. rewrite Hn. cbn [snd].
    exists (map LC.normal_sample (seq 0 k)).
    split; [reflexivity|]. split; [rewrite length_map, length_seq; reflexivity|].
    destruct (prior_of_spec (map LC.normal_sample (seq 0 k))) as [Hlen _].
    rewrite Hlen, length_map, length_seq. simpl. symmetry. exact Hn.
  - intros b sw s. apply batch_predict_reads.
Qed.

(** The two-class mixture of the example: one free logit after
    [instantiate], and a prior of two entries. *)
Lemma latent_prior_is_a_probability_vector_witness :
  exists logits,
    LC.latent_logits
      (snd (LC.instantiate (env := LatentExample.toy_real)
              (LatentExample.real_mixture "EM"))) = Some logits /\
    length logits = 1 /\
    length (LC.prior_of logits) = 2.
Proof.
  destruct (latent_prior_is_a_probability_vector LatentExample.toy_real)
    as (_ & Hi & _).
  destruct (Hi (LatentExample.real_mixture "EM") 1 eq_refl) as (l & H1 & H2 & H3).
  exists l. split; [exact H1|]. split; [exact H2 | exact H3].
Defined.

(** ** Further properties of the L-BFGS adapter *)

Section IndexFacts.

Lemma nth_error_seq_inv (c n p j : nat) :
  nth_error (seq c n) p = Some j -> j = c + p /\ p < n.
Proof.
  intros H.
  assert (Hp : p < length (seq c n)) by (apply nth_error_Some; congruence).
  rewrite length_seq in Hp.
  split; [|exact Hp].
  apply (nth_error_nth _ _ 0) in H. rewrite seq_nth in H by exact Hp. lia.
Qed.

(** The loop of lines 588-596 from tensor [i] on, with [count] entries
    before it. *)
Lemma indices_layout (shs : list (list nat)) :
  forall i count,
  map (@Tf.shape nat) (fst (Tf.stitch_partition_indices i count shs)) = shs /\
  Forall (@Tf.well_shaped nat) (fst (Tf.stitch_partition_indices i count shs)) /\
  concat (map (@Tf.data nat) (fst (Tf.stitch_partition_indices i count shs)))
    = seq count (Tf.total (map Tf.numel shs)) /\
  forall k t p j,
    nth_error (fst (Tf.stitch_partition_indices i count shs)) k = Some t ->
    nth_error (Tf.data t) p = Some j ->
    count <= j /\
    nth_error (snd (Tf.stitch_partition_indices i count shs)) (j - count)
      = Some (i + k).
Proof.
  induction shs as [|sh shs IH]; intros i count.
  - simpl. split; [reflexivity|]. split; [constructor|]. split; [reflexivity|].
    intros k t p j Hk. destruct k; discriminate.
  - cbn [Tf.stitch_partition_indices].
    specialize (IH (S i) (count + Tf.numel sh)).
    destruct (Tf.stitch_partition_indices (S i) (count + Tf.numel sh) shs)
      as [idx part].
    cbn [fst snd] in *. destruct IH as (IH1 & IH2 & IH3 & IH4).
    split; [cbn [map Tf.shape]; rewrite IH1; reflexivity|].
    split.
    { constructor; [|exact IH2]. unfold Tf.well_shaped. cbn [Tf.data Tf.shape].
      apply length_seq. }
    split.
    { cbn [map concat Tf.data Tf.total fold_right]. rewrite IH3.
      symmetry. apply seq_app. }
    intros k t p j Hk Hp. destruct k as [|k]; cbn [nth_error] in Hk.
    + injection Hk as <-. cbn [Tf.data] in Hp.
      apply nth_error_seq_inv in Hp. destruct Hp as [-> Hp].
      split; [lia|].
      replace (count + p - count) with p by lia.
      rewrite nth_error_app1 by (rewrite repeat_length; exact Hp).
      rewrite Nat.add_0_r. apply nth_error_repeat. exact Hp.
    + destruct (IH4 k t p j Hk Hp) as [Hj Hn].
      split; [lia|].
      rewrite nth_error_app2 by (rewrite repeat_length; lia).
      rewrite repeat_length.
      replace (j - count - Tf.numel sh) with (j - (count + Tf.numel sh)) by lia.
      rewrite Hn. f_equal. lia.
Qed.

End IndexFacts.

(** X3. The indices that [_lbfgs_train_step] prepares (lines 588-596): the
    stitch indices have the shapes of the tensors and enumerate the positions
    0 .. N-1 of the flat vector in order, without gap or repetition (N is the
    total number of entries); the partition vector has N entries and sends
    every position to the tensor whose stitch indices hold it. *)
Theorem stitch_and_partition_indices_agree (shs : list (list nat)) :
  let idx := fst (Tf.stitch_partition_indices 0 0 shs) in
  let part := snd (Tf.stitch_partition_indices 0 0 shs) in
  let n := Tf.total (map Tf.numel shs) in
  map (@Tf.shape nat) idx = shs /\
  Forall (@Tf.well_shaped nat) idx /\
  concat (map (@Tf.data nat) idx) = seq 0 n /\
  length part = n /\
  forall i t p j,
    nth_error idx i = Some t -> nth_error (Tf.data t) p = Some j ->
    nth_error part j = Some i.
Proof.
  cbv zeta. destruct (indices_layout shs 0 0) as (H1 & H2 & H3 & H4).
  split; [exact H1|]. split; [exact H2|]. split; [exact H3|]. split.
  - rewrite (indices_part shs 0 0). apply parts_length.
  - intros i t p j Hi Hp. destruct (H4 i t p j Hi Hp) as [_ Hn].
    rewrite Nat.sub_0_r in Hn. exact Hn.
Qed.

Section AssignFacts.
Variable A : Type.

(** A flat vector whose length is not the number of entries of the tensors
    is refused by [tf.dynamic_partition]. *)
Lemma assign_wrong_length (ts olds : list (Tf.tensor A)) (v : list A) :
  length v <> Tf.total (Tf.sizes ts) ->
  Tf.assign_new_model_parameters (Tf.make_adapter ts) v olds
    = Raise (ValueError "dynamic_partition: data and partitions differ in shape").
Proof.
  intros Hv. unfold Tf.assign_new_model_parameters, Tf.make_adapter.
  cbn [Tf.part Tf.n_tensors Tf.shapes]. rewrite indices_part.
  unfold Tf.dynamic_partition. rewrite parts_length. fold (Tf.sizes ts).
  destruct (length v =? Tf.total (Tf.sizes ts)) eqn:E.
  - apply Nat.eqb_eq in E. contradiction.
  - reflexivity.
Qed.

Lemma assign_read_back (d : A) (ts olds : list (Tf.tensor A)) (v : list A) :
  Tf.shape_n olds = Tf.shape_n ts ->
  length v = Tf.total (Tf.sizes ts) ->
  Tf.assign_new_model_parameters (Tf.make_adapter ts) v olds
    = Ok (Tf.unflatten (Tf.shape_n ts) v) /\
  Tf.shape_n (Tf.unflatten (Tf.shape_n ts) v) = Tf.shape_n ts /\
  Forall (@Tf.well_shaped A) (Tf.unflatten (Tf.shape_n ts) v) /\
  Tf.dynamic_stitch d (Tf.idx (Tf.make_adapter ts)) (Tf.unflatten (Tf.shape_n ts) v)
    = v.
Proof.
  intros Hsh Hv.
  destruct (unflatten_spec (Tf.shape_n ts) v Hv) as (Hs & Hw & Hf).
  split; [apply assign_spec; assumption|]. split; [exact Hs|]. split; [exact Hw|].
  rewrite (make_adapter_shapes ts (Tf.unflatten (Tf.shape_n ts) v))
    by (symmetry; exact Hs).
  rewrite dynamic_stitch_flat by exact Hw. exact Hf.
Qed.

End AssignFacts.

(** X1. Writing and reading back (lines 600-611 and 692): when the model's
    variables have the shapes that the adapter was made for and the flat
    vector has as many entries as the variables together,
    [assign_new_model_parameters] succeeds, keeps the shapes of the
    variables, and flattening the variables again with [tf.dynamic_stitch]
    returns the vector that was assigned. *)
Theorem assigned_vector_is_read_back
    (A : Type) (d : A) (ts olds : list (Tf.tensor A)) (v : list A) :
  Tf.shape_n olds = Tf.shape_n ts ->
  length v = Tf.total (Tf.sizes ts) ->
  exists ws,
    Tf.assign_new_model_parameters (Tf.make_adapter ts) v olds = Ok ws /\
    Tf.shape_n ws = Tf.shape_n ts /\
    Forall (@Tf.well_shaped A) ws /\
    Tf.dynamic_stitch d (Tf.idx (Tf.make_adapter ts)) ws = v.
Proof.
  intros Hsh Hv. exists (Tf.unflatten (Tf.shape_n ts) v).
  apply assign_read_back; assumption.
Qed.

(** The example tensors of the shapes (2) and (1, 1) and the vector
    (7, 8, 9). *)
Lemma assigned_vector_is_read_back_witness :
  exists ws,
    Tf.assign_new_model_parameters (Tf.make_adapter Example.toy_weights)
      [7; 8; 9]%R Example.toy_weights = Ok ws /\
    Tf.shape_n ws = Tf.shape_n Example.toy_weights /\
    Forall (@Tf.well_shaped R) ws /\
    Tf.dynamic_stitch 0%R (Tf.idx (Tf.make_adapter Example.toy_weights)) ws
      = [7; 8; 9]%R.
Proof.
  apply (@assigned_vector_is_read_back R 0%R Example.toy_weights Example.toy_weights
           [7; 8; 9]%R); reflexivity.
Defined.

Section LbfgsRunFacts.
Context {X Slots C : Type} {env : CM.Substrate X Slots C}.

(** One call of the closure [f] at a point of the right size. *)
Lemma lbfgs_f_spec (ts : list (Tf.tensor R)) (ds : CM.dataset X)
    (sw : option (list R)) (x : list R) (w : CM.world Slots C) (cl : CM.closure) :
  Tf.shape_n (CM.weights (CM.self w)) = Tf.shape_n ts ->
  length x = Tf.total (Tf.sizes ts) ->
  exists l g,
    CM.optim_loss_at ds sw w (Tf.unflatten (Tf.shape_n ts) x) = Ok l /\
    CM.lbfgs_f (Tf.make_adapter ts) ds sw x (w, cl)
      = (Ok (l, g),
         (CM.with_self w (CM.set_params (CM.self w) (Tf.unflatten (Tf.shape_n ts) x)
                                         (CM.opt_state (CM.self w))),
          {| CM.f_iter := S (CM.f_iter cl);
             CM.f_history := CM.f_history cl ++ [l] |})).
Proof.
  intros Hsh Hx. unfold CM.lbfgs_f.
  rewrite (assign_spec ts (CM.weights (CM.self w)) x Hsh Hx).
  destruct (evaluate_whole ds sw "optim"
              (CM.with_self w (CM.set_params (CM.self w)
                                 (Tf.unflatten (Tf.shape_n ts) x)
                                 (CM.opt_state (CM.self w))))) as [l Hl].
  unfold CM.optim_loss_at. rewrite Hl. exists l. eexists.
  split; reflexivity.
Qed.

(** One call of the closure [f] at a point of another size. *)
Lemma lbfgs_f_wrong_length (ts : list (Tf.tensor R)) (ds : CM.dataset X)
    (sw : option (list R)) (x : list R) (st : CM.world Slots C * CM.closure) :
  length x <> Tf.total (Tf.sizes ts) ->
  CM.lbfgs_f (Tf.make_adapter ts) ds sw x st
    = (Raise (ValueError "dynamic_partition: data and partitions differ in shape"),
       st).
Proof.
  intros Hx. unfold CM.lbfgs_f. destruct st as [w cl].
  rewrite assign_wrong_length by exact Hx. reflexivity.
Qed.

(** A run of the minimiser: the world it leaves differs from the world it
    found in the parameter tensors only, and the closure has gained one loss
    for each point asked. *)
Lemma run_minimizer_history (ts : list (Tf.tensor R)) (ds : CM.dataset X)
    (sw : option (list R)) (mz : CM.minimizer) :
  forall (w0 : CM.world Slots C) (ws : list (Tf.tensor R)) (cl : CM.closure)
         r w1 cl1,
  Tf.shape_n ws = Tf.shape_n ts ->
  CM.run_minimizer (Tf.make_adapter ts) ds sw mz
    (CM.with_self w0 (CM.set_params (CM.self w0) ws (CM.opt_state (CM.self w0))), cl)
    = (r, (w1, cl1)) ->
  exists ws1 losses,
    w1 = CM.with_self w0 (CM.set_params (CM.self w0) ws1 (CM.opt_state (CM.self w0))) /\
    Tf.shape_n ws1 = Tf.shape_n ts /\
    CM.f_history cl1 = CM.f_history cl ++ losses /\
    CM.f_iter cl1 = CM.f_iter cl + length losses /\
    (is_ok r = true ->
     Forall2 (fun x l =>
                CM.optim_loss_at ds sw w0 (Tf.unflatten (Tf.shape_n ts) x) = Ok l)
       (Lbfgs.asked (Tf.make_adapter ts) ds sw mz
          (CM.with_self w0 (CM.set_params (CM.self w0) ws (CM.opt_state (CM.self w0))),
           cl))
       losses).
Proof.
  induction mz as [res | x k IH]; intros w0 ws cl r w1 cl1 Hsh Hrun.
  - cbn [CM.run_minimizer] in Hrun. injection Hrun as <- <- <-.
    exists ws, []. rewrite app_nil_r. cbn [length Lbfgs.asked].
    split; [reflexivity|]. split; [exact Hsh|]. split; [reflexivity|].
    split; [lia|]. intros _. constructor.
  - cbn [CM.run_minimizer Lbfgs.asked] in *.
    destruct (Nat.eq_dec (length x) (Tf.total (Tf.sizes ts))) as [Hx|Hx].
    + destruct (lbfgs_f_spec ts ds sw x
                  (CM.with_self w0 (CM.set_params (CM.self w0) ws
                                      (CM.opt_state (CM.self w0))))
                  cl Hsh Hx) as (l & g & Hl & Hf).
      rewrite Hf in *.
      change (CM.with_self
                (CM.with_self w0 (CM.set_params (CM.self w0) ws
                                    (CM.opt_state (CM.self w0))))
                (CM.set_params
                   (CM.self (CM.with_self w0 (CM.set_params (CM.self w0) ws
                                                (CM.opt_state (CM.self w0)))))
                   (Tf.unflatten (Tf.shape_n ts) x)
                   (CM.opt_state
                      (CM.self (CM.with_self w0 (CM.set_params (CM.self w0) ws
                                                   (CM.opt_state (CM.self w0))))))))
        with (CM.with_self w0 (CM.set_params (CM.self w0)
                                 (Tf.unflatten (Tf.shape_n ts) x)
                                 (CM.opt_state (CM.self w0)))) in *.
      destruct (unflatten_spec (Tf.shape_n ts) x Hx) as (Hs & _ & _).
      destruct (IH (l, g) w0 (Tf.unflatten (Tf.shape_n ts) x) _ r w1 cl1 Hs Hrun)
        as (ws1 & losses & Hw1 & Hs1 & Hh & Hi & Hall).
      cbn [CM.f_history CM.f_iter] in Hh, Hi.
      exists ws1, (l :: losses).
      split; [exact Hw1|]. split; [exact Hs1|].
      split; [rewrite Hh, <- app_assoc; reflexivity|].
      split; [rewrite Hi; cbn [length]; lia|].
      intros Hok. constructor; [exact Hl | apply Hall; exact Hok].
    + rewrite lbfgs_f_wrong_length in * by exact Hx.
      injection Hrun as <- <- <-.
      exists ws, []. rewrite app_nil_r. cbn [length].
      split; [reflexivity|]. split; [exact Hsh|]. split; [reflexivity|].
      split; [lia|]. discriminate.
Qed.

Lemma world_as_frame (w : CM.world Slots C) :
  CM.with_self w (CM.set_params (CM.self w) (CM.weights (CM.self w))
                                 (CM.opt_state (CM.self w))) = w.
Proof. rewrite set_params_same. apply with_self_self. Qed.

End LbfgsRunFacts.

(** X2. A point whose size is not the number of entries of the parameter
    tensors is refused (lines 609 and 633-636): [assign_new_model_parameters]
    raises at [tf.dynamic_partition], before any variable is assigned, and a
    call of the closure [f] at such a point raises and leaves the model, the
    counter [f.iter] and [f.history] as they were. *)
Theorem wrong_size_point_is_refused
    (X Slots C : Type) (env : CM.Substrate X Slots C)
    (ts : list (Tf.tensor R)) (ds : CM.dataset X) (sw : option (list R))
    (x : list R) (w : CM.world Slots C) (cl : CM.closure) :
  length x <> Tf.total (Tf.sizes ts) ->
  (exists e,
      Tf.assign_new_model_parameters (Tf.make_adapter ts) x (CM.weights (CM.self w))
        = Raise e) /\
  (exists e, CM.lbfgs_f (Tf.make_adapter ts) ds sw x (w, cl) = (Raise e, (w, cl))).
Proof.
  intros Hx. split.
  - eexists. apply assign_wrong_length. exact Hx.
  - eexists. apply lbfgs_f_wrong_length. exact Hx.
Qed.

(** The example model has three parameter entries; a point of two
    coordinates is refused. *)
Lemma wrong_size_point_is_refused_witness :
  exists e,
    CM.lbfgs_f (Tf.make_adapter Example.toy_weights) Example.three_choices None
      [7; 8]%R (Example.toy_world, {| CM.f_iter := 0; CM.f_history := [] |})
    = (Raise e, (Example.toy_world, {| CM.f_iter := 0; CM.f_history := [] |})).
Proof.
  apply (@wrong_size_point_is_refused unit nat nat Example.toy Example.toy_weights
           Example.three_choices None [7; 8]%R Example.toy_world
           {| CM.f_iter := 0; CM.f_history := [] |}).
  simpl. lia.
Defined.

(** X4. What [_fit_with_lbfgs] (lines 687-712) changes: whether it returns
    or raises, the world it leaves is the world it found with other
    parameter tensors. It calls no callback, it draws no random number, and
    every attribute of the model other than the parameter tensors (the
    optimizer and its slots, the stop flag, the numbers of epochs and the
    batch size among them) is as before. *)
Theorem fit_with_lbfgs_writes_only_the_parameters
    (X Slots C : Type) (env : CM.Substrate X Slots C)
    (ds : CM.dataset X) (epochs_arg : option nat) (sw : option (list R))
    (w : CM.world Slots C) :
  exists ws',
    snd (CM.fit_with_lbfgs ds epochs_arg sw w)
      = CM.with_self w (CM.set_params (CM.self w) ws' (CM.opt_state (CM.self w))).
Proof.
  unfold CM.fit_with_lbfgs.
  set (mz := CM.lbfgs_minimize _ _ _).
  destruct (CM.run_minimizer (Tf.make_adapter (CM.weights (CM.self w))) ds sw mz
              (w, {| CM.f_iter := 0; CM.f_history := [] |}))
    as [r [w1 cl1]] eqn:Hrun.
  assert (Hrun' :
    CM.run_minimizer (Tf.make_adapter (CM.weights (CM.self w))) ds sw mz
      (CM.with_self w (CM.set_params (CM.self w) (CM.weights (CM.self w))
                                      (CM.opt_state (CM.self w))),
       {| CM.f_iter := 0; CM.f_history := [] |}) = (r, (w1, cl1))).
  { rewrite world_as_frame. exact Hrun. }
  destruct (run_minimizer_history (CM.weights (CM.self w)) ds sw mz w
              (CM.weights (CM.self w)) _ eq_refl Hrun')
    as (ws1 & losses & Hw1 & _).
  destruct r as [results|e].
  - destruct (Tf.assign_new_model_parameters _ _ _) as [ws'|e'].
    + exists ws'. cbn [snd]. rewrite Hw1. reflexivity.
    + exists ws1. cbn [snd]. exact Hw1.
  - exists ws1. cbn [snd]. exact Hw1.
Qed.

(** X5. The history that [_fit_with_lbfgs] returns (lines 637-649 and 712)
    holds, in the order of the calls, the loss of the whole dataset
    ([evaluate] with [batch_size = -1] and [mode = "optim"]) at each point
    at which the minimiser asked for the value and the gradient: one entry
    for each call, computed with the parameters set to that point. *)
Theorem lbfgs_history_lists_the_losses
    (X Slots C : Type) (env : CM.Substrate X Slots C)
    (ds : CM.dataset X) (epochs_arg : option nat) (sw : option (list R))
    (w : CM.world Slots C) (hist : list R) (results : CM.lbfgs_results)
    (w' : CM.world Slots C) :
  CM.fit_with_lbfgs ds epochs_arg sw w = (Ok (hist, results), w') ->
  let ws := CM.weights (CM.self w) in
  let func := Tf.make_adapter ws in
  let mz :=
    CM.lbfgs_minimize (Tf.dynamic_stitch 0%R (Tf.idx func) ws)
      (match epochs_arg with Some e => e | None => CM.epochs (CM.self w) end)
      (CM.tolerance (CM.self w)) in
  Forall2 (fun x l => CM.optim_loss_at ds sw w (Tf.unflatten (Tf.shape_n ws) x) = Ok l)
    (Lbfgs.asked func ds sw mz (w, {| CM.f_iter := 0; CM.f_history := [] |}))
    hist.
Proof.
  intros Hfit ws func mz. unfold CM.fit_with_lbfgs in Hfit.
  fold ws in Hfit. fold func in Hfit. fold mz in Hfit.
  destruct (CM.run_minimizer func ds sw mz
              (w, {| CM.f_iter := 0; CM.f_history := [] |}))
    as [r [w1 cl1]] eqn:Hrun.
  assert (Hrun' :
    CM.run_minimizer func ds sw mz
      (CM.with_self w (CM.set_params (CM.self w) ws (CM.opt_state (CM.self w))),
       {| CM.f_iter := 0; CM.f_history := [] |}) = (r, (w1, cl1))).
  { unfold ws. rewrite world_as_frame. exact Hrun. }
  destruct (run_minimizer_history ws ds sw mz w ws _ eq_refl Hrun')
    as (ws1 & losses & _ & _ & Hh & _ & Hall).
  unfold ws in Hall. rewrite world_as_frame in Hall.
  destruct r as [res|e]; [|discriminate].
  destruct (Tf.assign_new_model_parameters func (CM.position res) _) as [ws'|e'];
    [|discriminate].
  injection Hfit as <- _ _. rewrite Hh. cbn [CM.f_history app].
  apply Hall. reflexivity.
Qed.

(** The example minimiser asks once, at the initial position (1, 2, 3): the
    history has one entry, the loss of the three example choices. *)
Lemma lbfgs_history_lists_the_losses_witness :
  Forall2 (fun x l =>
             CM.optim_loss_at Example.three_choices None Example.toy_world
               (Tf.unflatten (Tf.shape_n Example.toy_weights) x) = Ok l)
    [[1; 2; 3]%R] [CM.reduce_mean [1%R]].
Proof.
  refine (@lbfgs_history_lists_the_losses unit nat nat Example.toy
            Example.three_choices None None Example.toy_world [CM.reduce_mean [1%R]]
            {| CM.converged := true; CM.num_iterations := 1;
               CM.position := [1; 2; 3]%R |}
            Example.toy_world _).
  reflexivity.
Defined.

(** ** Further properties of [ChoiceModel] *)

(** X6. What the constructor leaves behind (lines 66-78), for every name:
    the name is stored as it was given; [self.fit] is rebound to
    [_fit_with_lbfgs] exactly when the lowered name is "lbfgs" or "l-bfgs",
    and then one line is printed; and [self.optimizer] is left unset exactly
    in that case, so that a model whose [fit] is the gradient [fit] always
    has an optimizer. *)
Theorem init_optimizer_binds_fit (name : string) (lr : R) :
  let st := Init.init_optimizer name lr in
  Init.optimizer_name st = name /\
  (Init.self_fit st = Init.FitLbfgs <->
   PyStr.lower name = "lbfgs"%string \/ PyStr.lower name = "l-bfgs"%string) /\
  (Init.self_optimizer st = None <-> Init.self_fit st = Init.FitLbfgs) /\
  (Init.self_fit st = Init.FitLbfgs ->
   Init.printed st = ["Using L-BFGS optimizer, setting up .fit() function"%string]).
Proof.
  cbv zeta. unfold Init.init_optimizer. cbv zeta.
  destruct (Init.eqs (PyStr.lower name) "adam") eqn:E1.
  { apply eqs_true in E1. cbn. rewrite E1.
    repeat split; try discriminate; intros [H|H]; discriminate. }
  destruct (Init.eqs (PyStr.lower name) "sgd") eqn:E2.
  { apply eqs_true in E2. cbn. rewrite E2.
    repeat split; try discriminate; intros [H|H]; discriminate. }
  destruct (Init.eqs (PyStr.lower name) "adamax") eqn:E3.
  { apply eqs_true in E3. cbn. rewrite E3.
    repeat split; try discriminate; intros [H|H]; discriminate. }
  destruct (Init.eqs (PyStr.lower name) "lbfgs") eqn:E4.
  { apply eqs_true in E4. cbn. repeat split; try reflexivity. left. exact E4. }
  destruct (Init.eqs (PyStr.lower name) "l-bfgs") eqn:E5.
  { apply eqs_true in E5. cbn. repeat split; try reflexivity. right. exact E5. }
  cbn. repeat split; try discriminate.
  intros [H|H]; apply eqs_true in H; congruence.
Qed.

(** X7. [train_step] (lines 156-179) needs an optimizer and reports the loss
    before its update: with no optimizer set it raises [AttributeError] and
    leaves the model as it was; otherwise it returns, and the loss it returns
    is the loss that [batch_predict] computes for the same batch, sample
    weights and model before the step (the entry "optimized_loss"). *)
Theorem train_step_reports_the_loss_before_the_update
    (X Slots C : Type) (env : CM.Substrate X Slots C)
    (b : CM.batch X) (sw : option (list R)) (m : CM.model Slots) :
  (CM.optimizer m = None ->
   CM.train_step b sw m
     = (Raise (AttributeError "object has no attribute 'optimizer'"), m)) /\
  (CM.optimizer m <> None ->
   fst (CM.train_step b sw m)
     = Ok (CM.optimized_loss (fst (fst (CM.batch_predict b sw m))))).
Proof.
  unfold CM.train_step. split.
  - intros ->. reflexivity.
  - intros Ho. destruct (CM.optimizer m) as [opt|]; [|congruence].
    destruct (CM.apply_gradients opt (CM.opt_state m) _) as [o' ws'].
    reflexivity.
Qed.

Lemma train_step_reports_the_loss_before_the_update_witness :
  fst (CM.train_step Example.three_choices None Example.toy_model)
    = Ok (CM.optimized_loss
            (fst (fst (CM.batch_predict Example.three_choices None
                         Example.toy_model)))).
Proof.
  apply (@train_step_reports_the_loss_before_the_update unit nat nat Example.toy
           Example.three_choices None Example.toy_model).
  simpl. discriminate.
Defined.

(** X8. The two ways in which [fit] fails before its first epoch (lines
    212-226 and 367). When the attribute [instantiated] exists and is false,
    [fit] raises [ValueError] at once: no callback has been called and the
    world is as it was. Otherwise, when the number of epochs is 0, the loop
    body never runs, [train_logs] is never bound, and [fit] raises
    [NameError] at line 367 after [on_train_begin], without calling
    [on_train_end]. *)
Theorem fit_fails_before_the_first_epoch
    (X Slots C : Type) (env : CM.Substrate X Slots C)
    (ds : CM.dataset X) (sw : option (list R)) (val : option (CM.dataset X))
    (ea : option nat) (ba : option Z) (w : CM.world Slots C) :
  (CM.instantiated (CM.self w) = Some false ->
   CM.fit ds sw val ea ba w
     = (Raise (ValueError "Model not instantiated. Please call .instantiate() first."),
        w, [])) /\
  (CM.instantiated (CM.self w) <> Some false ->
   match ea with Some e => e | None => CM.epochs (CM.self w) end = 0 ->
   CM.fit ds sw val ea ba w
     = (Raise (NameError "local variable 'train_logs' referenced before assignment"),
        CM.callbacks CM.on_train_begin w,
        [CM.EvHook CM.on_train_begin])).
Proof.
  unfold CM.fit. split.
  - intros ->. reflexivity.
  - intros Hi He. rewrite He. cbn [CM.epoch_loop CM.fw CM.ftrace].
    destruct (CM.instantiated (CM.self w)) as [[|]|]; try reflexivity. congruence.
Qed.

(** The example model with no epoch asked for. *)
Lemma fit_fails_before_the_first_epoch_witness :
  CM.fit Example.three_choices None None (Some 0) None Example.toy_world
    = (Raise (NameError "local variable 'train_logs' referenced before assignment"),
       CM.callbacks CM.on_train_begin Example.toy_world,
       [CM.EvHook CM.on_train_begin]).
Proof.
  apply (@fit_fails_before_the_first_epoch unit nat nat Example.toy
           Example.three_choices None None (Some 0) None Example.toy_world).
  - simpl. discriminate.
  - reflexivity.
Defined.

(** X9. A dataset that yields no training batch (lines 248-308): with a
    batch size other than -1, the first epoch of [fit] raises [NameError],
    because the loop variable [available_items_batch] that line 308 reads was
    never bound. [on_train_begin] and [on_epoch_begin] have been called, no
    training step has run, and neither [on_epoch_end] nor [on_train_end] is
    called. *)
Theorem fit_without_batches_raises
    (X Slots C : Type) (env : CM.Substrate X Slots C)
    (ds : CM.dataset X) (sw : option (list R)) (val : option (CM.dataset X))
    (ea : option nat) (ba : option Z) (w : CM.world Slots C) :
  let n_epochs := match ea with Some e => e | None => CM.epochs (CM.self w) end in
  let bsz := match ba with Some b => b | None => CM.batch_size (CM.self w) end in
  let w1 := CM.callbacks (CM.on_epoch_begin 0) (CM.callbacks CM.on_train_begin w) in
  CM.instantiated (CM.self w) <> Some false ->
  0 < n_epochs ->
  bsz <> (-1)%Z ->
  CM.inner_range ds sw bsz (CM.rng w1) = [] ->
  CM.fit ds sw val ea ba w
    = (Raise (NameError "local variable referenced before assignment"),
       CM.next_rng w1,
       [CM.EvHook CM.on_train_begin; CM.EvHook (CM.on_epoch_begin 0);
        CM.EvIterBatch 0 0]).
Proof.
  intros n_epochs bsz w1 Hi He Hb Hr. unfold CM.fit.
  fold n_epochs. fold bsz.
  destruct n_epochs as [|n]; [lia|].
  cbn [CM.epoch_loop]. unfold CM.run_epoch. cbv zeta. cbn [CM.fw CM.ftrace CM.fvar].
  fold w1. rewrite Hr. cbn [CM.train_batches length app CM.fvar CM.fw CM.ftrace].
  unfold CM.pass_loss.
  destruct (bsz =? -1)%Z eqn:E; [apply Z.eqb_eq in E; contradiction|].
  cbn [negb].
  destruct (CM.instantiated (CM.self w)) as [[|]|]; try reflexivity. congruence.
Qed.

(** The example model on a dataset without any choice, in batches of two. *)
Lemma fit_without_batches_raises_witness :
  fst (fst (CM.fit (env := Example.toy) [] None None None None Example.toy_world))
    = Raise (NameError "local variable referenced before assignment").
Proof.
  rewrite (@fit_without_batches_raises unit nat nat Example.toy [] None None None None
             Example.toy_world).
  - reflexivity.
  - simpl. discriminate.
  - simpl. lia.
  - simpl. discriminate.
  - reflexivity.
Defined.

Section HistoryFacts.
Context {X Slots C : Type} {env : CM.Substrate X Slots C}.

(** One epoch adds one training loss and, with a validation set, one test
    loss. *)
Lemma run_epoch_history (ds : CM.dataset X) (sw : option (list R))
    (val : option (CM.dataset X)) (bsz : Z) (e : nat) (hist : CM.history)
    (st : CM.fstate) h1 logs st1 :
  CM.run_epoch ds sw val bsz e hist st = (Ok (h1, logs), st1) ->
  length (CM.train_loss h1) = S (length (CM.train_loss hist)) /\
  (val = None -> CM.test_loss h1 = CM.test_loss hist) /\
  (val <> None -> length (CM.test_loss h1) = S (length (CM.test_loss hist))).
Proof.
  unfold CM.run_epoch. cbv zeta.
  destruct (CM.train_batches e 0 _ [] _) as [[epoch_losses|ex] st2]; [|discriminate].
  destruct (CM.pass_loss bsz epoch_losses (CM.fvar st2) (length ds))
    as [epoch_loss|ex]; [|discriminate].
  destruct val as [vds|].
  - destruct (CM.val_batches e 0 _ [] st2) as [test_losses st3].
    intros H. injection H as <- _ _. cbn [CM.train_loss CM.test_loss].
    rewrite !length_app. cbn [length].
    split; [lia|]. split; [discriminate|]. intros _. lia.
  - intros H. injection H as <- _ _. cbn [CM.train_loss CM.test_loss].
    rewrite length_app. cbn [length].
    split; [lia|]. split; [reflexivity|]. congruence.
Qed.

Lemma epoch_loop_history (ds : CM.dataset X) (sw : option (list R))
    (val : option (CM.dataset X)) (bsz : Z) (n : nat) :
  forall (e : nat) (hist : CM.history) (last_logs : option CM.logs)
         (st : CM.fstate) h' last' st',
  CM.epoch_loop n e ds sw val bsz hist last_logs st = (Ok (h', last'), st') ->
  exists k,
    length (CM.train_loss h') = length (CM.train_loss hist) + k /\
    (val = None -> CM.test_loss h' = CM.test_loss hist) /\
    (val <> None -> length (CM.test_loss h') = length (CM.test_loss hist) + k).
Proof.
  induction n as [|n IH]; intros e hist last_logs st h' last' st' H.
  - cbn [CM.epoch_loop] in H. injection H as <- _ _. exists 0.
    split; [lia|]. split; [reflexivity|]. intros _. lia.
  - cbn [CM.epoch_loop] in H.
    destruct (CM.run_epoch ds sw val bsz e hist st) as [[[h1 logs]|ex] st1] eqn:Er;
      [|discriminate].
    apply run_epoch_history in Er. destruct Er as (Ht & Hn & Hv).
    destruct (CM.stop_training (CM.self (CM.fw st1))).
    + injection H as <- _ _. exists 1.
      split; [lia|]. split; [exact Hn|]. intros Hval. rewrite (Hv Hval). lia.
    + apply IH in H. destruct H as (k & Ht' & Hn' & Hv').
      exists (S k). split; [lia|]. split.
      * intros Hval. rewrite (Hn' Hval). apply Hn. exact Hval.
      * intros Hval. rewrite (Hv' Hval), (Hv Hval). lia.
Qed.

End HistoryFacts.

(** X10. The two lists of the history that [fit] returns (lines 316 and
    327-355): with a validation dataset, "test_loss" has one entry for each
    epoch that ran, as "train_loss" has; without one, no test loss is ever
    recorded. *)
Theorem fit_records_one_test_loss_per_epoch
    (X Slots C : Type) (env : CM.Substrate X Slots C)
    (ds : CM.dataset X) (sw : option (list R)) (val : option (CM.dataset X))
    (ea : option nat) (ba : option Z) (w : CM.world Slots C)
    (hist : CM.history) (w' : CM.world Slots C) (tr : list CM.event) :
  CM.fit ds sw val ea ba w = (Ok hist, w', tr) ->
  (val = None -> CM.test_loss hist = []) /\
  (val <> None -> length (CM.test_loss hist) = length (CM.train_loss hist)).
Proof.
  unfold CM.fit. intros H.
  destruct (CM.instantiated (CM.self w)) as [[|]|];
    try discriminate;
    (destruct (CM.epoch_loop _ 0 ds sw val _ _ None _)
       as [[[h' [logs|]]|ex] st1] eqn:El; try discriminate;
     injection H as <- _ _;
     apply epoch_loop_history in El; destruct El as (k & Ht & Hn & Hv);
     cbn [CM.train_loss CM.test_loss length] in *;
     split; [exact Hn | intros Hval; rewrite (Hv Hval); lia]).
Qed.

(** The example run with the three example choices as validation set too:
    two epochs run, and the history holds two training and two test
    losses. *)
Lemma fit_records_one_test_loss_per_epoch_witness :
  exists hist w' tr,
    CM.fit Example.three_choices None (Some Example.three_choices) None None
      Example.toy_world = (Ok hist, w', tr) /\
    length (CM.train_loss hist) = 2 /\
    length (CM.test_loss hist) = length (CM.train_loss hist).
Proof.
  eexists. eexists. eexists.
  split; [vm_compute; reflexivity|].
  split; [reflexivity|].
  refine (proj2 (@fit_records_one_test_loss_per_epoch unit nat nat Example.toy
                   Example.three_choices None (Some Example.three_choices) None None
                   Example.toy_world _ _ _ _) _).
  - vm_compute. reflexivity.
  - discriminate.
Defined.

Section BatchFacts.
Context {X Slots C : Type} {env : CM.Substrate X Slots C}.

Lemma predict_batches_spec (bs : list (CM.batch X)) :
  forall (acc : list CM.matrix) (m : CM.model Slots),
  CM.predict_batches bs acc m
    = (acc ++ map (CM.probabilities_of m (CM.weights m)) bs, m).
Proof.
  induction bs as [|b bs IH]; intros acc m.
  - simpl. rewrite app_nil_r. reflexivity.
  - cbn [CM.predict_batches CM.batch_predict]. rewrite IH.
    rewrite <- app_assoc. reflexivity.
Qed.

Lemma rowwise_nil (m : CM.model Slots) :
  Batching.rowwise m -> CM.probabilities_of m (CM.weights m) [] = [].
Proof.
  intros Hr. specialize (Hr [] []). cbn [app] in Hr.
  apply (f_equal (@length _)) in Hr. rewrite length_app in Hr.
  apply length_zero_iff_nil. lia.
Qed.

Lemma rowwise_concat (m : CM.model Slots) (bs : list (CM.batch X)) :
  Batching.rowwise m ->
  concat (map (CM.probabilities_of m (CM.weights m)) bs)
    = CM.probabilities_of m (CM.weights m) (concat bs).
Proof.
  intros Hr. induction bs as [|b bs IH]; cbn [map concat].
  - symmetry. apply rowwise_nil. exact Hr.
  - rewrite IH. symmetry. apply Hr.
Qed.

(** The losses that the loop of [evaluate] collects, and its last batch. *)
Lemma evaluate_batches_spec (bs : list (CM.batch X)) (sw : option (list R))
    (mode : string) :
  forall (acc : list R) (last0 : option (CM.batch X)) (m : CM.model Slots),
  CM.evaluate_batches bs sw mode acc last0 m
    = ((acc ++ flat_map
                 (fun b =>
                    if Init.eqs mode "eval"
                    then [CM.NegativeLogLikelihood (fst (fst (CM.batch_predict b sw m)))]
                    else if Init.eqs mode "optim"
                    then [CM.optimized_loss (fst (fst (CM.batch_predict b sw m)))]
                    else []) bs,
        match bs with [] => last0 | _ :: _ => Some (last bs []) end), m).
Proof.
  induction bs as [|b bs IH]; intros acc last0 m.
  - simpl. rewrite app_nil_r. reflexivity.
  - cbn [CM.evaluate_batches CM.batch_predict fst snd]. rewrite IH.
    cbn [flat_map CM.batch_predict fst snd].
    destruct (Init.eqs mode "eval"); [|destruct (Init.eqs mode "optim")];
      rewrite <- ?app_assoc; cbn [app]; rewrite ?app_nil_r;
      (destruct bs as [|b' bs]; reflexivity).
Qed.

Lemma flat_map_singleton (A B : Type) (f : A -> B) (l : list A) :
  flat_map (fun a => [f a]) l = map f l.
Proof. induction l as [|a l IH]; simpl; [|rewrite IH]; reflexivity. Qed.

Lemma flat_map_nil (A B : Type) (l : list A) :
  flat_map (fun _ : A => @nil B) l = [].
Proof. induction l as [|a l IH]; simpl; [|rewrite IH]; reflexivity. Qed.

Lemma last_map_nonempty (A B : Type) (f : A -> B) (l : list A) (d : A) (d' : B) :
  l <> [] -> last (map f l) d' = f (last l d).
Proof.
  induction l as [|a l IH]; intros Hne; [congruence|].
  destruct l as [|b l]; [reflexivity|].
  change (last (map f (a :: b :: l)) d') with (last (map f (b :: l)) d').
  change (last (a :: b :: l) d) with (last (b :: l) d).
  apply IH. discriminate.
Qed.

(** [evaluate] in a mode that collects one loss per batch. *)
Lemma evaluate_spec (ds : CM.dataset X) (sw : option (list R)) (bsz : Z)
    (mode : string) (pick : CM.batch_loss -> R) (w : CM.world Slots C) :
  (forall (bs : list (CM.batch X)) (m : CM.model Slots),
      flat_map
        (fun b =>
           if Init.eqs mode "eval"
           then [CM.NegativeLogLikelihood (fst (fst (CM.batch_predict b sw m)))]
           else if Init.eqs mode "optim"
           then [CM.optimized_loss (fst (fst (CM.batch_predict b sw m)))]
           else []) bs
      = map (fun b => pick (fst (fst (CM.batch_predict b sw m)))) bs) ->
  forall x w',
  CM.evaluate ds sw bsz mode w = (Ok x, w') ->
  w' = w /\
  x = CM.claimed_epoch_loss bsz
        (map (fun b => (length b, pick (fst (fst (CM.batch_predict b sw (CM.self w))))))
             (CM.iter_batch ds false bsz (CM.rng w)))
        (length ds).
Proof.
  intros Hpick x w' H.
  pose proof (evaluate_frame ds sw bsz mode w) as Hf. rewrite H in Hf.
  cbn [snd] in Hf. split; [exact Hf|].
  unfold CM.evaluate in H. rewrite evaluate_batches_spec in H.
  cbn [app] in H. rewrite Hpick in H.
  injection H as H _.
  set (bs := CM.iter_batch ds false bsz (CM.rng w)) in *.
  apply (@pass_loss_claimed X bsz
           (map (fun b => (length b,
                           pick (fst (fst (CM.batch_predict b sw (CM.self w)))))) bs)
           (match bs with [] => None | _ :: _ => Some (last bs []) end)
           (length ds) x).
  - rewrite map_map. cbn [snd]. exact H.
  - intros Hne. destruct bs as [|b bs']; [exfalso; apply Hne; reflexivity|].
    exists (last (b :: bs') []). split; [reflexivity|].
    rewrite (@last_map_nonempty _ _ _ (b :: bs') [] (0, 0%R)) by discriminate.
    reflexivity.
Qed.

End BatchFacts.

(** X11. [predict_probas] (lines 504-519) stacks the probabilities of the
    batches, in the order in which the dataset yields them, each computed
    with the present parameters, and leaves the world as it was; when the
    dataset yields no batch, [tf.concat] of the empty list raises. When the
    forward pass works choice by choice and the batches, put end to end, are
    the dataset, the result is the probabilities of the dataset taken as one
    batch: it does not depend on the batch size. *)
Theorem predict_probas_stacks_the_batches
    (X Slots C : Type) (env : CM.Substrate X Slots C)
    (ds : CM.dataset X) (bsz : Z) (w : CM.world Slots C) :
  let bs := CM.iter_batch ds false bsz (CM.rng w) in
  let p := CM.probabilities_of (CM.self w) (CM.weights (CM.self w)) in
  (bs = [] -> exists e, CM.predict_probas ds bsz w = (Raise e, w)) /\
  (bs <> [] -> CM.predict_probas ds bsz w = (Ok (concat (map p bs)), w)) /\
  (bs <> [] -> concat bs = ds -> Batching.rowwise (CM.self w) ->
   CM.predict_probas ds bsz w = (Ok (p ds), w)).
Proof.
  intros bs p.
  assert (Hrun : CM.predict_probas ds bsz w
                 = (match map p bs with
                    | [] => Raise (ValueError "tf.concat: list of tensors is empty")
                    | _ :: _ => Ok (concat (map p bs))
                    end, w)).
  { unfold CM.predict_probas. fold bs. rewrite predict_batches_spec.
    cbn [app]. fold p. rewrite with_self_self.
    destruct (map p bs); reflexivity. }
  split; [|split].
  - intros Hb. rewrite Hrun, Hb. eexists. reflexivity.
  - intros Hb. rewrite Hrun. destruct bs; [congruence | reflexivity].
  - intros Hb Hc Hr. rewrite Hrun. unfold p.
    rewrite (rowwise_concat bs Hr), Hc.
    destruct (map _ bs) eqn:E; [|reflexivity].
    apply map_eq_nil in E. contradiction.
Qed.

Lemma toy_rowwise : Batching.rowwise (env := Example.toy) Example.toy_model.
Proof. intros b1 b2. unfold CM.probabilities_of. simpl. apply map_app. Qed.

(** The three example choices in batches of two: the prediction is the
    prediction for the three choices at once. *)
Lemma predict_probas_stacks_the_batches_witness :
  CM.predict_probas Example.three_choices 2 Example.toy_world
    = (Ok (CM.probabilities_of Example.toy_model (CM.weights Example.toy_model)
             Example.three_choices),
       Example.toy_world).
Proof.
  apply (@predict_probas_stacks_the_batches unit nat nat Example.toy
           Example.three_choices 2 Example.toy_world).
  - vm_compute. discriminate.
  - reflexivity.
  - exact toy_rowwise.
Defined.

(** X12. The loss that [evaluate] returns (lines 537-564), in the mode
    "eval" from the entries "NegativeLogLikelihood" and in the mode "optim"
    from the entries "optimized_loss" of [batch_predict] on the batches that
    the dataset yields: with [batch_size = -1] their plain mean; otherwise
    their sum, each but the last weighted by the requested batch size and the
    last by the true size of its batch, divided by the length of the dataset.
    Every batch is predicted with the whole [sample_weight] and with the same
    parameters, and the world is left as it was. *)
Theorem evaluate_is_the_weighted_mean
    (X Slots C : Type) (env : CM.Substrate X Slots C)
    (ds : CM.dataset X) (sw : option (list R)) (bsz : Z) (w : CM.world Slots C) :
  let bs := CM.iter_batch ds false bsz (CM.rng w) in
  let loss b := fst (fst (CM.batch_predict b sw (CM.self w))) in
  (forall x w',
      CM.evaluate ds sw bsz "eval" w = (Ok x, w') ->
      w' = w /\
      x = CM.claimed_epoch_loss bsz
            (map (fun b => (length b, CM.NegativeLogLikelihood (loss b))) bs)
            (length ds)) /\
  (forall x w',
      CM.evaluate ds sw bsz "optim" w = (Ok x, w') ->
      w' = w /\
      x = CM.claimed_epoch_loss bsz
            (map (fun b => (length b, CM.optimized_loss (loss b))) bs)
            (length ds)).
Proof.
  intros bs loss. split; intros x w' H.
  - apply (@evaluate_spec X Slots C env ds sw bsz "eval" CM.NegativeLogLikelihood w);
      [|exact H].
    intros bs0 m. cbn. apply flat_map_singleton.
  - apply (@evaluate_spec X Slots C env ds sw bsz "optim" CM.optimized_loss w);
      [|exact H].
    intros bs0 m. cbn. apply flat_map_singleton.
Qed.

(** X13. The edge cases of [evaluate] with a batch size other than -1 (lines
    551-558). When the dataset yields no batch, the loop variable
    [available_items_by_choice] that line 556 reads was never bound, and
    [evaluate] raises [NameError]. When the mode is neither "eval" nor
    "optim", no loss is collected whatever the batches are, and [evaluate]
    raises instead of returning a loss as soon as the dataset yields a batch.
    The world is as it was in both cases. *)
Theorem evaluate_raises_without_losses
    (X Slots C : Type) (env : CM.Substrate X Slots C)
    (ds : CM.dataset X) (sw : option (list R)) (bsz : Z) (mode : string)
    (w : CM.world Slots C) :
  bsz <> (-1)%Z ->
  (CM.iter_batch ds false bsz (CM.rng w) = [] ->
   CM.evaluate ds sw bsz mode w
     = (Raise (NameError "local variable referenced before assignment"), w)) /\
  (CM.iter_batch ds false bsz (CM.rng w) <> [] ->
   mode <> "eval"%string -> mode <> "optim"%string ->
   exists e, CM.evaluate ds sw bsz mode w = (Raise e, w)).
Proof.
  intros Hb.
  assert (Hneg : negb (bsz =? -1)%Z = true).
  { destruct (bsz =? -1)%Z eqn:E; [apply Z.eqb_eq in E; contradiction | reflexivity]. }
  unfold CM.evaluate. rewrite evaluate_batches_spec, with_self_self.
  unfold CM.pass_loss. rewrite Hneg. split.
  - intros ->. reflexivity.
  - intros Hne He Ho.
    destruct (Init.eqs mode "eval") eqn:E1; [apply eqs_true in E1; contradiction|].
    destruct (Init.eqs mode "optim") eqn:E2; [apply eqs_true in E2; contradiction|].
    rewrite flat_map_nil. cbn [app].
    destruct (CM.iter_batch ds false bsz (CM.rng w)); [congruence|].
    eexists. reflexivity.
Qed.

(** The example model: a dataset without any choice, and the mode
    "test". *)
Lemma evaluate_raises_without_losses_witness :
  CM.evaluate (env := Example.toy) [] None 2 "eval" Example.toy_world
    = (Raise (NameError "local variable referenced before assignment"),
       Example.toy_world) /\
  exists e,
    CM.evaluate Example.three_choices None 2 "test" Example.toy_world
      = (Raise e, Example.toy_world).
Proof.
  split.
  - apply (@evaluate_raises_without_losses unit nat nat Example.toy [] None 2 "eval"
             Example.toy_world); [discriminate | reflexivity].
  - apply (@evaluate_raises_without_losses unit nat nat Example.toy
             Example.three_choices None 2 "test" Example.toy_world);
      [discriminate | vm_compute; discriminate | discriminate | discriminate].
Defined.

(** The three example choices in batches of two, each batch with the loss
    1: the loss is (1 * 2 + 1 * 1) / 3. *)
Lemma evaluate_is_the_weighted_mean_witness :
  exists x,
    CM.evaluate Example.three_choices None 2 "eval" Example.toy_world
      = (Ok x, Example.toy_world) /\
    x = CM.claimed_epoch_loss 2 [(2, 1%R); (1, 1%R)] 3.
Proof.
  eexists. split; [vm_compute; reflexivity|].
  refine (proj2 (proj1 (@evaluate_is_the_weighted_mean unit nat nat Example.toy
                          Example.three_choices None 2 Example.toy_world)
                   _ Example.toy_world _)).
  vm_compute. reflexivity.
Defined.

(** ** Further properties of [BaseLatentClassModel] *)

(** X14. The constructor and [instantiate] (lines 753-785). A list of
    hyper-parameters whose length is not the number of classes is refused
    with [ValueError]. Otherwise the model holds one set of hyper-parameters
    for each class (the given list, or the one given set repeated), and
    neither sub-models nor logits yet. With at least one class,
    [instantiate] then returns, builds and instantiates one sub-model for
    each class from its hyper-parameters, in order, and draws one logit less
    than there are classes; it leaves the attribute [instantiated] at
    false. *)
Theorem latent_constructor_then_instantiate
    (F X D H M : Type) (sc : Num.Scalar F) (env : LC.Substrate F X D H M)
    (n : nat) (params : list H + H) (method : string) (n_epochs : nat)
    (opt : option string) (exit_choice : bool) :
  (forall ps, params = inl ps -> length ps <> n ->
     exists msg,
       LC.init (M := M) (F := F) n params method n_epochs opt exit_choice
         = Raise (ValueError msg)) /\
  (forall s : @LC.lmodel F H M,
     LC.init n params method n_epochs opt exit_choice = Ok s ->
     LC.n_latent_classes s = n /\
     length (LC.model_parameters s) = n /\
     (forall ps, params = inl ps -> LC.model_parameters s = ps) /\
     (forall p, params = inr p -> LC.model_parameters s = repeat p n) /\
     LC.latent_logits s = None /\ LC.models s = None /\
     (0 < n ->
      fst (LC.instantiate s) = Ok tt /\
      LC.models (snd (LC.instantiate s))
        = Some (map (fun h => LC.m_instantiate (LC.construct h))
                    (LC.model_parameters s)) /\
      (exists logits,
          LC.latent_logits (snd (LC.instantiate s)) = Some logits /\
          S (length logits) = n) /\
      LC.instantiated (snd (LC.instantiate s)) = false)).
Proof.
  split.
  - intros ps -> Hlen. unfold LC.init.
    destruct (length ps =? n) eqn:E; [apply Nat.eqb_eq in E; contradiction|].
    cbn [negb]. eexists. reflexivity.
  - intros s Hs.
    assert (Hfields :
      LC.n_latent_classes s = n /\
      length (LC.model_parameters s) = n /\
      (forall ps, params = inl ps -> LC.model_parameters s = ps) /\
      (forall p, params = inr p -> LC.model_parameters s = repeat p n) /\
      LC.latent_logits s = None /\ LC.models s = None /\
      LC.instantiated s = false).
    { unfold LC.init in Hs. destruct params as [ps|p].
      - destruct (length ps =? n) eqn:E; cbn [negb] in Hs; [|discriminate].
        apply Nat.eqb_eq in E. injection Hs as <-.
        cbn. repeat split; try assumption; try discriminate.
        intros ps' Hps. injection Hps as <-. reflexivity.
      - injection Hs as <-. cbn. rewrite repeat_length.
        repeat split; try discriminate.
        intros p' Hp. injection Hp as <-. reflexivity. }
    destruct Hfields as (Hn & Hlen & Hl & Hr & Hlog & Hm & Hi).
    split; [exact Hn|]. split; [exact Hlen|]. split; [exact Hl|].
    split; [exact Hr|]. split; [exact Hlog|]. split; [exact Hm|].
    intros Hpos. unfold LC.instantiate. rewrite Hn.
    destruct n as [|k]; [lia|].
    cbn [fst snd LC.models LC.latent_logits LC.instantiated LC.set_models
         LC.set_latent_logits LC.model_parameters].
    split; [reflexivity|]. split; [rewrite map_map; reflexivity|].
    split; [|exact Hi].
    eexists. split; [reflexivity|]. rewrite length_map, length_seq. reflexivity.
Qed.

(** The two tables of the example as the hyper-parameters of two classes. *)
Lemma latent_constructor_then_instantiate_witness :
  exists s : @LC.lmodel R (LatentExample.table R) (LatentExample.table R),
    LC.init 2 (inl [LatentExample.flat_table; LatentExample.steep_table]) "EM" 3
      None false = Ok s /\
    LC.models (snd (LC.instantiate (env := LatentExample.toy_real) s))
      = Some [LatentExample.flat_table; LatentExample.steep_table] /\
    LC.instantiated (snd (LC.instantiate (env := LatentExample.toy_real) s)) = false.
Proof.
  eexists. split; [reflexivity|].
  destruct (@latent_constructor_then_instantiate R unit (list nat)
              (LatentExample.table R) (LatentExample.table R) _
              LatentExample.toy_real 2
              (inl [LatentExample.flat_table; LatentExample.steep_table])
              "EM" 3 None false) as [_ Hok].
  destruct (Hok _ eq_refl) as (_ & _ & _ & _ & _ & _ & Hinst).
  destruct (Hinst ltac:(lia)) as (_ & Hm & _ & Hi).
  split; [exact Hm | exact Hi].
Defined.

(** X15. Before [instantiate] (or on any model whose attribute [models] is
    not set), [compute_batch_utility], [batch_predict], [_expectation] and
    [_em_fit] raise [AttributeError] at their first reading of
    [self.models] (lines 824, 900, 1199 and 1264) and leave the model as it
    was. *)
Theorem latent_methods_need_the_models
    (F X D H M : Type) (sc : Num.Scalar F) (env : LC.Substrate F X D H M)
    (b : LC.batch X F) (sw : option (list F)) (ds : D) (s : @LC.lmodel F H M) :
  LC.models s = None ->
  LC.compute_batch_utility b s = (Raise (AttributeError "models"), s) /\
  LC.batch_predict b sw s = (Raise (AttributeError "models"), s) /\
  LC.expectation ds s = (Raise (AttributeError "models"), s) /\
  LC.em_fit ds s = (Raise (AttributeError "models"), s).
Proof.
  intros Hm.
  assert (Hattr : LC.attr "models" LC.models s = (Raise (AttributeError "models"), s)).
  { unfold LC.attr. rewrite Hm. reflexivity. }
  split; [|split; [|split]].
  - unfold LC.compute_batch_utility, LC.mbind. rewrite Hattr. reflexivity.
  - unfold LC.batch_predict, LC.compute_batch_utility, LC.mbind.
    rewrite Hattr. reflexivity.
  - unfold LC.expectation, LC.mbind. rewrite Hattr. reflexivity.
  - unfold LC.em_fit, LC.mbind. rewrite Hattr. reflexivity.
Qed.

(** The model that the constructor returns for the two example tables. *)
Lemma latent_methods_need_the_models_witness :
  LC.init 2 (inl [LatentExample.flat_table; LatentExample.steep_table]) "EM" 3
    None false = Ok MoreExamples.constructed_mixture /\
  fst (LC.batch_predict (env := LatentExample.toy_real) LatentExample.one_batch
         None MoreExamples.constructed_mixture) = Raise (AttributeError "models").
Proof.
  split; [reflexivity|].
  rewrite (proj1 (proj2 (@latent_methods_need_the_models R unit (list nat)
                           (LatentExample.table R) (LatentExample.table R) _
                           LatentExample.toy_real LatentExample.one_batch None
                           LatentExample.one_choice
                           MoreExamples.constructed_mixture eq_refl))).
  reflexivity.
Defined.

(** X16. The calls of [fit] that are refused by its dispatch (lines
    927-940), each leaving the model as it was. A fit method that, lowered,
    is neither "em" nor "mle" raises [ValueError] with the method's name as
    it was given. With "mle" and no optimizer (the default of the
    constructor), [self.optimizer.lower()] raises [AttributeError]; with
    "mle" and an optimizer other than "lbfgs" or "l-bfgs", the call of
    [self._fit_normal], which the class does not define, raises
    [AttributeError]. *)
Theorem latent_fit_refuses
    (F X D H M : Type) (sc : Num.Scalar F) (env : LC.Substrate F X D H M)
    (ds : D) (sw : option (list F)) (s : @LC.lmodel F H M) :
  let method := PyStr.lower (LC.fit_method s) in
  (method <> "em"%string -> method <> "mle"%string ->
   LC.fit ds sw s
     = (Raise (ValueError ("Fit method not implemented: " ++ LC.fit_method s)), s)) /\
  (method = "mle"%string -> LC.optimizer s = None ->
   LC.fit ds sw s
     = (Raise (AttributeError "'NoneType' object has no attribute 'lower'"), s)) /\
  (forall o, method = "mle"%string -> LC.optimizer s = Some o ->
   PyStr.lower o <> "lbfgs"%string -> PyStr.lower o <> "l-bfgs"%string ->
   LC.fit ds sw s
     = (Raise (AttributeError "object has no attribute '_fit_normal'"), s)).
Proof.
  cbv zeta. unfold LC.fit, LC.mbind. split; [|split].
  - intros He Hm.
    destruct (Init.eqs (PyStr.lower (LC.fit_method s)) "em") eqn:E1;
      [apply eqs_true in E1; contradiction|].
    destruct (Init.eqs (PyStr.lower (LC.fit_method s)) "mle") eqn:E2;
      [apply eqs_true in E2; contradiction|].
    reflexivity.
  - intros Hm Ho. rewrite Hm. cbn [Init.eqs String.eqb Ascii.eqb Bool.eqb andb].
    rewrite Ho. reflexivity.
  - intros o Hm Ho Hl1 Hl2. rewrite Hm.
    cbn [Init.eqs String.eqb Ascii.eqb Bool.eqb andb]. rewrite Ho.
    destruct (Init.eqs (PyStr.lower o) "lbfgs") eqn:E1;
      [apply eqs_true in E1; contradiction|].
    destruct (Init.eqs (PyStr.lower o) "l-bfgs") eqn:E2;
      [apply eqs_true in E2; contradiction|].
    reflexivity.
Qed.

(** The example mixture, whose optimizer is not set, with the methods
    "MLE" and "Newton". *)
Lemma latent_fit_refuses_witness :
  fst (LC.fit (env := LatentExample.toy_real) LatentExample.one_choice None
         (LatentExample.real_mixture "MLE"))
    = Raise (AttributeError "'NoneType' object has no attribute 'lower'") /\
  fst (LC.fit (env := LatentExample.toy_real) LatentExample.one_choice None
         (LatentExample.real_mixture "Newton"))
    = Raise (ValueError "Fit method not implemented: Newton").
Proof.
  split.
  - rewrite (proj1 (proj2 (@latent_fit_refuses R unit (list nat)
                             (LatentExample.table R) (LatentExample.table R) _
                             LatentExample.toy_real LatentExample.one_choice None
                             (LatentExample.real_mixture "MLE")))
               eq_refl eq_refl).
    reflexivity.
  - rewrite (proj1 (@latent_fit_refuses R unit (list nat)
                      (LatentExample.table R) (LatentExample.table R) _
                      LatentExample.toy_real LatentExample.one_choice None
                      (LatentExample.real_mixture "Newton")));
      [reflexivity | discriminate | discriminate].
Defined.

Section EStepFacts.
Context {F X D H M : Type} {sc : Num.Scalar F} {env : LC.Substrate F X D H M}.

Lemma map_result_Forall2 (A B : Type) (f : A -> result B) (l : list A) :
  forall bs, map_result f l = Ok bs -> Forall2 (fun a b => f a = Ok b) l bs.
Proof.
  induction l as [|a l IH]; intros bs Hm; simpl in Hm.
  - injection Hm as <-. constructor.
  - destruct (f a) as [b|e] eqn:Ea; simpl in Hm; [|discriminate].
    destruct (map_result f l) as [bs'|e]; simpl in Hm; [|discriminate].
    injection Hm as <-. constructor; [exact Ea | apply IH; reflexivity].
Qed.

(** What a returning E-step has computed. *)
Lemma expectation_unpack (ds : D) (s s1 : @LC.lmodel F H M) (e : list (list F) * F) :
  LC.expectation ds s = (Ok e, s1) ->
  exists ms pps logits weighted,
    LC.models s = Some ms /\
    map_result (fun m => LC.m_predict_probas m ds) ms = Ok pps /\
    LC.latent_logits s = Some logits /\
    map_result
      (fun lp : F * list (list F) =>
         (chosen <- LC.gather_choices (snd lp) (LC.ds_len ds) (LC.ds_choices ds) ;;
          Ok (map (fun x => Num.mul (fst lp) x) chosen))%result)
      (combine logits pps) = Ok weighted /\
    weighted <> [] /\
    e = (LC.divide_rows
           (map (map (fun x => Num.add x (Num.of_R (1 / 10 ^ 10)))) weighted)
           (LC.row_sums (LC.ds_len ds)
              (map (map (fun x => Num.add x (Num.of_R (1 / 10 ^ 10)))) weighted)),
         LC.vsum
           (map Num.log
              (LC.row_sums (LC.ds_len ds)
                 (map (map (fun x => Num.add x (Num.of_R (1 / 10 ^ 10))))
                      weighted)))).
Proof.
  unfold LC.expectation, LC.mbind, LC.attr, LC.lift.
  destruct (LC.models s) as [ms|]; [|discriminate].
  destruct (map_result _ ms) as [pps|ex] eqn:Epp; [|discriminate].
  assert (Hprint : forall c : bool,
            exists s',
              (if c then LC.print "Nan in probas" else LC.ret tt) s = (Ok tt, s') /\
              LC.latent_logits s' = LC.latent_logits s).
  { intros [|]; eexists; split; reflexivity. }
  destruct (Hprint (existsb (existsb LC.has_nan) pps)) as (s' & Hs' & Hl').
  rewrite Hs'. rewrite Hl'.
  destruct (LC.latent_logits s) as [logits|]; [|discriminate].
  match goal with
  | |- context [map_result ?f (combine logits pps)] =>
      destruct (map_result f (combine logits pps)) as [weighted|ex] eqn:Ew
  end; [|discriminate].
  destruct weighted as [|c weighted]; [discriminate|].
  unfold LC.ret. intros Hr. injection Hr as <- _.
  exists ms, pps, logits, (c :: weighted).
  split; [reflexivity|]. split; [exact Epp|]. split; [reflexivity|].
  split; [exact Ew|]. split; [discriminate | reflexivity].
Qed.

End EStepFacts.

Section GatherFacts.
Context {F : Type}.

Lemma gather_from_spec (proba : list (list F)) (choices : list nat) :
  forall i xs,
  LC.gather_from i proba choices = Ok xs ->
  length xs = length choices /\
  Forall (fun x => exists r, In r proba /\ In x r) xs.
Proof.
  induction choices as [|c rest IH]; intros i xs Hg; cbn [LC.gather_from] in Hg.
  - injection Hg as <-. split; [reflexivity | constructor].
  - destruct (nth_error proba i) as [r|] eqn:Er; [|discriminate].
    destruct (nth_error r c) as [x|] eqn:Ex; [|discriminate].
    destruct (LC.gather_from (S i) proba rest) as [xs'|e] eqn:Eg;
      cbn [bind] in Hg; [|discriminate].
    injection Hg as <-. destruct (IH (S i) xs' Eg) as [Hl Hall].
    split; [cbn [length]; rewrite Hl; reflexivity|].
    constructor; [|exact Hall].
    exists r. split; eapply nth_error_In; eassumption.
Qed.

Lemma gather_choices_spec (proba : list (list F)) (n : nat) (choices : list nat)
    (xs : list F) :
  LC.gather_choices proba n choices = Ok xs ->
  length xs = n /\ Forall (fun x => exists r, In r proba /\ In x r) xs.
Proof.
  unfold LC.gather_choices.
  destruct (length choices =? n) eqn:E; [|discriminate].
  apply Nat.eqb_eq in E. intros Hg. apply gather_from_spec in Hg.
  rewrite <- E. exact Hg.
Qed.

Lemma zip_with_length (f : F -> F -> F) (xs : list F) :
  forall ys, length (LC.zip_with f xs ys) = Nat.min (length xs) (length ys).
Proof.
  induction xs as [|x xs IH]; intros [|y ys]; cbn [LC.zip_with length Nat.min];
    try reflexivity.
  rewrite IH. reflexivity.
Qed.

Lemma zip_with_nth (f : F -> F -> F) (d : F) (xs : list F) :
  forall ys i,
  i < length xs -> i < length ys ->
  nth i (LC.zip_with f xs ys) d = f (nth i xs d) (nth i ys d).
Proof.
  induction xs as [|x xs IH]; intros [|y ys] i Hx Hy; cbn [length] in *; try lia.
  destruct i as [|i]; cbn [LC.zip_with nth]; [reflexivity|].
  apply IH; lia.
Qed.

End GatherFacts.

Section EStepRealFacts.
Context {X D H M : Type} {env : LC.Substrate R X D H M}.
Open Scope R_scope.

Lemma vsum_pos (l : list R) :
  l <> [] -> Forall (fun x => 0 < x) l -> 0 < LC.vsum l.
Proof.
  intros Hne Hall. induction Hall as [|x l Hx Hall IH]; [congruence|].
  rewrite vsum_cons. destruct l as [|y l].
  - rewrite vsum_nil. lra.
  - assert (0 < LC.vsum (y :: l)) by (apply IH; discriminate). lra.
Qed.

(** The columns that the E-step weighs: one entry for each choice of the
    dataset, none of them negative. *)
Lemma weighted_columns (ds : D) (logits : list R) :
  forall (pps : list (list (list R))) (weighted : list (list R)),
  map_result
    (fun lp : R * list (list R) =>
       (chosen <- LC.gather_choices (snd lp) (LC.ds_len ds) (LC.ds_choices ds) ;;
        Ok (map (fun x => Num.mul (fst lp) x) chosen))%result)
    (combine logits pps) = Ok weighted ->
  Forall (fun l => 0 <= l) logits ->
  Forall (Forall (Forall (fun p => 0 <= p))) pps ->
  Forall (fun col => length col = LC.ds_len ds /\ Forall (fun x => 0 <= x) col)
         weighted.
Proof.
  induction logits as [|l logits IH]; intros pps weighted Hm Hl Hp.
  - cbn in Hm. injection Hm as <-. constructor.
  - destruct pps as [|pp pps]; [cbn in Hm; injection Hm as <-; constructor|].
    cbn [combine map_result fst snd] in Hm.
    destruct (LC.gather_choices pp (LC.ds_len ds) (LC.ds_choices ds))
      as [chosen|e] eqn:Eg; cbn [bind] in Hm; [|discriminate].
    destruct (map_result _ (combine logits pps)) as [rest|e] eqn:Er;
      cbn [bind] in Hm; [|discriminate].
    injection Hm as <-.
    inversion Hl as [|? ? Hl0 Hl']; subst.
    inversion Hp as [|? ? Hp0 Hp']; subst.
    apply gather_choices_spec in Eg. destruct Eg as [Hlen Hin].
    constructor; [|apply (IH pps rest Er Hl' Hp')].
    split; [rewrite length_map; exact Hlen|].
    apply Forall_map. rewrite Forall_forall in *.
    intros x Hx. destruct (Hin x Hx) as (r & Hr & Hxr).
    specialize (Hp0 r Hr). rewrite Forall_forall in Hp0.
    cbn [Num.mul Num.real_scalar]. apply Rmult_le_pos; [exact Hl0 | apply Hp0; exact Hxr].
Qed.

Lemma row_sums_nth (n i : nat) (cols : list (list R)) :
  (i < n)%nat -> nth i (LC.row_sums n cols) 0 = LC.vsum (LC.row i cols).
Proof.
  intros Hi. unfold LC.row_sums.
  rewrite (nth_indep _ 0 (LC.vsum (LC.row 0 cols)))
    by (rewrite length_map, length_seq; exact Hi).
  rewrite (map_nth (fun i => LC.vsum (LC.row i cols))).
  rewrite seq_nth by exact Hi. reflexivity.
Qed.

Lemma row_positive (n i : nat) (cols : list (list R)) :
  Forall (fun col => length col = n /\ Forall (fun x => 0 < x) col) cols ->
  (i < n)%nat ->
  Forall (fun x => 0 < x) (LC.row i cols).
Proof.
  intros Hc Hi. unfold LC.row. apply Forall_map.
  revert Hc. apply Forall_impl. intros col [Hlen Hpos].
  rewrite Forall_forall in Hpos. apply Hpos. apply nth_In. lia.
Qed.

(** Dividing the columns by the sums of the rows divides every row by its
    sum. *)
Lemma row_divide_rows (n i : nat) (cols : list (list R)) :
  Forall (fun col => length col = n) cols ->
  (i < n)%nat ->
  LC.row i (LC.divide_rows cols (LC.row_sums n cols))
    = map (fun x => x / LC.vsum (LC.row i cols)) (LC.row i cols).
Proof.
  intros Hc Hi. unfold LC.row at 1. unfold LC.divide_rows. rewrite map_map.
  unfold LC.row at 2. rewrite map_map.
  apply map_ext_in. intros col Hin.
  rewrite Forall_forall in Hc. specialize (Hc col Hin).
  change (@Num.of_R R Num.real_scalar 0) with 0.
  rewrite zip_with_nth.
  - rewrite (row_sums_nth cols Hi). reflexivity.
  - lia.
  - unfold LC.row_sums. rewrite length_map, length_seq. exact Hi.
Qed.

(** The rows of the normalised columns: positive entries that sum to 1. *)
Lemma normalised_rows (n i : nat) (cols : list (list R)) :
  cols <> [] ->
  Forall (fun col => length col = n /\ Forall (fun x => 0 < x) col) cols ->
  (i < n)%nat ->
  LC.vsum (LC.row i (LC.divide_rows cols (LC.row_sums n cols))) = 1 /\
  Forall (fun r => 0 < r) (LC.row i (LC.divide_rows cols (LC.row_sums n cols))).
Proof.
  intros Hne Hpos Hi.
  assert (Hlen : Forall (fun col => length col = n) cols).
  { revert Hpos. apply Forall_impl. intros col [Hc _]. exact Hc. }
  rewrite (row_divide_rows Hlen Hi).
  pose proof (row_positive Hpos Hi) as Hrow.
  assert (Hsum : 0 < LC.vsum (LC.row i cols)).
  { apply vsum_pos; [|exact Hrow]. unfold LC.row. intros Hc.
    apply map_eq_nil in Hc. contradiction. }
  split.
  - rewrite vsum_div. field. lra.
  - apply Forall_map. revert Hrow. apply Forall_impl. intros x Hx.
    apply Rdiv_lt_0_compat; assumption.
Qed.

Lemma divide_rows_lengths (n : nat) (cols : list (list R)) :
  Forall (fun col => length col = n) cols ->
  Forall (fun col => length col = n) (LC.divide_rows cols (LC.row_sums n cols)).
Proof.
  intros Hlen. unfold LC.divide_rows. apply Forall_map.
  revert Hlen. apply Forall_impl. intros col Hc.
  rewrite zip_with_length, Hc.
  unfold LC.row_sums. rewrite length_map, length_seq. apply Nat.min_id.
Qed.

(** The columns that a returning E-step normalises, when neither the
    entries of [self.latent_logits] nor the predicted probabilities are
    negative: at least one column, one entry for each choice, all entries
    positive. *)
Lemma expectation_positive_columns (ds : D) (s s1 : @LC.lmodel R H M)
    (resp : list (list R)) (loss : R) (logits : list R) (ms : list M) :
  LC.expectation ds s = (Ok (resp, loss), s1) ->
  LC.latent_logits s = Some logits ->
  Forall (fun l => 0 <= l) logits ->
  LC.models s = Some ms ->
  (forall m pp, In m ms -> LC.m_predict_probas m ds = Ok pp ->
                Forall (Forall (fun p => 0 <= p)) pp) ->
  exists cols,
    resp = LC.divide_rows cols (LC.row_sums (LC.ds_len ds) cols) /\
    cols <> [] /\
    Forall (fun col => length col = LC.ds_len ds /\ Forall (fun x => 0 < x) col) cols.
Proof.
  intros Hrun Hlog Hl Hms Hprob.
  apply expectation_unpack in Hrun.
  destruct Hrun as (ms' & pps & logits' & weighted & Hms' & Hpp & Hlog' & Hw & Hne & He).
  rewrite Hms in Hms'. injection Hms' as <-.
  rewrite Hlog in Hlog'. injection Hlog' as <-.
  apply (f_equal fst) in He. cbn [fst] in He.
  assert (Hpps : Forall (Forall (Forall (fun p => 0 <= p))) pps).
  { apply map_result_Forall2 in Hpp.
    clear - Hpp Hprob. induction Hpp as [|m pp ms pps Hm _ IH]; constructor.
    - apply (Hprob m pp); [left; reflexivity | exact Hm].
    - apply IH. intros m' pp' Hin. apply Hprob. right. exact Hin. }
  pose proof (@weighted_columns ds logits pps weighted Hw Hl Hpps) as Hcols.
  exists (map (map (fun x : R => Num.add x (Num.of_R (1 / 10 ^ 10)))) weighted).
  split; [exact He|]. split.
  - intros Hc. apply map_eq_nil in Hc. contradiction.
  - apply Forall_map. revert Hcols. apply Forall_impl.
    intros col [Hlen Hnn]. split; [rewrite length_map; exact Hlen|].
    apply Forall_map. revert Hnn. apply Forall_impl. intros x Hx.
    cbn [Num.add Num.of_R Num.real_scalar].
    assert (0 < 1 / 10 ^ 10) by (simpl; lra). lra.
Qed.

End EStepRealFacts.

(** X17. The E-step in real arithmetic (lines 1199-1216). When the entries
    of [self.latent_logits] and the probabilities that the sub-models predict
    are not negative, the responsibilities that [_expectation] returns form
    at least one column, every column has one entry for each choice of the
    dataset, and in every row the entries are positive and sum to 1. *)
Theorem expectation_rows_sum_to_one
    (X D H M : Type) (env : LC.Substrate R X D H M)
    (ds : D) (s s1 : @LC.lmodel R H M) (resp : list (list R)) (loss : R)
    (logits : list R) (ms : list M) :
  LC.expectation ds s = (Ok (resp, loss), s1) ->
  LC.latent_logits s = Some logits ->
  Forall (fun l => (0 <= l)%R) logits ->
  LC.models s = Some ms ->
  (forall m pp, In m ms -> LC.m_predict_probas m ds = Ok pp ->
                Forall (Forall (fun p => (0 <= p)%R)) pp) ->
  resp <> [] /\
  Forall (fun col => length col = LC.ds_len ds) resp /\
  forall i, i < LC.ds_len ds ->
    LC.vsum (LC.row i resp) = 1%R /\
    Forall (fun r => (0 < r)%R) (LC.row i resp).
Proof.
  intros Hrun Hlog Hl Hms Hprob.
  destruct (@expectation_positive_columns X D H M env ds s s1 resp loss logits ms
              Hrun Hlog Hl Hms Hprob) as (cols & -> & Hne & Hpos).
  split; [|split].
  - unfold LC.divide_rows. intros Hc. apply map_eq_nil in Hc. contradiction.
  - apply divide_rows_lengths. revert Hpos. apply Forall_impl.
    intros col [Hc _]. exact Hc.
  - intros i Hi. apply normalised_rows; assumption.
Qed.

(** The example mixture with the weights 1/2 and 1/2 on the dataset of one
    choice: the one row of the responsibilities sums to 1. *)
Lemma expectation_rows_sum_to_one_witness :
  exists resp loss s1,
    LC.expectation (env := LatentExample.toy_real) LatentExample.one_choice
      MoreExamples.weighted_mixture = (Ok (resp, loss), s1) /\
    LC.vsum (LC.row 0 resp) = 1%R.
Proof.
  eexists. eexists. eexists. split; [vm_compute; reflexivity|].
  refine (proj1 (proj2 (proj2
            (@expectation_rows_sum_to_one unit (list nat) (LatentExample.table R)
               (LatentExample.table R) LatentExample.toy_real
               LatentExample.one_choice MoreExamples.weighted_mixture _ _ _
               [(1 / 2)%R; (1 / 2)%R]
               [LatentExample.flat_table; LatentExample.steep_table]
               _ eq_refl _ eq_refl _)) 0 _)).
  - vm_compute. reflexivity.
  - repeat constructor; lra.
  - intros m pp [<-|[<-|[]]] Hpp; injection Hpp as <-; repeat constructor; lra.
  - simpl. lia.
Defined.

Section MStepFacts.
Context {F X D H M : Type} {sc : Num.Scalar F} {env : LC.Substrate F X D H M}.

Lemma replace_at_length (A : Type) (i : nat) (a : A) (l : list A) :
  i < length l -> length (replace_at i a l) = length l.
Proof.
  intros Hi. unfold replace_at.
  rewrite length_app, length_firstn. cbn [length]. rewrite length_skipn. lia.
Qed.

Lemma replace_at_same (A : Type) (i : nat) (a : A) (l : list A) :
  i < length l -> nth_error (replace_at i a l) i = Some a.
Proof.
  intros Hi. unfold replace_at.
  rewrite nth_error_app2 by (rewrite length_firstn; lia).
  rewrite length_firstn. replace (i - Nat.min i (length l)) with 0 by lia.
  reflexivity.
Qed.

Lemma replace_at_other (A : Type) (i j : nat) (a : A) (l : list A) :
  i < length l -> j <> i -> nth_error (replace_at i a l) j = nth_error l j.
Proof.
  intros Hi Hj. unfold replace_at.
  destruct (Nat.lt_ge_cases j i) as [Hlt|Hge].
  - rewrite nth_error_app1 by (rewrite length_firstn; lia).
    rewrite nth_error_firstn. apply Nat.ltb_lt in Hlt. rewrite Hlt. reflexivity.
  - rewrite nth_error_app2 by (rewrite length_firstn; lia).
    rewrite length_firstn. replace (Nat.min i (length l)) with i by lia.
    destruct (j - i) as [|k] eqn:Ek; [lia|].
    cbn [nth_error]. rewrite nth_error_skipn. f_equal. lia.
Qed.

(** The loop of the M-step over distinct classes: every class visited is
    fitted once, from the sub-model that the list held at its position when
    the loop began and with its column of the responsibilities; the other
    positions of the list are left alone. *)
Lemma fit_classes_spec (ds : D) (qs : list nat) :
  NoDup qs ->
  forall (s s' : @LC.lmodel F H M) (ms : list M) (w : list (list F)),
  LC.models s = Some ms ->
  LC.weights s = Some w ->
  LC.fit_classes ds qs s = (Ok tt, s') ->
  exists ms',
    s' = LC.set_models s ms' /\
    length ms' = length ms /\
    (forall q, In q qs ->
       exists m col m',
         nth_error ms q = Some m /\ nth_error w q = Some col /\
         LC.m_fit m ds col = Ok m' /\ nth_error ms' q = Some m') /\
    (forall q, ~ In q qs -> nth_error ms' q = nth_error ms q).
Proof.
  intros Hnd. induction Hnd as [|q qs Hq Hnd IH]; intros s s' ms w Hms Hw Hrun.
  - cbn [LC.fit_classes] in Hrun. unfold LC.ret in Hrun. injection Hrun as <-.
    exists ms. split.
    { destruct s; cbn in Hms |- *. rewrite Hms. reflexivity. }
    split; [reflexivity|]. split; [intros q []|]. reflexivity.
  - cbn [LC.fit_classes] in Hrun.
    unfold LC.mbind, LC.attr, LC.lift, LC.update, index in Hrun.
    rewrite Hms in Hrun.
    destruct (nth_error ms q) as [m|] eqn:Em; [|discriminate].
    rewrite Hw in Hrun.
    destruct (nth_error w q) as [col|] eqn:Ec; [|discriminate].
    destruct (LC.m_fit m ds col) as [m'|ex] eqn:Ef; [|discriminate].
    assert (Hlt : q < length ms) by (apply nth_error_Some; congruence).
    destruct (IH (LC.set_models s (replace_at q m' ms)) s' (replace_at q m' ms) w
                eq_refl Hw Hrun) as (ms' & Hs' & Hlen & Hin & Hout).
    exists ms'. split; [rewrite Hs'; reflexivity|].
    split; [rewrite Hlen; apply replace_at_length; exact Hlt|].
    split.
    + intros q' [<-|Hq'].
      * exists m, col, m'. split; [exact Em|]. split; [exact Ec|].
        split; [exact Ef|]. rewrite (Hout q Hq). apply replace_at_same. exact Hlt.
      * destruct (Hin q' Hq') as (m1 & col1 & m1' & H1 & H2 & H3 & H4).
        exists m1, col1, m1'. split; [|split; [exact H2 | split; [exact H3 | exact H4]]].
        rewrite <- H1. symmetry. apply replace_at_other; [exact Hlt|].
        intros ->. contradiction.
    + intros q' Hq'. rewrite Hout by (intros Hc; apply Hq'; right; exact Hc).
      apply replace_at_other; [exact Hlt|]. intros ->. apply Hq'. left. reflexivity.
Qed.

End MStepFacts.

(** X18. The M-step (lines 1233-1241). [_maximization] first replaces the
    sub-models by new ones built from the hyper-parameters, so the
    sub-models that the mixture held before have no part in it: the call
    behaves the same whatever [self.models] was. When it returns, each class
    below [n_latent_classes] holds the new sub-model of its hyper-parameters
    fitted once with its column of the responsibilities as sample weights,
    the sub-models beyond are new and not fitted, and the value returned is
    the vector of the column sums of the responsibilities divided by their
    total. Nothing but [self.models] has changed. *)
Theorem maximization_refits_new_models
    (F X D H M : Type) (sc : Num.Scalar F) (env : LC.Substrate F X D H M)
    (ds : D) (s : @LC.lmodel F H M) :
  (forall ms0, LC.maximization ds (LC.set_models s ms0) = LC.maximization ds s) /\
  (forall p s' w,
     LC.maximization ds s = (Ok p, s') ->
     LC.weights s = Some w ->
     p = map (fun x => Num.div x (LC.vsum (map LC.vsum w))) (map LC.vsum w) /\
     exists ms',
       s' = LC.set_models s ms' /\
       length ms' = length (LC.model_parameters s) /\
       (forall q, q < LC.n_latent_classes s ->
          exists h col m',
            nth_error (LC.model_parameters s) q = Some h /\
            nth_error w q = Some col /\
            LC.m_fit (LC.construct h) ds col = Ok m' /\
            nth_error ms' q = Some m') /\
       (forall q h, LC.n_latent_classes s <= q ->
          nth_error (LC.model_parameters s) q = Some h ->
          nth_error ms' q = Some (LC.construct h))).
Proof.
  split.
  - intros ms0. reflexivity.
  - intros p s' w Hrun Hw.
    unfold LC.maximization in Hrun.
    unfold LC.mbind at 1 in Hrun. unfold LC.update at 1 in Hrun.
    unfold LC.mbind at 1 in Hrun.
    cbn [LC.n_latent_classes LC.set_models] in Hrun.
    unfold LC.mbind at 1 in Hrun.
    destruct (LC.fit_classes ds (seq 0 (LC.n_latent_classes s))
                (LC.set_models s (map LC.construct (LC.model_parameters s))))
      as [[[]|ex] s1] eqn:Ef; [|discriminate].
    destruct (@fit_classes_spec F X D H M env ds
                (seq 0 (LC.n_latent_classes s)) (seq_NoDup _ _)
                (LC.set_models s (map LC.construct (LC.model_parameters s))) s1
                (map LC.construct (LC.model_parameters s)) w eq_refl Hw Ef)
      as (ms' & Hs1 & Hlen & Hin & Hout).
    unfold LC.mbind, LC.attr in Hrun. rewrite Hs1 in Hrun.
    cbn [LC.weights LC.set_models] in Hrun. rewrite Hw in Hrun.
    unfold LC.ret in Hrun.
    assert (Hp : p = map (fun x => Num.div x (LC.vsum (map LC.vsum w)))
                         (map LC.vsum w)).
    { apply (f_equal fst) in Hrun. cbn [fst] in Hrun. apply Ok_inj in Hrun.
      symmetry. exact Hrun. }
    assert (Hst : s' = LC.set_models s ms').
    { apply (f_equal snd) in Hrun. cbn [snd] in Hrun. symmetry. exact Hrun. }
    split; [exact Hp|]. exists ms'.
    split; [exact Hst|].
    split; [rewrite Hlen; apply length_map|].
    split.
    + intros q Hq.
      destruct (Hin q) as (m & col & m' & H1 & H2 & H3 & H4);
        [apply in_seq; lia|].
      rewrite nth_error_map in H1.
      destruct (nth_error (LC.model_parameters s) q) as [h|]; [|discriminate].
      injection H1 as <-. exists h, col, m'.
      split; [reflexivity|]. split; [exact H2|]. split; [exact H3 | exact H4].
    + intros q h Hq Hh. rewrite Hout by (rewrite in_seq; lia).
      rewrite nth_error_map, Hh. reflexivity.
Qed.

Lemma example_maximization_returns :
  exists p s',
    LC.maximization (env := LatentExample.toy_real) LatentExample.one_choice
      MoreExamples.responsible_mixture = (Ok p, s').
Proof. eexists. eexists. vm_compute. reflexivity. Qed.

(** The M-step of the example mixture: both classes are refitted. *)
Lemma maximization_refits_new_models_witness :
  exists p s' ms',
    LC.maximization (env := LatentExample.toy_real) LatentExample.one_choice
      MoreExamples.responsible_mixture = (Ok p, s') /\
    s' = LC.set_models MoreExamples.responsible_mixture ms' /\
    length ms' = 2.
Proof.
  destruct example_maximization_returns as (p & s' & Hrun).
  destruct (proj2 (@maximization_refits_new_models R unit (list nat)
                     (LatentExample.table R) (LatentExample.table R) _
                     LatentExample.toy_real LatentExample.one_choice
                     MoreExamples.responsible_mixture)
              p s' [[(1 / 2)%R]; [(1 / 2)%R]] Hrun eq_refl)
    as (_ & ms' & Hs' & Hlen & _).
  exists p, s', ms'. split; [exact Hrun|]. split; [exact Hs' | exact Hlen].
Defined.

Section PriorSumFacts.
Context {X D H M : Type} {env : LC.Substrate R X D H M}.
Open Scope R_scope.

Lemma vsum_map_plus (A : Type) (f g : A -> R) (l : list A) :
  LC.vsum (map (fun a => f a + g a) l) = LC.vsum (map f l) + LC.vsum (map g l).
Proof.
  induction l as [|a l IH]; cbn [map].
  - rewrite !vsum_nil. lra.
  - rewrite !vsum_cons, IH. lra.
Qed.

Lemma vsum_map_const (A : Type) (c : R) (l : list A) :
  LC.vsum (map (fun _ => c) l) = INR (length l) * c.
Proof.
  induction l as [|a l IH].
  - cbn [map length]. rewrite vsum_nil. simpl. lra.
  - cbn [map]. rewrite vsum_cons, IH. cbn [length]. rewrite S_INR. lra.
Qed.

Lemma map_nth_seq_id (c : list R) :
  map (fun i => nth i c 0) (seq 0 (length c)) = c.
Proof.
  induction c as [|x c IH]; [reflexivity|].
  cbn [length seq map nth]. f_equal.
  rewrite <- seq_shift, map_map. exact IH.
Qed.

(** The sum of the sums of the columns is the sum of the sums of the
    rows. *)
Lemma vsum_columns_rows (n : nat) (cols : list (list R)) :
  Forall (fun col => length col = n) cols ->
  LC.vsum (map LC.vsum cols)
    = LC.vsum (map (fun i => LC.vsum (LC.row i cols)) (seq 0 n)).
Proof.
  induction 1 as [|c cols Hc _ IH].
  - cbn [map]. rewrite vsum_nil.
    change (fun i : nat => LC.vsum (LC.row i [])) with (fun _ : nat => 0).
    rewrite vsum_map_const. lra.
  - cbn [map]. rewrite vsum_cons, IH.
    change (fun i : nat => LC.vsum (LC.row i (c :: cols)))
      with (fun i : nat => nth i c 0 + LC.vsum (LC.row i cols)).
    rewrite (vsum_map_plus (fun i => nth i c 0)
               (fun i => LC.vsum (LC.row i cols))).
    rewrite <- Hc at 2. rewrite map_nth_seq_id. reflexivity.
Qed.

Lemma zip_with_Forall (P Q S : R -> Prop) (f : R -> R -> R) (xs : list R) :
  (forall x y, P x -> Q y -> S (f x y)) ->
  Forall P xs ->
  forall ys, Forall Q ys -> Forall S (LC.zip_with f xs ys).
Proof.
  intros Hf Hx. induction Hx as [|x xs Px _ IH]; intros ys Hy.
  - constructor.
  - destruct Hy as [|y ys Qy Hy]; cbn [LC.zip_with]; constructor.
    + apply Hf; assumption.
    + apply IH. exact Hy.
Qed.

(** Normalising positive columns row by row keeps their size and their
    sign. *)
Lemma divide_rows_positive (n : nat) (cols : list (list R)) :
  cols <> [] ->
  Forall (fun col => length col = n /\ Forall (fun x => 0 < x) col) cols ->
  Forall (fun col => length col = n /\ Forall (fun x => 0 < x) col)
         (LC.divide_rows cols (LC.row_sums n cols)).
Proof.
  intros Hne Hpos.
  assert (Hsums : Forall (fun x => 0 < x) (LC.row_sums n cols)).
  { unfold LC.row_sums. apply Forall_map. apply Forall_forall.
    intros i Hi. apply in_seq in Hi.
    apply vsum_pos.
    - unfold LC.row. intros Hc. apply map_eq_nil in Hc. contradiction.
    - apply (row_positive Hpos). lia. }
  unfold LC.divide_rows. apply Forall_map.
  revert Hpos. apply Forall_impl. intros col [Hlen Hc]. split.
  - rewrite zip_with_length, Hlen. unfold LC.row_sums.
    rewrite length_map, length_seq. apply Nat.min_id.
  - apply (@zip_with_Forall (fun x => 0 < x) (fun x => 0 < x) (fun x => 0 < x));
      try assumption.
    intros x y Hx Hy. apply Rdiv_lt_0_compat; assumption.
Qed.

(** The value that a returning M-step computes. *)
Lemma maximization_prior (ds : D) (s s' : @LC.lmodel R H M) (p : list R)
    (w : list (list R)) :
  LC.maximization ds s = (Ok p, s') ->
  LC.weights s = Some w ->
  p = map (fun x => x / LC.vsum (map LC.vsum w)) (map LC.vsum w).
Proof.
  intros Hrun Hw. unfold LC.maximization in Hrun.
  unfold LC.mbind at 1 in Hrun. unfold LC.update at 1 in Hrun.
  unfold LC.mbind at 1 in Hrun.
  cbn [LC.n_latent_classes LC.set_models] in Hrun.
  unfold LC.mbind at 1 in Hrun.
  destruct (LC.fit_classes ds (seq 0 (LC.n_latent_classes s))
              (LC.set_models s (map LC.construct (LC.model_parameters s))))
    as [[[]|ex] s1] eqn:Ef; [|discriminate].
  destruct (@fit_classes_spec R X D H M env ds
              (seq 0 (LC.n_latent_classes s)) (seq_NoDup _ _)
              (LC.set_models s (map LC.construct (LC.model_parameters s))) s1
              (map LC.construct (LC.model_parameters s)) w eq_refl Hw Ef)
    as (ms' & Hs1 & _).
  unfold LC.mbind, LC.attr in Hrun. rewrite Hs1 in Hrun.
  cbn [LC.weights LC.set_models] in Hrun. rewrite Hw in Hrun.
  unfold LC.ret in Hrun.
  apply (f_equal fst) in Hrun. cbn [fst] in Hrun. apply Ok_inj in Hrun.
  symmetry. exact Hrun.
Qed.

End PriorSumFacts.

(** X19. One iteration of the EM loop in real arithmetic (lines 1268-1269
    with 1199-1216 and 1239-1241). When the dataset is not empty, neither
    the entries of [self.latent_logits] nor the probabilities predicted by
    the sub-models are negative, and the E-step and the M-step both return,
    the new class prior that the M-step returns has one entry for each
    column of the responsibilities, all its entries are positive, and they
    sum to 1. *)
Theorem em_iteration_gives_a_probability_vector
    (X D H M : Type) (env : LC.Substrate R X D H M)
    (ds : D) (s s1 s2 : @LC.lmodel R H M) (resp : list (list R)) (loss : R)
    (logits : list R) (ms : list M) (p : list R) :
  LC.expectation ds s = (Ok (resp, loss), s1) ->
  LC.latent_logits s = Some logits ->
  Forall (fun l => (0 <= l)%R) logits ->
  LC.models s = Some ms ->
  (forall m pp, In m ms -> LC.m_predict_probas m ds = Ok pp ->
                Forall (Forall (fun p => (0 <= p)%R)) pp) ->
  0 < LC.ds_len ds ->
  LC.maximization ds (LC.set_weights s1 resp) = (Ok p, s2) ->
  length p = length resp /\
  LC.vsum p = 1%R /\
  Forall (fun x => (0 < x)%R) p.
Proof.
  intros Hrun Hlog Hl Hms Hprob Hn Hmax.
  destruct (@expectation_positive_columns X D H M env ds s s1 resp loss logits ms
              Hrun Hlog Hl Hms Hprob) as (cols & Hresp & Hne & Hpos).
  pose proof (@maximization_prior X D H M env ds (LC.set_weights s1 resp) s2 p resp
                Hmax eq_refl) as Hp.
  pose proof (@divide_rows_positive (LC.ds_len ds) cols Hne Hpos) as Hrpos.
  rewrite <- Hresp in Hrpos.
  assert (Hlen : Forall (fun col => length col = LC.ds_len ds) resp).
  { revert Hrpos. apply Forall_impl. intros col [Hc _]. exact Hc. }
  assert (Htotal : LC.vsum (map LC.vsum resp) = INR (LC.ds_len ds)).
  { rewrite (@vsum_columns_rows (LC.ds_len ds) resp Hlen).
    rewrite (map_ext_in _ (fun _ => 1%R)).
    - rewrite vsum_map_const, length_seq. lra.
    - intros i Hi. apply in_seq in Hi. rewrite Hresp.
      apply normalised_rows; [exact Hne | exact Hpos | lia]. }
  assert (Hpos_total : (0 < INR (LC.ds_len ds))%R) by (apply lt_0_INR; exact Hn).
  rewrite Htotal in Hp. subst p.
  split; [rewrite !length_map; reflexivity|]. split.
  - rewrite vsum_div, Htotal. field. lra.
  - apply Forall_map. apply Forall_map. revert Hrpos. apply Forall_impl.
    intros col [Hc Hcp]. apply Rdiv_lt_0_compat; [|exact Hpos_total].
    apply vsum_pos; [|exact Hcp].
    intros ->. cbn [length] in Hc. lia.
Qed.

Lemma example_iteration_returns :
  exists resp loss s1 p s2,
    LC.expectation (env := LatentExample.toy_real) LatentExample.one_choice
      MoreExamples.weighted_mixture = (Ok (resp, loss), s1) /\
    LC.maximization (env := LatentExample.toy_real) LatentExample.one_choice
      (LC.set_weights s1 resp) = (Ok p, s2).
Proof.
  eexists. eexists. eexists. eexists. eexists.
  split; vm_compute; reflexivity.
Qed.

(** One iteration on the example mixture with the weights 1/2 and 1/2. *)
Lemma em_iteration_gives_a_probability_vector_witness :
  exists resp loss s1 p s2,
    LC.expectation (env := LatentExample.toy_real) LatentExample.one_choice
      MoreExamples.weighted_mixture = (Ok (resp, loss), s1) /\
    LC.maximization (env := LatentExample.toy_real) LatentExample.one_choice
      (LC.set_weights s1 resp) = (Ok p, s2) /\
    LC.vsum p = 1%R.
Proof.
  destruct example_iteration_returns as (resp & loss & s1 & p & s2 & He & Hm).
  exists resp, loss, s1, p, s2. split; [exact He|]. split; [exact Hm|].
  refine (proj1 (proj2
            (@em_iteration_gives_a_probability_vector unit (list nat)
               (LatentExample.table R) (LatentExample.table R)
               LatentExample.toy_real LatentExample.one_choice
               MoreExamples.weighted_mixture s1 s2 resp loss
               [(1 / 2)%R; (1 / 2)%R]
               [LatentExample.flat_table; LatentExample.steep_table] p
               He eq_refl _ eq_refl _ _ Hm))).
  - repeat constructor; lra.
  - intros m pp [<-|[<-|[]]] Hpp; injection Hpp as <-; repeat constructor; lra.
  - simpl. lia.
Defined.

Section HistoryOfEM.
Context {F X D H M : Type} {sc : Num.Scalar F} {env : LC.Substrate F X D H M}.

Lemma init_fit_epochs (ds : D) (ms : list M) :
  forall (i : nat) (s : @LC.lmodel F H M),
  LC.epochs (snd (LC.init_fit ds i ms s)) = LC.epochs s.
Proof.
  induction ms as [|m ms IH]; intros i s; cbn [LC.init_fit].
  - reflexivity.
  - unfold LC.mbind at 1. unfold LC.mbind at 1. unfold LC.update at 1.
    unfold LC.mbind at 1. unfold LC.lift at 1.
    destruct (LC.m_fit m ds _) as [m'|ex]; [|reflexivity].
    unfold LC.mbind at 1. unfold LC.update at 1.
    rewrite IH.
    cbn [LC.models LC.set_rng_out].
    destruct (LC.models s); reflexivity.
Qed.

(** The histories that the EM loop returns: what it adds to the two lists. *)
Lemma em_loop_history (ds : D) (n : nat) :
  forall (hl : list (list F)) (hs : list F) (s s' : @LC.lmodel F H M) r,
  LC.em_loop ds n hl hs s = (Ok r, s') ->
  exists newl news,
    r = (hl ++ newl, hs ++ news) /\
    length newl = length news /\
    length newl <= n /\
    (forall i p, S i < length newl -> nth_error newl i = Some p ->
                 LC.has_nan p = false) /\
    (length newl < n ->
     exists p, nth_error newl (length newl - 1) = Some p /\ LC.has_nan p = true) /\
    (newl <> [] -> LC.latent_logits s' = Some (last newl [])) /\
    (newl = [] -> s' = s).
Proof.
  induction n as [|n IH]; intros hl hs s s' r Hrun.
  - cbn [LC.em_loop] in Hrun. unfold LC.ret in Hrun. injection Hrun as <- <-.
    exists [], []. rewrite !app_nil_r. cbn [length].
    split; [reflexivity|]. split; [reflexivity|]. split; [lia|].
    split; [intros i p Hi; lia|]. split; [lia|].
    split; [congruence | reflexivity].
  - cbn [LC.em_loop] in Hrun. unfold LC.mbind at 1 in Hrun.
    destruct (LC.expectation ds s) as [[e|ex] s1]; [|discriminate].
    unfold LC.mbind at 1 in Hrun. unfold LC.update at 1 in Hrun.
    unfold LC.mbind at 1 in Hrun.
    destruct (LC.maximization ds (LC.set_weights s1 (fst e))) as [[p|ex] s2];
      [|discriminate].
    unfold LC.mbind at 1 in Hrun. unfold LC.update at 1 in Hrun.
    destruct (LC.has_nan p) eqn:Hnan.
    + unfold LC.mbind, LC.print, LC.update, LC.ret in Hrun.
      injection Hrun as <- <-.
      exists [p], [snd e]. cbn [length].
      split; [reflexivity|]. split; [reflexivity|]. split; [lia|].
      split; [intros i q Hi; lia|].
      split; [intros _; exists p; split; [reflexivity | exact Hnan]|].
      split; [intros _; reflexivity | discriminate].
    + apply IH in Hrun.
      destruct Hrun as (newl & news & Hr & Hlen & Hle & Hclean & Hlast & Hlog & Hnil).
      exists (p :: newl), (snd e :: news). cbn [length].
      split; [rewrite Hr, <- !app_assoc; reflexivity|].
      split; [rewrite Hlen; reflexivity|]. split; [lia|].
      split.
      { intros [|i] q Hi Hq; cbn [nth_error] in Hq.
        - injection Hq as <-. exact Hnan.
        - apply (Hclean i q); [lia | exact Hq]. }
      split.
      { intros Hlt. destruct Hlast as (q & Hq & Hqn); [lia|].
        exists q. split; [|exact Hqn].
        destruct newl as [|p0 newl]; [cbn in Hq; discriminate|].
        cbn [length] in *.
        replace (S (S (length newl)) - 1) with (S (S (length newl) - 1)) by lia.
        exact Hq. }
      split; [|discriminate].
      intros _. destruct newl as [|p0 newl].
      * rewrite (Hnil eq_refl). reflexivity.
      * rewrite Hlog by discriminate. reflexivity.
Qed.

End HistoryOfEM.

(** X20. The histories that [_em_fit] returns (lines 1260-1275). The two
    lists have one entry for each iteration that ran, at most [self.epochs]
    of them. No class prior in the list of the priors contains a NaN, except
    possibly the last one; when fewer iterations ran than [self.epochs], the
    last one does contain a NaN. After at least one iteration,
    [self.latent_logits] is the last entry of the list of the priors. *)
Theorem em_fit_histories
    (F X D H M : Type) (sc : Num.Scalar F) (env : LC.Substrate F X D H M)
    (ds : D) (s s' : @LC.lmodel F H M) (hist_logits : list (list F))
    (hist_loss : list F) :
  LC.em_fit ds s = (Ok (hist_logits, hist_loss), s') ->
  length hist_logits = length hist_loss /\
  length hist_logits <= LC.epochs s /\
  (forall i p, S i < length hist_logits -> nth_error hist_logits i = Some p ->
               LC.has_nan p = false) /\
  (length hist_logits < LC.epochs s ->
   exists p, nth_error hist_logits (length hist_logits - 1) = Some p /\
             LC.has_nan p = true) /\
  (hist_logits <> [] -> LC.latent_logits s' = Some (last hist_logits [])).
Proof.
  intros Hrun. unfold LC.em_fit in Hrun.
  unfold LC.mbind at 1 in Hrun. unfold LC.attr in Hrun.
  destruct (LC.models s) as [ms|]; [|discriminate].
  unfold LC.mbind at 1 in Hrun.
  pose proof (init_fit_epochs ds ms 0 s) as Hep.
  destruct (LC.init_fit ds 0 ms s) as [[[]|ex] s1]; [|discriminate].
  cbn [snd] in Hep. unfold LC.mbind at 1 in Hrun. rewrite Hep in Hrun.
  apply em_loop_history in Hrun.
  destruct Hrun as (newl & news & Hr & Hlen & Hle & Hclean & Hlast & Hlog & _).
  cbn [app] in Hr. injection Hr as -> ->.
  split; [exact Hlen|]. split; [exact Hle|]. split; [exact Hclean|].
  split; [exact Hlast | exact Hlog].
Qed.

Lemma example_em_fit_returns :
  exists hl hs s',
    LC.em_fit (env := LatentExample.toy_xfloat) LatentExample.one_choice
      LatentExample.diverged_mixture = (Ok (hl, hs), s') /\
    length hl = 1.
Proof. eexists. eexists. eexists. split; vm_compute; reflexivity. Qed.

(** The mixture whose sub-models predict NaN: three iterations are asked
    for, one runs, and its prior contains a NaN. *)
Lemma em_fit_histories_witness :
  exists hl hs s',
    LC.em_fit (env := LatentExample.toy_xfloat) LatentExample.one_choice
      LatentExample.diverged_mixture = (Ok (hl, hs), s') /\
    length hl = length hs /\
    exists p, nth_error hl (length hl - 1) = Some p /\ LC.has_nan p = true.
Proof.
  destruct example_em_fit_returns as (hl & hs & s' & Hrun & Hone).
  destruct (@em_fit_histories Num.xfloat unit (list nat)
              (LatentExample.table Num.xfloat) (LatentExample.table Num.xfloat) _
              LatentExample.toy_xfloat LatentExample.one_choice
              LatentExample.diverged_mixture s' hl hs Hrun)
    as (Hlen & _ & _ & Hlast & _).
  exists hl, hs, s'. split; [exact Hrun|]. split; [exact Hlen|].
  apply Hlast. rewrite Hone. simpl. lia.
Defined.

Section LatentPredictFacts.
Context {F X D H M : Type} {sc : Num.Scalar F} {env : LC.Substrate F X D H M}.

Lemma predict_batches_reads (bs : list (LC.batch X F)) :
  forall acc, LC.reads_only (LatentData.predict_batches bs acc).
Proof.
  induction bs as [|b bs IH]; intros acc; cbn [LatentData.predict_batches].
  - intros s. reflexivity.
  - apply reads_bind; [apply batch_predict_reads|]. intros r. apply IH.
Qed.

(** The loop over batches that are all predicted without an error. *)
Lemma predict_batches_stacks (s : @LC.lmodel F H M) (bs : list (LC.batch X F)) :
  forall (prs acc : list (list (list (list F)))),
  Forall2 (fun b pr => exists l, LC.batch_predict b None s = (Ok (l, pr), s)) bs prs ->
  LatentData.predict_batches bs acc s = (Ok (acc ++ prs), s).
Proof.
  induction bs as [|b bs IH]; intros prs acc Hall.
  - inversion Hall; subst. cbn [LatentData.predict_batches]. rewrite app_nil_r.
    reflexivity.
  - inversion Hall as [|? pr ? prs' [l Hb] Hrest]; subst.
    cbn [LatentData.predict_batches]. unfold LC.mbind. rewrite Hb. cbn [snd].
    rewrite (IH prs' (acc ++ [pr]) Hrest), <- app_assoc. reflexivity.
Qed.

(** [batch_predict] on a mixture with at least one sub-model and with no
    attribute [normalize_non_buy]. *)
Lemma batch_predict_without_exit_flag (b : LC.batch X F) (sw : option (list F))
    (s : @LC.lmodel F H M) (m : M) (ms : list M) (logits : list F) :
  LC.models s = Some (m :: ms) ->
  LC.latent_logits s = Some logits ->
  LC.normalize_non_buy s = None ->
  LC.batch_predict b sw s = (Raise (AttributeError "normalize_non_buy"), s).
Proof.
  intros Hm Hl Hn.
  unfold LC.batch_predict, LC.compute_batch_utility, LC.mbind, LC.attr.
  rewrite Hm. unfold LC.ret. rewrite Hl.
  cbn [map LC.class_loop]. unfold LC.mbind, LC.attr. rewrite Hn. reflexivity.
Qed.

End LatentPredictFacts.

(** X21. [BaseLatentClassModel.predict_probas] (lines 1292-1307) for any
    batch iterator. It never changes the model, whether it returns or
    raises. When the dataset yields no batch, [tf.concat] of the empty list
    raises. When every batch is predicted without an error, the result is
    what [batch_predict] gives for the batches, put one after the other in
    the order of the batches. On a mixture with at least one sub-model and
    the logits set, but without the attribute [normalize_non_buy] (the
    constructor does not set it), it raises [AttributeError] as soon as the
    dataset yields a batch. *)
Theorem latent_predict_probas_stacks_the_batches
    (F X D H M : Type) (sc : Num.Scalar F) (env : LC.Substrate F X D H M)
    (iter_batch : D -> Z -> list (LC.batch X F))
    (ds : D) (bsz : Z) (s : @LC.lmodel F H M) :
  snd (LatentData.predict_probas iter_batch ds bsz s) = s /\
  (iter_batch ds bsz = [] ->
   exists e, fst (LatentData.predict_probas iter_batch ds bsz s) = Raise e) /\
  (forall prs,
     iter_batch ds bsz <> [] ->
     Forall2 (fun b pr => exists l, LC.batch_predict b None s = (Ok (l, pr), s))
             (iter_batch ds bsz) prs ->
     fst (LatentData.predict_probas iter_batch ds bsz s) = Ok (concat prs)) /\
  (forall m ms logits,
     iter_batch ds bsz <> [] ->
     LC.models s = Some (m :: ms) ->
     LC.latent_logits s = Some logits ->
     LC.normalize_non_buy s = None ->
     fst (LatentData.predict_probas iter_batch ds bsz s)
       = Raise (AttributeError "normalize_non_buy")).
Proof.
  split; [|split; [|split]].
  - unfold LatentData.predict_probas.
    apply reads_bind; [apply predict_batches_reads|].
    intros [|t ts] s0; reflexivity.
  - intros Hb. unfold LatentData.predict_probas, LC.mbind. rewrite Hb.
    cbn [LatentData.predict_batches]. eexists. reflexivity.
  - intros prs Hne Hall. unfold LatentData.predict_probas, LC.mbind.
    rewrite (@predict_batches_stacks F X D H M sc env s (iter_batch ds bsz) prs []
               Hall).
    cbn [app].
    destruct prs as [|pr prs]; [|reflexivity].
    inversion Hall as [Hb|]. symmetry in Hb. contradiction.
  - intros m ms logits Hne Hm Hl Hn.
    unfold LatentData.predict_probas, LC.mbind.
    destruct (iter_batch ds bsz) as [|b bs]; [congruence|].
    cbn [LatentData.predict_batches]. unfold LC.mbind.
    rewrite (@batch_predict_without_exit_flag F X D H M sc env b None s m ms logits
               Hm Hl Hn).
    reflexivity.
Qed.

(** The example mixture as the constructor and [instantiate] leave it, on
    a dataset that yields the one example batch. *)
Lemma latent_predict_probas_stacks_the_batches_witness :
  fst (LatentData.predict_probas (env := LatentExample.toy_real)
         (fun _ _ => [LatentExample.one_batch]) LatentExample.one_choice (-1)
         (LatentExample.real_mixture "MLE"))
    = Raise (AttributeError "normalize_non_buy").
Proof.
  refine (proj2 (proj2 (proj2
            (@latent_predict_probas_stacks_the_batches R unit (list nat)
               (LatentExample.table R) (LatentExample.table R) _
               LatentExample.toy_real (fun _ _ => [LatentExample.one_batch])
               LatentExample.one_choice (-1) (LatentExample.real_mixture "MLE"))))
            LatentExample.flat_table [LatentExample.steep_table] [(- (1 / 100))%R]
            _ eq_refl eq_refl eq_refl).
  discriminate.
Defined.

(** ** Further properties: the L-BFGS adapter of the mixture *)

Section ListFacts.

Lemma skipn_cons_inv (B : Type) (i : nat) :
  forall (l : list B) (x : B) (r : list B),
  skipn i l = x :: r -> nth_error l i = Some x /\ skipn (S i) l = r.
Proof.
  induction i as [|i IH]; intros l x r Hs.
  - cbn [skipn] in Hs. subst l. split; reflexivity.
  - destruct l as [|y l]; [discriminate|]. cbn [skipn] in Hs.
    apply IH in Hs. exact Hs.
Qed.

Lemma split_chunks_concat (B : Type) (ls : list (list B)) :
  Tf.split_chunks (map (@length B) ls) (concat ls) = ls.
Proof.
  induction ls as [|l ls IH]; [reflexivity|].
  cbn [map concat Tf.split_chunks].
  rewrite firstn_app, Nat.sub_diag, firstn_all. cbn [firstn]. rewrite app_nil_r.
  rewrite skipn_app, Nat.sub_diag, skipn_all. cbn [skipn app].
  rewrite IH. reflexivity.
Qed.

Lemma split_chunks_map (B C : Type) (f : B -> C) (ns : list nat) :
  forall l : list B,
  map (map f) (Tf.split_chunks ns l) = Tf.split_chunks ns (map f l).
Proof.
  induction ns as [|n ns IH]; intros l; cbn [Tf.split_chunks map]; [reflexivity|].
  rewrite IH, firstn_map, skipn_map. reflexivity.
Qed.

Lemma index_nth (B : Type) (l : list B) (i : nat) (x : B) :
  nth_error l i = Some x -> index l i = Ok x.
Proof. intros H. unfold index. rewrite H. reflexivity. Qed.

Lemma py_pos_nat (len n : nat) :
  n < len -> LatentAdapter.py_pos len (Z.of_nat n) = Ok n.
Proof.
  intros Hn. unfold LatentAdapter.py_pos. cbv zeta.
  destruct (Z.of_nat n <? 0)%Z eqn:E; [apply Z.ltb_lt in E; lia|].
  assert (H1 : (0 <=? Z.of_nat n)%Z = true) by (apply Z.leb_le; lia).
  assert (H2 : (Z.of_nat n <? Z.of_nat len)%Z = true) by (apply Z.ltb_lt; lia).
  rewrite H1, H2. cbn [andb]. rewrite Nat2Z.id. reflexivity.
Qed.

End ListFacts.

Section LatentAdapterFacts.
Variable A : Type.

Lemma collect_weights_spec (i : nat) (ws : list (Tf.tensor A)) :
  forall (j : nat) (c : LatentAdapter.collected A),
  LatentAdapter.collect_weights i j ws c
  = {| LatentAdapter.c_weights := LatentAdapter.c_weights c ++ ws;
       LatentAdapter.c_to_model :=
         LatentAdapter.c_to_model c ++ repeat (Z.of_nat i) (length ws);
       LatentAdapter.c_to_model_indexes :=
         LatentAdapter.c_to_model_indexes c ++ map Z.of_nat (seq j (length ws)) |}.
Proof.
  induction ws as [|w ws IH]; intros j c.
  - destruct c. cbn. rewrite !app_nil_r. reflexivity.
  - cbn [LatentAdapter.collect_weights]. rewrite IH.
    unfold LatentAdapter.append.
    cbn [LatentAdapter.c_weights LatentAdapter.c_to_model
         LatentAdapter.c_to_model_indexes length repeat seq map].
    rewrite <- !app_assoc. reflexivity.
Qed.

(** The three lists of lines 1004-1011 after the loop over the models. *)
Lemma collect_models_spec (models : list (list (Tf.tensor A))) :
  forall (i : nat) (c : LatentAdapter.collected A),
  LatentAdapter.collect_models i models c
  = {| LatentAdapter.c_weights := LatentAdapter.c_weights c ++ concat models;
       LatentAdapter.c_to_model :=
         LatentAdapter.c_to_model c
         ++ concat (map (fun am : nat * list (Tf.tensor A) =>
                           repeat (Z.of_nat (fst am)) (length (snd am)))
                        (combine (seq i (length models)) models));
       LatentAdapter.c_to_model_indexes :=
         LatentAdapter.c_to_model_indexes c
         ++ concat (map (fun m : list (Tf.tensor A) =>
                           map Z.of_nat (seq 0 (length m))) models) |}.
Proof.
  induction models as [|m models IH]; intros i c.
  - destruct c. cbn. rewrite !app_nil_r. reflexivity.
  - cbn [LatentAdapter.collect_models]. rewrite IH, collect_weights_spec.
    cbn [LatentAdapter.c_weights LatentAdapter.c_to_model
         LatentAdapter.c_to_model_indexes length seq combine map concat fst snd].
    rewrite <- !app_assoc. reflexivity.
Qed.

(** The loop of [assign_new_model_parameters] over the weights [cur] of one
    sub-model that are still to assign; [pre] are the weights of this
    sub-model already assigned, [done] the sub-models before it. *)
Lemma assign_model_weights (ad : LatentAdapter.adapter) (cur : list (Tf.tensor A)) :
  forall (specs : list (list nat * list A)) (pre : list (Tf.tensor A))
         (done todo : list (list (Tf.tensor A))) (lg : Tf.tensor A) (i : nat)
         (wm_rest wj_rest : list Z) (rest_sps : list (list nat * list A)),
  map fst specs = map (@Tf.shape A) cur ->
  Forall (fun sp : list nat * list A => length (snd sp) = Tf.numel (fst sp)) specs ->
  skipn i (LatentAdapter.w_to_model ad)
    = repeat (Z.of_nat (length done)) (length cur) ++ wm_rest ->
  skipn i (LatentAdapter.w_to_model_indexes ad)
    = map Z.of_nat (seq (length pre) (length cur)) ++ wj_rest ->
  LatentAdapter.assign_all ad i (specs ++ rest_sps)
    {| LatentAdapter.model_weights := done ++ (pre ++ cur) :: todo;
       LatentAdapter.latent_logits := lg |}
  = LatentAdapter.assign_all ad (i + length cur) rest_sps
      {| LatentAdapter.model_weights :=
           done ++ (pre ++ map (@Tf.mk_tensor A) specs) :: todo;
         LatentAdapter.latent_logits := lg |}
  /\ skipn (i + length cur) (LatentAdapter.w_to_model ad) = wm_rest
  /\ skipn (i + length cur) (LatentAdapter.w_to_model_indexes ad) = wj_rest.
Proof.
  induction cur as [|o cur IH];
    intros specs pre done todo lg i wm_rest wj_rest rest_sps Hsh Hsz Hwm Hwj.
  - cbn [map] in Hsh. apply map_eq_nil in Hsh. subst specs.
    cbn [length repeat seq map app] in *. rewrite Nat.add_0_r.
    split; [reflexivity|]. split; assumption.
  - destruct specs as [|[sh param] specs]; [discriminate|].
    cbn [map fst] in Hsh. injection Hsh as Hsh0 Hsh.
    inversion Hsz as [|? ? Hp Hsz']; subst. cbn [fst snd] in Hp.
    cbn [length repeat seq map app] in Hwm, Hwj.
    apply skipn_cons_inv in Hwm. destruct Hwm as [Hwm0 Hwm].
    apply skipn_cons_inv in Hwj. destruct Hwj as [Hwj0 Hwj].
    destruct (IH specs (pre ++ [{| Tf.shape := Tf.shape o; Tf.data := param |}])
                done todo lg (S i) wm_rest wj_rest rest_sps Hsh Hsz' Hwm)
      as (IH1 & IH2 & IH3).
    { rewrite length_app. cbn [length]. rewrite Nat.add_1_r. exact Hwj. }
    rewrite <- !app_assoc in IH1. cbn [app] in IH1.
    replace (i + length (o :: cur)) with (S i + length cur) by (cbn [length]; lia).
    split; [|split; assumption].
    cbn [map]. unfold Tf.mk_tensor at 1. cbn [fst snd].
    rewrite <- IH1.
    cbn [app LatentAdapter.assign_all].
    rewrite (index_nth _ _ Hwm0). cbn [bind].
    assert (Hneq : (Z.of_nat (length done) =? -1)%Z = false)
      by (apply Z.eqb_neq; lia).
    rewrite Hneq. cbn [negb LatentAdapter.model_weights LatentAdapter.latent_logits].
    rewrite py_pos_nat by (rewrite length_app; cbn [length]; lia).
    cbn [bind].
    rewrite (@index_nth _ (done ++ (pre ++ o :: cur) :: todo) (length done)
               (pre ++ o :: cur))
      by (rewrite nth_error_app2 by lia; rewrite Nat.sub_diag; reflexivity).
    cbn [bind].
    rewrite (index_nth _ _ Hwj0). cbn [bind].
    rewrite py_pos_nat by (rewrite length_app; cbn [length]; lia).
    cbn [bind].
    unfold Tf.reshape. rewrite Hp, Nat.eqb_refl. cbn [bind].
    rewrite (@assign_at_app A pre o {| Tf.shape := Tf.shape o; Tf.data := param |} cur)
      by reflexivity.
    cbn [bind]. unfold replace_at.
    rewrite firstn_len_app, skipn_S_len_app. reflexivity.
Qed.

(** The same loop over the sub-models [todo] that are still to assign. *)
Lemma assign_models (ad : LatentAdapter.adapter) (todo : list (list (Tf.tensor A))) :
  forall (sps : list (list nat * list A)) (done : list (list (Tf.tensor A)))
         (lg : Tf.tensor A) (i : nat) (wm_rest wj_rest : list Z)
         (rest_sps : list (list nat * list A)),
  map fst sps = map (@Tf.shape A) (concat todo) ->
  Forall (fun sp : list nat * list A => length (snd sp) = Tf.numel (fst sp)) sps ->
  skipn i (LatentAdapter.w_to_model ad)
    = concat (map (fun am : nat * list (Tf.tensor A) =>
                     repeat (Z.of_nat (fst am)) (length (snd am)))
                  (combine (seq (length done) (length todo)) todo)) ++ wm_rest ->
  skipn i (LatentAdapter.w_to_model_indexes ad)
    = concat (map (fun m : list (Tf.tensor A) =>
                     map Z.of_nat (seq 0 (length m))) todo) ++ wj_rest ->
  LatentAdapter.assign_all ad i (sps ++ rest_sps)
    {| LatentAdapter.model_weights := done ++ todo;
       LatentAdapter.latent_logits := lg |}
  = LatentAdapter.assign_all ad (i + length sps) rest_sps
      {| LatentAdapter.model_weights :=
           done ++ Tf.split_chunks (map (@length _) todo)
                                   (map (@Tf.mk_tensor A) sps);
         LatentAdapter.latent_logits := lg |}
  /\ skipn (i + length sps) (LatentAdapter.w_to_model ad) = wm_rest
  /\ skipn (i + length sps) (LatentAdapter.w_to_model_indexes ad) = wj_rest.
Proof.
  induction todo as [|m todo IH];
    intros sps done lg i wm_rest wj_rest rest_sps Hsh Hsz Hwm Hwj.
  - cbn [concat map] in Hsh. apply map_eq_nil in Hsh. subst sps.
    cbn [length seq combine map concat app Tf.split_chunks] in *.
    rewrite Nat.add_0_r. split; [reflexivity|]. split; assumption.
  - cbn [concat] in Hsh. rewrite map_app in Hsh.
    assert (Hlen : length sps = length m + length (concat todo)).
    { apply (f_equal (@length _)) in Hsh.
      rewrite length_map, length_app, !length_map in Hsh. exact Hsh. }
    pose proof (firstn_skipn (length m) sps) as Hcut.
    remember (firstn (length m) sps) as s1 eqn:Es1.
    remember (skipn (length m) sps) as s2 eqn:Es2.
    assert (Hl1 : length s1 = length m) by (subst s1; rewrite length_firstn; lia).
    clear Es1 Es2. subst sps.
    rewrite map_app in Hsh.
    assert (Hs1 : map fst s1 = map (@Tf.shape A) m /\
                  map fst s2 = map (@Tf.shape A) (concat todo)).
    { clear - Hsh Hl1.
      assert (Hl : length (map fst s1) = length (map (@Tf.shape A) m))
        by (rewrite !length_map; exact Hl1).
      revert Hl Hsh. generalize (map fst s1) (map (@Tf.shape A) m).
      intros l1. induction l1 as [|x l1 IHl]; intros [|y l2] Hl Hsh;
        cbn [length] in Hl; try discriminate.
      - cbn [app] in Hsh. split; [reflexivity | exact Hsh].
      - cbn [app] in Hsh. injection Hsh as -> Hsh.
        destruct (IHl l2) as [-> H2]; [congruence | exact Hsh |].
        split; [reflexivity | exact H2]. }
    destruct Hs1 as [Hs1 Hs2].
    apply Forall_app in Hsz. destruct Hsz as [Hsz1 Hsz2].
    cbn [length seq combine map concat fst snd] in Hwm, Hwj.
    rewrite <- app_assoc in Hwm, Hwj.
    destruct (@assign_model_weights ad m s1 [] done todo lg i _ _ (s2 ++ rest_sps)
                Hs1 Hsz1 Hwm Hwj) as (HA1 & HA2 & HA3).
    cbn [app] in HA1.
    destruct (IH s2 (done ++ [map (@Tf.mk_tensor A) s1]) lg (i + length m)
                wm_rest wj_rest rest_sps Hs2 Hsz2) as (HB1 & HB2 & HB3).
    { rewrite length_app. cbn [length]. rewrite Nat.add_1_r. exact HA2. }
    { exact HA3. }
    rewrite <- !app_assoc in HB1. cbn [app] in HB1.
    rewrite length_app, Hl1, Nat.add_assoc.
    split; [|split; assumption].
    rewrite <- app_assoc, HA1, HB1.
    cbn [map Tf.split_chunks]. rewrite map_app.
    rewrite <- (length_map (@Tf.mk_tensor A) s1) in Hl1. rewrite <- Hl1.
    rewrite firstn_app, Nat.sub_diag, firstn_all. cbn [firstn]. rewrite app_nil_r.
    rewrite skipn_app, Nat.sub_diag, skipn_all. cbn [skipn app].
    reflexivity.
Qed.

(** The last turn of the loop, which assigns the logits. *)
Lemma assign_logits (ad : LatentAdapter.adapter) (i : nat) (sh : list nat)
    (param : list A) (mws : list (list (Tf.tensor A))) (lg : Tf.tensor A) :
  skipn i (LatentAdapter.w_to_model ad) = [(-1)%Z] ->
  sh = Tf.shape lg ->
  length param = Tf.numel sh ->
  LatentAdapter.assign_all ad i [(sh, param)]
    {| LatentAdapter.model_weights := mws; LatentAdapter.latent_logits := lg |}
  = Ok {| LatentAdapter.model_weights := mws;
          LatentAdapter.latent_logits := {| Tf.shape := sh; Tf.data := param |} |}.
Proof.
  intros Hwm Hsh Hp. apply skipn_cons_inv in Hwm. destruct Hwm as [Hwm0 _].
  cbn [LatentAdapter.assign_all]. rewrite (index_nth _ _ Hwm0). cbn [bind].
  change ((-1 =? -1)%Z) with true. cbn [negb].
  unfold Tf.reshape. rewrite Hp, Nat.eqb_refl. cbn [bind].
  cbn [LatentAdapter.latent_logits LatentAdapter.model_weights Tf.shape].
  unfold Tf.shape_eqb.
  destruct (list_eq_dec Nat.eq_dec (Tf.shape lg) sh) as [_|Hn]; [|congruence].
  reflexivity.
Qed.

(** [assign_new_model_parameters] on a vector of the right size: the
    variables it leaves are, in the order of the list [init], the tensors cut
    out of the vector. *)
Lemma latent_assign_spec (v : LatentAdapter.variables A) (x : list A) :
  length x = Tf.total (Tf.sizes (LatentAdapter.init_list v)) ->
  exists v',
    LatentAdapter.assign_new_model_parameters (LatentAdapter.make_adapter v) x v
      = Ok v' /\
    LatentAdapter.init_list v'
      = Tf.unflatten (Tf.shape_n (LatentAdapter.init_list v)) x /\
    map (@length _) (LatentAdapter.model_weights v')
      = map (@length _) (LatentAdapter.model_weights v).
Proof.
  intros Hx. destruct v as [mws lg].
  assert (Hwm : LatentAdapter.w_to_model
                  (LatentAdapter.make_adapter
                     {| LatentAdapter.model_weights := mws;
                        LatentAdapter.latent_logits := lg |})
                = concat (map (fun am : nat * list (Tf.tensor A) =>
                                 repeat (Z.of_nat (fst am)) (length (snd am)))
                              (combine (seq 0 (length mws)) mws)) ++ [(-1)%Z]).
  { unfold LatentAdapter.make_adapter, LatentAdapter.collect.
    rewrite collect_models_spec. reflexivity. }
  assert (Hwj : LatentAdapter.w_to_model_indexes
                  (LatentAdapter.make_adapter
                     {| LatentAdapter.model_weights := mws;
                        LatentAdapter.latent_logits := lg |})
                = concat (map (fun m : list (Tf.tensor A) =>
                                 map Z.of_nat (seq 0 (length m))) mws) ++ [(-1)%Z]).
  { unfold LatentAdapter.make_adapter, LatentAdapter.collect.
    rewrite collect_models_spec. reflexivity. }
  assert (Hshapes : LatentAdapter.shapes
                      (LatentAdapter.make_adapter
                         {| LatentAdapter.model_weights := mws;
                            LatentAdapter.latent_logits := lg |})
                    = Tf.shape_n (concat mws ++ [lg])).
  { unfold LatentAdapter.make_adapter, LatentAdapter.collect.
    rewrite collect_models_spec. reflexivity. }
  assert (Hpart : LatentAdapter.part
                    (LatentAdapter.make_adapter
                       {| LatentAdapter.model_weights := mws;
                          LatentAdapter.latent_logits := lg |})
                  = Tf.parts 0 (Tf.sizes (concat mws ++ [lg]))).
  { unfold LatentAdapter.make_adapter, LatentAdapter.collect.
    rewrite collect_models_spec. cbv zeta. cbn [LatentAdapter.part].
    apply indices_part. }
  assert (Hn : LatentAdapter.n_tensors
                 (LatentAdapter.make_adapter
                    {| LatentAdapter.model_weights := mws;
                       LatentAdapter.latent_logits := lg |})
               = length (Tf.sizes (concat mws ++ [lg]))).
  { unfold LatentAdapter.make_adapter, LatentAdapter.collect.
    rewrite collect_models_spec. cbv zeta. cbn [LatentAdapter.n_tensors].
    unfold Tf.sizes. rewrite length_map. reflexivity. }
  unfold LatentAdapter.init_list in Hx |- *.
  cbn [LatentAdapter.model_weights LatentAdapter.latent_logits] in Hx |- *.
  set (ad := LatentAdapter.make_adapter
               {| LatentAdapter.model_weights := mws;
                  LatentAdapter.latent_logits := lg |}) in *.
  set (ts := concat mws ++ [lg]) in *.
  unfold LatentAdapter.assign_new_model_parameters.
  rewrite Hpart, Hn, Hshapes. unfold Tf.dynamic_partition.
  rewrite parts_length, Hx, Nat.eqb_refl. cbn [bind].
  rewrite partition_chunks by exact Hx.
  pose proof (split_chunks_lengths (Tf.sizes ts) x Hx) as Hl.
  destruct (rebuild_spec (Tf.shape_n ts) _ Hl) as (H1 & _ & H3).
  assert (Hun : Tf.unflatten (Tf.shape_n ts) x
                = map (@Tf.mk_tensor A)
                      (combine (Tf.shape_n ts) (Tf.split_chunks (Tf.sizes ts) x)))
    by reflexivity.
  rewrite Hun.
  set (allspecs := combine (Tf.shape_n ts) (Tf.split_chunks (Tf.sizes ts) x)) in *.
  unfold ts, Tf.shape_n in H1. rewrite map_app in H1. cbn [map] in H1.
  apply map_eq_app in H1. destruct H1 as (sps & lastl & Hall & Hsps & Hlast).
  destruct lastl as [|[sh param] [|extra lastl]]; try discriminate.
  cbn [map fst] in Hlast. injection Hlast as Hsh.
  rewrite Hall in H3. apply Forall_app in H3. destruct H3 as [Hsz Hszl].
  inversion Hszl as [|? ? Hp _]; subst sh. cbn [fst snd] in Hp.
  rewrite Hall.
  destruct (@assign_models ad mws sps [] lg 0 [(-1)%Z] [(-1)%Z]
              [(Tf.shape lg, param)] Hsps Hsz Hwm Hwj)
    as (HB1 & HB2 & _).
  cbn [app Nat.add] in HB1, HB2.
  eexists. split.
  - etransitivity; [exact HB1|].
    apply assign_logits; [exact HB2 | reflexivity | exact Hp].
  - cbn [LatentAdapter.model_weights LatentAdapter.latent_logits].
    assert (Hlen : length (map (@Tf.mk_tensor A) sps)
                   = Tf.total (map (@length _) mws)).
    { rewrite length_map. apply (f_equal (@length _)) in Hsps.
      rewrite !length_map in Hsps. rewrite Hsps. clear.
      induction mws as [|m mws IH]; [reflexivity|].
      cbn [concat map Tf.total fold_right]. rewrite length_app. f_equal. exact IH. }
    split.
    + rewrite concat_split_chunks by exact Hlen.
      rewrite map_app. reflexivity.
    + apply split_chunks_lengths. exact Hlen.
Qed.


(** Lists of lists with the same lengths and the same entries are equal. *)
Lemma concat_lengths_inj (B : Type) (a b : list (list B)) :
  map (@length B) a = map (@length B) b -> concat a = concat b -> a = b.
Proof.
  intros Hl Hc. rewrite <- (split_chunks_concat a), Hl, Hc.
  apply split_chunks_concat.
Qed.

(** The stitch indices of the mixture are those for the list [init]. *)
Lemma latent_idx (v : LatentAdapter.variables A) :
  LatentAdapter.idx (LatentAdapter.make_adapter v)
  = Tf.idx (Tf.make_adapter (LatentAdapter.init_list v)).
Proof.
  destruct v as [mws lg].
  unfold LatentAdapter.make_adapter, LatentAdapter.collect.
  rewrite collect_models_spec. reflexivity.
Qed.

Lemma init_list_inj (v v' : LatentAdapter.variables A) :
  map (@length _) (LatentAdapter.model_weights v')
    = map (@length _) (LatentAdapter.model_weights v) ->
  LatentAdapter.init_list v' = LatentAdapter.init_list v ->
  v' = v.
Proof.
  destruct v as [mws lg], v' as [mws' lg']. unfold LatentAdapter.init_list.
  cbn [LatentAdapter.model_weights LatentAdapter.latent_logits].
  intros Hl He. apply app_inj_tail in He. destruct He as [Hc ->].
  rewrite (@concat_lengths_inj _ mws' mws Hl Hc). reflexivity.
Qed.

End LatentAdapterFacts.

(** X22. Writing a flat vector into a mixture (lines 1004-1048 and
    1128-1133): when the vector has as many entries as the weights of the
    sub-models and the logits together, [assign_new_model_parameters]
    succeeds; every weight of every sub-model and the logits keep their
    shapes; the entries of the sub-models' weights, model after model,
    followed by those of the logits are the entries of the vector; and
    flattening the variables again as [_fit_with_lbfgs] does returns the
    vector. *)
Theorem latent_assigned_vector_is_read_back
    (A : Type) (d : A) (v : LatentAdapter.variables A) (x : list A) :
  length x = Tf.total (Tf.sizes (LatentAdapter.init_list v)) ->
  exists v',
    LatentAdapter.assign_new_model_parameters (LatentAdapter.make_adapter v) x v
      = Ok v' /\
    map (map (@Tf.shape A)) (LatentAdapter.model_weights v')
      = map (map (@Tf.shape A)) (LatentAdapter.model_weights v) /\
    Tf.shape (LatentAdapter.latent_logits v')
      = Tf.shape (LatentAdapter.latent_logits v) /\
    Tf.flat (LatentAdapter.init_list v') = x /\
    LatentAdapter.init_params d (LatentAdapter.make_adapter v) v' = x.
Proof.
  intros Hx.
  destruct (@latent_assign_spec A v x Hx) as (v' & Hok & Hinit & Hlen).
  exists v'. split; [exact Hok|].
  destruct (@assign_read_back A d (LatentAdapter.init_list v)
              (LatentAdapter.init_list v) x eq_refl Hx) as (_ & Hs & _ & Hst).
  rewrite <- Hinit in Hs, Hst.
  destruct (@unflatten_spec A (Tf.shape_n (LatentAdapter.init_list v)) x Hx)
    as (_ & _ & Hf).
  rewrite <- Hinit in Hf.
  assert (Hs' : map (@Tf.shape A) (concat (LatentAdapter.model_weights v'))
                = map (@Tf.shape A) (concat (LatentAdapter.model_weights v))
                /\ Tf.shape (LatentAdapter.latent_logits v')
                   = Tf.shape (LatentAdapter.latent_logits v)).
  { unfold Tf.shape_n, LatentAdapter.init_list in Hs.
    rewrite !map_app in Hs. cbn [map] in Hs.
    apply app_inj_tail in Hs. exact Hs. }
  destruct Hs' as [Hsm Hsl].
  split; [|split; [exact Hsl|split; [exact Hf|]]].
  - apply concat_lengths_inj.
    + rewrite !map_map.
      transitivity (map (@length _) (LatentAdapter.model_weights v')).
      * apply map_ext. intros m. apply length_map.
      * rewrite Hlen. apply map_ext. intros m. symmetry. apply length_map.
    + rewrite <- !concat_map. exact Hsm.
  - unfold LatentAdapter.init_params. rewrite latent_idx. exact Hst.
Qed.

(** The example variables and a vector of nine entries. *)
Lemma latent_assigned_vector_is_read_back_witness :
  exists v',
    LatentAdapter.assign_new_model_parameters
      (LatentAdapter.make_adapter MoreExamples.mixture_variables)
      MoreExamples.mixture_position MoreExamples.mixture_variables = Ok v' /\
    map (map (@Tf.shape R)) (LatentAdapter.model_weights v')
      = map (map (@Tf.shape R))
            (LatentAdapter.model_weights MoreExamples.mixture_variables) /\
    Tf.shape (LatentAdapter.latent_logits v')
      = Tf.shape (LatentAdapter.latent_logits MoreExamples.mixture_variables) /\
    Tf.flat (LatentAdapter.init_list v') = MoreExamples.mixture_position /\
    LatentAdapter.init_params 0%R
      (LatentAdapter.make_adapter MoreExamples.mixture_variables) v'
      = MoreExamples.mixture_position.
Proof.
  apply (@latent_assigned_vector_is_read_back R 0%R
           MoreExamples.mixture_variables MoreExamples.mixture_position).
  reflexivity.
Defined.

(** X23. The initial position of the mixture (lines 1128-1133 with
    1033-1048): when every weight of every sub-model and the logits hold as
    many entries as their shapes say, assigning the vector [init_params]
    that [_fit_with_lbfgs] builds from the variables succeeds and leaves
    every variable of every sub-model, and the logits, as they were. *)
Theorem latent_initial_position_round_trip
    (A : Type) (d : A) (v : LatentAdapter.variables A) :
  Forall (@Tf.well_shaped A) (LatentAdapter.init_list v) ->
  LatentAdapter.assign_new_model_parameters (LatentAdapter.make_adapter v)
    (LatentAdapter.init_params d (LatentAdapter.make_adapter v) v) v
  = Ok v.
Proof.
  intros Hw. unfold LatentAdapter.init_params.
  rewrite latent_idx, dynamic_stitch_flat by exact Hw.
  destruct (@latent_assign_spec A v _ (@flat_length A _ Hw)) as (v' & Hok & Hinit & Hlen).
  rewrite unflatten_flat in Hinit by exact Hw.
  rewrite Hok. f_equal. apply init_list_inj; assumption.
Qed.

(** The example variables. *)
Lemma latent_initial_position_round_trip_witness :
  LatentAdapter.assign_new_model_parameters
    (LatentAdapter.make_adapter MoreExamples.mixture_variables)
    (LatentAdapter.init_params 0%R
       (LatentAdapter.make_adapter MoreExamples.mixture_variables)
       MoreExamples.mixture_variables)
    MoreExamples.mixture_variables
  = Ok MoreExamples.mixture_variables.
Proof.
  apply (@latent_initial_position_round_trip R 0%R MoreExamples.mixture_variables).
  repeat constructor.
Defined.
